(** * modal_temstapro: the Modal entry point of TemStaPro

  A shallow embedding of [modal_temstapro.py]: the GPU resolver, the
  remote worker [run_temstapro] with its helpers, and the local launcher
  [main].  The script is glue code around three libraries, so the
  development starts with small executable models of what it uses from
  them:

  - Python built-ins: truthiness of [Optional[str]], [str.upper],
    [str(int)];
  - [pathlib] (POSIX flavour): parsing, [/], [name], [parent], [str],
    [relative_to], the ordering of paths;
  - the file system seen through [pathlib], [shutil] and [os.environ].

  Strings are sequences of 8-bit characters; [str.upper] is modelled on
  ASCII text.  File contents are byte lists. *)

From Stdlib Require Import ZArith Ascii String List.
From stdpp Require Import base strings list gmap sorting pretty.

Local Open Scope string_scope.
Local Open Scope list_scope.

Definition bytes := list Byte.byte.

(** ** Python built-ins *)

Module Py.

(** [bool(s)] for [s : Optional[str]]: [None] and the empty string are
    false. *)
Definition truthy (o : option string) : bool :=
  match o with
  | Some s => negb (String.eqb s "")
  | None => false
  end.

Definition upper_char (c : ascii) : ascii :=
  let n := nat_of_ascii c in
  if (97 <=? n)%nat && (n <=? 122)%nat then ascii_of_nat (n - 32) else c.

(** [str.upper] on ASCII text. *)
Fixpoint upper (s : string) : string :=
  match s with
  | EmptyString => EmptyString
  | String c s' => String (upper_char c) (upper s')
  end.

(** [str(n)] for an [int]. *)
Definition str_int (n : Z) : string := pretty n.

(** [sep.join(l)]. *)
Fixpoint join (sep : string) (l : list string) : string :=
  match l with
  | [] => ""
  | [x] => x
  | x :: l' => x +:+ sep +:+ join sep l'
  end.

(** [s.split(sep)] for a one-character separator. *)
Fixpoint split (sep : ascii) (s : string) : list string :=
  match s with
  | EmptyString => [""]
  | String c s' =>
      if decide (c = sep) then "" :: split sep s'
      else match split sep s' with
           | [] => [String c ""]
           | h :: t => String c h :: t
           end
  end.

(** [s.lstrip(sep)]. *)
Fixpoint lstrip (sep : ascii) (s : string) : string :=
  match s with
  | EmptyString => EmptyString
  | String c s' => if decide (c = sep) then lstrip sep s' else s
  end.

(** [sub in s] for strings. *)
Definition contains (sub s : string) : Prop :=
  ∃ pre post, s = pre +:+ sub +:+ post.

(** [c in s] for a character. *)
Fixpoint has_char (c : ascii) (s : string) : bool :=
  match s with
  | EmptyString => false
  | String c' s' => bool_decide (c' = c) || has_char c s'
  end.

End Py.

(** ** pathlib, POSIX flavour *)

Module pathlib.

(** A parsed path: the root ([""], ["/"] or ["//"]) and the components
    after it.  [pathlib] drops empty and ["."] components when it parses
    and keeps [".."]. *)
Record PurePath := { root : string; parts : list string }.

Global Instance PurePath_eq_dec : EqDecision PurePath.
Proof. solve_decision. Defined.

Definition sep : ascii := "/"%char.

(** [_PosixFlavour.splitroot]. *)
Definition splitroot (part : string) : string * string :=
  match part with
  | String c _ =>
      if decide (c = sep) then
        let stripped := Py.lstrip sep part in
        if decide (String.length part - String.length stripped = 2)%nat
        then ("//", stripped) else ("/", stripped)
      else ("", part)
  | EmptyString => ("", part)
  end.

Definition keep_part (x : string) : bool :=
  negb (String.eqb x "") && negb (String.eqb x ".").

(** [Path(s)]: [parse_parts] on one argument. *)
Definition Path (s : string) : PurePath :=
  let '(r, rel) := splitroot s in
  {| root := r; parts := List.filter keep_part (Py.split sep rel) |}.

(** [p / s]: an anchored right operand replaces the left one. *)
Definition truediv (p : PurePath) (s : string) : PurePath :=
  let q := Path s in
  if decide (root q = "") then {| root := root p; parts := parts p ++ parts q |}
  else q.

(** [p._make_child_relpath(name)], used by the directory scanners. *)
Definition child (p : PurePath) (rel : list string) : PurePath :=
  {| root := root p; parts := parts p ++ rel |}.

Definition name (p : PurePath) : string := List.last (parts p) "".

Definition parent (p : PurePath) : PurePath :=
  {| root := root p; parts := removelast (parts p) |}.

(** [str(p)]. *)
Definition str (p : PurePath) : string :=
  let s := root p +:+ Py.join "/" (parts p) in
  if String.eqb s "" then "." else s.

(** [p.relative_to(other)]; [None] stands for the [ValueError]. *)
Definition relative_to (p other : PurePath) : option PurePath :=
  if decide (root p = root other) then
    if decide (parts other `prefix_of` parts p)
    then Some {| root := ""; parts := drop (length (parts other)) (parts p) |}
    else None
  else None.

(** [p._cparts]: what the comparison operators of paths compare. *)
Definition cparts (p : PurePath) : list string :=
  (if decide (root p = "") then [] else [root p]) ++ parts p.

(** Python's [<=] on lists of strings: lexicographic, a proper prefix
    first, strings by code point. *)
Fixpoint parts_leb (l1 l2 : list string) : bool :=
  match l1, l2 with
  | [], _ => true
  | _ :: _, [] => false
  | x :: l1', y :: l2' =>
      match String.compare x y with
      | Lt => true
      | Gt => false
      | Eq => parts_leb l1' l2'
      end
  end.

Definition parts_le (l1 l2 : list string) : Prop := parts_leb l1 l2 = true.
Definition path_le (p q : PurePath) : Prop := parts_le (cparts p) (cparts q).

Global Instance parts_le_dec : RelDecision parts_le.
Proof. intros l1 l2; unfold parts_le; apply _. Defined.
Global Instance path_le_dec : RelDecision path_le.
Proof. intros p q; unfold path_le; apply _. Defined.

(** [sorted(paths)]. *)
Definition sorted (l : list PurePath) : list PurePath := merge_sort path_le l.

End pathlib.

Import pathlib.

(** ** Exceptions and the state-and-exception monad *)

(** The [errno] values the modelled system calls can fail with. *)
Inductive errno := ENOENT | ENOTDIR | EISDIR | EEXIST.

Global Instance errno_eq_dec : EqDecision errno.
Proof. solve_decision. Defined.

(** The exceptions of the script.  The subclasses of [OSError] are told
    apart by their [errno], as Python does: [FileNotFoundError] is
    [ENOENT], [NotADirectoryError] is [ENOTDIR], [IsADirectoryError] is
    [EISDIR], [FileExistsError] is [EEXIST]. *)
Inductive exn :=
| RuntimeError (msg : string)
| OSError (e : errno) (msg : string)
| ValueError (msg : string).

Definition FileNotFoundError (msg : string) : exn := OSError ENOENT msg.

(** A computation over a state [S]: it returns a value or raises, and the
    state it leaves behind is kept in both cases (a raise does not undo the
    writes before it). *)
Definition M (S A : Type) : Type := S → (exn + A) * S.

Definition ret {S A} (a : A) : M S A := λ s, (inr a, s).
Definition raise {S A} (e : exn) : M S A := λ s, (inl e, s).
Definition bind {S A B} (c : M S A) (k : A → M S B) : M S B :=
  λ s, match c s with
       | (inr a, s') => k a s'
       | (inl e, s') => (inl e, s')
       end.
Definition gets {S A} (f : S → A) : M S A := λ s, (inr (f s), s).
Definition modify {S} (f : S → S) : M S unit := λ s, (inr tt, f s).

Notation "x <- c ;; k" := (bind c (λ x, k))
  (at level 100, c at next level, right associativity, only parsing).
Notation "c ;;; k" := (bind c (λ _, k))
  (at level 100, right associativity, only parsing).

(** [for x in l: body x]. *)
Fixpoint for_each {S A} (l : list A) (body : A → M S unit) : M S unit :=
  match l with
  | [] => ret tt
  | x :: l' => body x ;;; for_each l' body
  end.

(** A loop that updates a local variable [acc]. *)
Fixpoint for_fold {S A B} (l : list A) (acc : B) (body : B → A → M S B) : M S B :=
  match l with
  | [] => ret acc
  | x :: l' => acc' <- body acc x ;; for_fold l' acc' body
  end.

(** ** The file system and the process environment *)

Module os.

Inductive node := File (data : bytes) | Dir.

(** A location is an absolute, resolved path: the names from the root
    down.  The file system maps locations to nodes; [cwd] is the working
    directory, [environ] is [os.environ], [stdout] and [stderr] collect
    what the process prints. *)
Record World := {
  fs : gmap (list string) node;
  cwd : list string;
  environ : gmap string string;
  stdout : string;
  stderr : string
}.

Definition set_fs (m : gmap (list string) node) (w : World) : World :=
  {| fs := m; cwd := cwd w; environ := environ w; stdout := stdout w; stderr := stderr w |}.
Definition set_environ (e : gmap string string) (w : World) : World :=
  {| fs := fs w; cwd := cwd w; environ := e; stdout := stdout w; stderr := stderr w |}.
Definition set_stdout (s : string) (w : World) : World :=
  {| fs := fs w; cwd := cwd w; environ := environ w; stdout := s; stderr := stderr w |}.
Definition set_stderr (s : string) (w : World) : World :=
  {| fs := fs w; cwd := cwd w; environ := environ w; stdout := stdout w; stderr := s |}.

(** Path resolution (there are no symbolic links in the model): every
    component but the last is looked up in a directory that must exist;
    [".."] goes to the parent, and the parent of the root is the root. *)
Fixpoint walk (m : gmap (list string) node) (cur : list string) (ps : list string)
  : errno + list string :=
  match ps with
  | [] => inr cur
  | c :: rest =>
      match m !! cur with
      | Some Dir => walk m (if decide (c = "..") then removelast cur else cur ++ [c]) rest
      | Some (File _) => inl ENOTDIR
      | None => inl ENOENT
      end
  end.

Definition start (w : World) (p : PurePath) : list string :=
  if decide (root p = "") then cwd w else [].

Definition locate (w : World) (p : PurePath) : errno + list string :=
  walk (fs w) (start w p) (parts p).

(** [os.stat]. *)
Definition stat (w : World) (p : PurePath) : errno + node :=
  match locate w p with
  | inl e => inl e
  | inr l => match fs w !! l with Some n => inr n | None => inl ENOENT end
  end.

(** [Path.exists], [Path.is_file], [Path.is_dir]: a failing [stat] is
    [False]. *)
Definition exists_ (w : World) (p : PurePath) : bool :=
  match stat w p with inr _ => true | inl _ => false end.
Definition is_file (w : World) (p : PurePath) : bool :=
  match stat w p with inr (File _) => true | _ => false end.
Definition is_dir (w : World) (p : PurePath) : bool :=
  match stat w p with inr Dir => true | _ => false end.

(** [Path.read_bytes]. *)
Definition read_bytes (p : PurePath) : M World bytes := λ w,
  match stat w p with
  | inr (File d) => (inr d, w)
  | inr Dir => (inl (OSError EISDIR (str p)), w)
  | inl e => (inl (OSError e (str p)), w)
  end.

(** [Path.write_bytes]: creates or truncates a regular file. *)
Definition write_bytes (p : PurePath) (data : bytes) : M World unit := λ w,
  match locate w p with
  | inl e => (inl (OSError e (str p)), w)
  | inr l =>
      match fs w !! l with
      | Some Dir => (inl (OSError EISDIR (str p)), w)
      | _ => (inr tt, set_fs (<[l := File data]> (fs w)) w)
      end
  end.

(** [os.mkdir]. *)
Definition os_mkdir (p : PurePath) : M World unit := λ w,
  match locate w p with
  | inl e => (inl (OSError e (str p)), w)
  | inr l =>
      match fs w !! l with
      | Some _ => (inl (OSError EEXIST (str p)), w)
      | None => (inr tt, set_fs (<[l := Dir]> (fs w)) w)
      end
  end.

(** [Path.mkdir(parents=False, exist_ok=exist_ok)]. *)
Definition mkdir_single (p : PurePath) (exist_ok : bool) : M World unit := λ w,
  match os_mkdir p w with
  | (inr tt, w') => (inr tt, w')
  | (inl (OSError ENOENT msg), _) => (inl (OSError ENOENT msg), w)
  | (inl e, _) => if exist_ok && is_dir w p then (inr tt, w) else (inl e, w)
  end.

(** [Path.mkdir(parents=True, exist_ok=exist_ok)]: on [FileNotFoundError]
    it makes the parent the same way and tries again.  [n] is the number
    of components of [p]; with none left, [p.parent == p] and the error is
    raised. *)
Fixpoint mkdir_parents (n : nat) (p : PurePath) (exist_ok : bool) : M World unit := λ w,
  match os_mkdir p w with
  | (inr tt, w') => (inr tt, w')
  | (inl (OSError ENOENT msg), _) =>
      match n with
      | 0 => (inl (OSError ENOENT msg), w)
      | S n' => (mkdir_parents n' (parent p) true ;;; mkdir_single p exist_ok) w
      end
  | (inl e, _) => if exist_ok && is_dir w p then (inr tt, w) else (inl e, w)
  end.

Definition mkdir (p : PurePath) (parents exist_ok : bool) : M World unit :=
  if parents then mkdir_parents (length (parts p)) p exist_ok
  else mkdir_single p exist_ok.

(** [shutil.rmtree]: removes a directory and everything below it. *)
Definition rmtree (p : PurePath) : M World unit := λ w,
  match locate w p with
  | inl e => (inl (OSError e (str p)), w)
  | inr l =>
      match fs w !! l with
      | Some Dir => (inr tt, set_fs (filter (λ kv, ¬ l `prefix_of` kv.1) (fs w)) w)
      | Some (File _) => (inl (OSError ENOTDIR (str p)), w)
      | None => (inl (OSError ENOENT (str p)), w)
      end
  end.

(** The locations strictly below [l], relative to [l], in the order the
    system happens to enumerate them. *)
Definition below (m : gmap (list string) node) (l : list string) : list (list string) :=
  drop (length l) <$> filter (λ k, l `prefix_of` k ∧ k ≠ l) (map_to_list m).*1.

(** [Path.rglob("*")]: every file and directory anywhere below [p]; nothing
    when [p] is not a directory.  The order is the system's. *)
Definition rglob (w : World) (p : PurePath) : list PurePath :=
  if is_dir w p then
    match locate w p with
    | inr l => child p <$> below (fs w) l
    | inl _ => []
    end
  else [].

(** [os.environ.get(k, default)] and [os.environ.setdefault(k, v)]. *)
Definition environ_get (k default : string) (w : World) : string :=
  match environ w !! k with Some v => v | None => default end.
Definition environ_setdefault (k v : string) : M World unit := λ w,
  match environ w !! k with
  | Some _ => (inr tt, w)
  | None => (inr tt, set_environ (<[k := v]> (environ w)) w)
  end.

(** [print(s, end="")] and [print(s, end="", file=sys.stderr)]. *)
Definition print_out (s : string) : M World unit :=
  modify (λ w, set_stdout (stdout w +:+ s) w).
Definition print_err (s : string) : M World unit :=
  modify (λ w, set_stderr (stderr w +:+ s) w).

(** A file system is well formed when the root is a directory and every
    entry sits in a directory under a name a directory entry can have. *)
Definition valid_name (n : string) : bool :=
  negb (String.eqb n "") && negb (String.eqb n ".") && negb (String.eqb n "..")
  && negb (Py.has_char sep n).

Definition fs_wf (m : gmap (list string) node) : Prop :=
  m !! [] = Some Dir ∧
  ∀ l n, is_Some (m !! (l ++ [n])) → m !! l = Some Dir ∧ valid_name n = true.

End os.

Import os.

Notation "p // s" := (truediv p s) (at level 40, left associativity).

(** ** The script *)

Module modal.
(** The GPU classes of [modal.gpu] the script can ask for. *)
Inductive GpuType := A10G | A100 | H100 | L4.
End modal.

Definition REMOTE_REPO_PATH : PurePath := Path "/workspace/TemStaPro".
Definition REMOTE_FASTA_DIR : PurePath := Path "/tmp/temstapro".
Definition HF_CACHE_ROOT : PurePath := Path "/cache/hf".
Definition EMBEDDINGS_CACHE_ROOT : PurePath := Path "/cache/embeddings".
Definition PROTTRANS_DIR : PurePath := HF_CACHE_ROOT // "prottrans".

(** The chain of comparisons of [_gpu_from_env]. *)
Definition gpu_of_name (s : string) : option modal.GpuType :=
  if decide (s = "A10G") then Some modal.A10G
  else if decide (s = "A100") then Some modal.A100
  else if decide (s = "H100") then Some modal.H100
  else if decide (s = "L4") then Some modal.L4
  else None.

(** Translate the [GPU] environment variable into a Modal GPU config. *)
Definition _gpu_from_env (w : World) : option modal.GpuType :=
  let gpu_env := Py.upper (environ_get "GPU" "" w) in
  if decide (gpu_env = "A10G") then Some modal.A10G
  else if decide (gpu_env = "A100") then Some modal.A100
  else if decide (gpu_env = "H100") then Some modal.H100
  else if decide (gpu_env = "L4") then Some modal.L4
  else None.

Definition GPU_CONFIG (w : World) : option modal.GpuType := _gpu_from_env w.

(** Create a clean working directory for each remote execution. *)
Definition _prepare_workdir (fasta_name : string)
  : M World (PurePath * PurePath * PurePath) :=
  ex <- gets (λ w, exists_ w REMOTE_FASTA_DIR) ;;
  (if ex then rmtree REMOTE_FASTA_DIR else ret tt) ;;;
  mkdir REMOTE_FASTA_DIR true true ;;;
  let input_path := REMOTE_FASTA_DIR // fasta_name in
  let outputs_path := REMOTE_FASTA_DIR // "outputs" in
  let plots_path := REMOTE_FASTA_DIR // "plots" in
  mkdir outputs_path true true ;;;
  mkdir plots_path true true ;;;
  ret (input_path, outputs_path, plots_path).

(** Ensure cache directories exist and update env vars for
    huggingface/torch. *)
Definition _env_prepare : M World unit :=
  for_each [HF_CACHE_ROOT; EMBEDDINGS_CACHE_ROOT; PROTTRANS_DIR]
    (λ path, mkdir path true true) ;;;
  environ_setdefault "HF_HOME" (str HF_CACHE_ROOT) ;;;
  environ_setdefault "TRANSFORMERS_CACHE" (str (HF_CACHE_ROOT // "transformers")) ;;;
  environ_setdefault "XDG_CACHE_HOME" (str HF_CACHE_ROOT) ;;;
  environ_setdefault "TORCH_HOME" (str (HF_CACHE_ROOT // "torch")).

(** The body of the loop of [_collect_outputs].  A [Path] is always true,
    so [output_path and output_path.exists()] tests [None] and existence. *)
Definition collect_output (results : gmap string (option bytes))
    (kv : string * option PurePath) : M World (gmap string (option bytes)) :=
  let '(key, output_path) := kv in
  match output_path with
  | Some p =>
      ex <- gets (λ w, exists_ w p) ;;
      if ex then data <- read_bytes p ;; ret (<[key := Some data]> results)
      else ret (<[key := None]> results)
  | None => ret (<[key := None]> results)
  end.

(** Return the contents of generated files keyed by output identifier.
    [paths] is the dictionary in insertion order. *)
Definition _collect_outputs (paths : list (string * option PurePath))
  : M World (gmap string (option bytes)) :=
  for_fold paths ∅ collect_output.

(** The body of the loop of [_gather_plot_files]. *)
Definition gather_file (plot_dir : PurePath) (entries : list (string * bytes))
    (file_path : PurePath) : M World (list (string * bytes)) :=
  isf <- gets (λ w, is_file w file_path) ;;
  if isf then
    match relative_to file_path plot_dir with
    | Some rel =>
        data <- read_bytes file_path ;;
        ret (entries ++ [(str rel, data)])
    | None => raise (ValueError (str file_path))
    end
  else ret entries.

(** The loop of [_gather_plot_files] over what [rglob] returned. *)
Definition gather_from (plot_dir : PurePath) (scan : list PurePath)
  : M World (list (string * bytes)) :=
  for_fold (sorted scan) [] (gather_file plot_dir).

(** Return relative paths and bytes for every file found in [plot_dir]. *)
Definition _gather_plot_files (plot_dir : PurePath) : M World (list (string * bytes)) :=
  ex <- gets (λ w, exists_ w plot_dir) ;;
  if negb ex then ret []
  else
    scan <- gets (λ w, rglob w plot_dir) ;;
    gather_from plot_dir scan.

(** The keyword arguments of the remote worker. *)
Module worker.
Record args := {
  fasta_bytes : bytes;
  fasta_name : string;
  more_thresholds : bool;
  portion_size : Z;
  segment_size : Z;
  window_size_predictions : Z;
  curve_smoothening : bool;
  include_plots : bool;
  mean_output_name : option string;
  per_res_output_name : option string;
  per_segment_output_name : option string
}.
End worker.

(** What [subprocess.run(..., capture_output=True, text=True)] returns. *)
Record CompletedProcess := {
  returncode : Z;
  cp_stdout : string;
  cp_stderr : string
}.

(** The dictionary the worker returns. *)
Record Results := {
  res_stdout : string;
  res_stderr : string;
  files : gmap string (option bytes);
  plots : list (string * bytes)
}.

(** [outputs_path / name if name else None]. *)
Definition output_path_of (outputs_path : PurePath) (name : option string)
  : option PurePath :=
  match name with
  | Some n => if Py.truthy name then Some (outputs_path // n) else None
  | None => None
  end.

(** The command line of the worker (the list [cmd] and the appends to
    it). *)
Definition build_cmd (a : worker.args) (input_path plots_path : PurePath)
    (mean_output_path per_res_output_path per_segment_output_path : option PurePath)
  : list string :=
  let cmd :=
    [ "python"; str (REMOTE_REPO_PATH // "temstapro");
      "-f"; str input_path;
      "-d"; str PROTTRANS_DIR;
      "-t"; str REMOTE_REPO_PATH;
      "-e"; str EMBEDDINGS_CACHE_ROOT;
      "--portion-size"; Py.str_int (worker.portion_size a);
      "--segment-size"; Py.str_int (worker.segment_size a);
      "--window-size-predictions"; Py.str_int (worker.window_size_predictions a) ] in
  let cmd := if worker.more_thresholds a then cmd ++ ["--more-thresholds"] else cmd in
  let cmd := if worker.curve_smoothening a then cmd ++ ["--curve-smoothening"] else cmd in
  let cmd := match mean_output_path with
             | Some p => cmd ++ ["--mean-output"; str p] | None => cmd end in
  let cmd := match per_res_output_path with
             | Some p => cmd ++ ["--per-res-output"; str p] | None => cmd end in
  let cmd := match per_segment_output_path with
             | Some p => cmd ++ ["--per-segment-output"; str p] | None => cmd end in
  let cmd := if worker.include_plots a then cmd ++ ["--per-residue-plot-dir"; str plots_path]
             else cmd in
  cmd.

Definition failure_message (completed : CompletedProcess) : string :=
  "TemStaPro execution failed with return code " +:+ Py.str_int (returncode completed)
  +:+ "
STDOUT:
" +:+ cp_stdout completed +:+ "
STDERR:
" +:+ cp_stderr completed.

Section Worker.

(** The external predictor, run as a child process: from the command line
    and the world it sees, the exit code and captured output, and the file
    system it leaves. *)
Variable tool : list string → World → CompletedProcess * gmap (list string) node.

(** [subprocess.run(cmd, check=False, capture_output=True, text=True)]. *)
Definition subprocess_run (cmd : list string) : M World CompletedProcess := λ w,
  let '(completed, m) := tool cmd w in (inr completed, set_fs m w).

(** Remote execution wrapper around the original TemStaPro CLI. *)
Definition run_temstapro (a : worker.args) : M World Results :=
  _env_prepare ;;;
  dirs <- _prepare_workdir (worker.fasta_name a) ;;
  let '(input_path, outputs_path, plots_path) := dirs in
  write_bytes input_path (worker.fasta_bytes a) ;;;
  let mean_output_path := output_path_of outputs_path (worker.mean_output_name a) in
  let per_res_output_path := output_path_of outputs_path (worker.per_res_output_name a) in
  let per_segment_output_path :=
    output_path_of outputs_path (worker.per_segment_output_name a) in
  let cmd := build_cmd a input_path plots_path
               mean_output_path per_res_output_path per_segment_output_path in
  completed <- subprocess_run cmd ;;
  if decide (returncode completed ≠ 0%Z) then
    raise (RuntimeError (failure_message completed))
  else
    file_payload <- _collect_outputs
      [ ("mean", mean_output_path);
        ("per_res", per_res_output_path);
        ("per_segment", per_segment_output_path) ] ;;
    plots_payload <- (if worker.include_plots a then _gather_plot_files plots_path
                      else ret []) ;;
    ret {| res_stdout := cp_stdout completed;
           res_stderr := cp_stderr completed;
           files := file_payload;
           plots := plots_payload |}.

End Worker.

Definition _write_optional_file (output_path : option string) (payload : option bytes)
  : M World unit :=
  match output_path, payload with
  | Some path, Some data =>
      if Py.truthy output_path then
        let destination := Path path in
        mkdir (parent destination) true true ;;;
        write_bytes destination data
      else ret tt
  | _, _ => ret tt
  end.

(** The body of the loop of [_write_plots]. *)
Definition write_plot (base : PurePath) (entry : string * bytes) : M World unit :=
  let '(relative_path, blob) := entry in
  let target := base // relative_path in
  mkdir (parent target) true true ;;;
  write_bytes target blob.

Definition _write_plots (plot_dir : option string) (plots : list (string * bytes))
  : M World unit :=
  match plot_dir with
  | Some dir =>
      if negb (Py.truthy plot_dir) then ret tt
      else
        let base := Path dir in
        mkdir base true true ;;;
        for_each plots (write_plot base)
  | None => ret tt
  end.

(** The keyword arguments of the local entry point, with their defaults. *)
Module launcher.
Record args := {
  fasta_path : string;
  output_path : option string;
  more_thresholds : bool;
  per_res_output : option string;
  per_segment_output : option string;
  plot_dir : option string;
  portion_size : Z;
  segment_size : Z;
  window_size_predictions : Z;
  curve_smoothening : bool
}.

Definition defaults (fasta_path : string) : args :=
  {| fasta_path := fasta_path; output_path := None; more_thresholds := false;
     per_res_output := None; per_segment_output := None; plot_dir := None;
     portion_size := 1000; segment_size := 41; window_size_predictions := 81;
     curve_smoothening := false |}.
End launcher.

(** The launcher runs on the local machine and the worker on a remote
    one.  [calls] records the remote calls made, in order. *)
Record Sys := {
  local : World;
  remote : World;
  calls : list worker.args
}.

Definition on_local {A} (c : M World A) : M Sys A := λ s,
  let '(r, w) := c (local s) in
  (r, {| local := w; remote := remote s; calls := calls s |}).

(** [Path(p).name if p else None]. *)
Definition name_of (p : option string) : option string :=
  match p with
  | Some s => if Py.truthy p then Some (name (Path s)) else None
  | None => None
  end.

(** The keyword arguments [main] passes to [run_temstapro.remote]. *)
Definition remote_args (a : launcher.args) (fasta_file : PurePath) (data : bytes)
  : worker.args :=
  {| worker.fasta_bytes := data;
     worker.fasta_name := name fasta_file;
     worker.more_thresholds := launcher.more_thresholds a;
     worker.portion_size := launcher.portion_size a;
     worker.segment_size := launcher.segment_size a;
     worker.window_size_predictions := launcher.window_size_predictions a;
     worker.curve_smoothening := launcher.curve_smoothening a;
     worker.include_plots := Py.truthy (launcher.plot_dir a);
     worker.mean_output_name := name_of (launcher.output_path a);
     worker.per_res_output_name := name_of (launcher.per_res_output a);
     worker.per_segment_output_name := name_of (launcher.per_segment_output a) |}.

(** [d.get(k)] on the returned [files] dictionary. *)
Definition files_get (d : gmap string (option bytes)) (k : string) : option bytes :=
  match d !! k with Some v => v | None => None end.

(** What [main] does with the returned dictionary, on the local machine:
    the writes and the two prints. *)
Definition write_back (a : launcher.args) (results : Results) : M World unit :=
  let files_dict := files results in
  let plots_list := plots results in
  _write_optional_file (launcher.output_path a) (files_get files_dict "mean") ;;;
  _write_optional_file (launcher.per_res_output a) (files_get files_dict "per_res") ;;;
  _write_optional_file (launcher.per_segment_output a) (files_get files_dict "per_segment") ;;;
  _write_plots (launcher.plot_dir a) plots_list ;;;
  (if negb (String.eqb (res_stdout results) "") then print_out (res_stdout results)
   else ret tt) ;;;
  (if negb (String.eqb (res_stderr results) "") then print_err (res_stderr results)
   else ret tt).

Section Launcher.

Variable tool : list string → World → CompletedProcess * gmap (list string) node.

(** [run_temstapro.remote(...)]: the worker runs in the remote world; what
    it returns or raises comes back to the caller. *)
Definition remote_call (a : worker.args) : M Sys Results := λ s,
  let '(r, w) := run_temstapro tool a (remote s) in
  (r, {| local := local s; remote := w; calls := calls s ++ [a] |}).

(** Run TemStaPro remotely on Modal using local CLI-style arguments. *)
Definition main (a : launcher.args) : M Sys unit :=
  let fasta_file := Path (launcher.fasta_path a) in
  isf <- on_local (gets (λ w, is_file w fasta_file)) ;;
  if negb isf then
    raise (FileNotFoundError ("FASTA file not found: " +:+ launcher.fasta_path a))
  else
    data <- on_local (read_bytes fasta_file) ;;
    results <- remote_call (remote_args a fasta_file data) ;;
    on_local (write_back a results).

End Launcher.

(** ** A small scenario to run the model on *)

Module Demo.

Definition b (s : string) : bytes := list_byte_of_string s.

Definition empty_world : World :=
  {| fs := {[ [] := Dir ]}; cwd := []; environ := ∅; stdout := ""; stderr := "" |}.

Definition local_world : World :=
  set_fs (<[ ["home"; "protein.fasta"] := File (b ">p1 MKV") ]>
         (<[ ["home"] := Dir ]> {[ [] := Dir ]}))
    {| fs := ∅; cwd := ["home"]; environ := ∅; stdout := ""; stderr := "" |}.

(** A predictor that writes the mean output and two plots and exits with
    code 0. *)
Definition good_tool (cmd : list string) (w : World)
  : CompletedProcess * gmap (list string) node :=
  ({| returncode := 0; cp_stdout := "done"; cp_stderr := "" |},
   <[ ["tmp"; "temstapro"; "plots"; "sub"; "b.png"] := File (b "BB") ]>
   (<[ ["tmp"; "temstapro"; "plots"; "sub"] := Dir ]>
   (<[ ["tmp"; "temstapro"; "plots"; "a.png"] := File (b "AA") ]>
   (<[ ["tmp"; "temstapro"; "outputs"; "mean.tsv"] := File (b "ID Score") ]> (fs w))))).

(** A predictor that fails. *)
Definition bad_tool (cmd : list string) (w : World)
  : CompletedProcess * gmap (list string) node :=
  ({| returncode := 2; cp_stdout := "out"; cp_stderr := "boom" |}, fs w).

Definition scenario : launcher.args :=
  {| launcher.fasta_path := "protein.fasta";
     launcher.output_path := Some "/tmp/out/mean.tsv";
     launcher.more_thresholds := false;
     launcher.per_res_output := None;
     launcher.per_segment_output := None;
     launcher.plot_dir := Some "/tmp/out/plots";
     launcher.portion_size := 500;
     launcher.segment_size := 41;
     launcher.window_size_predictions := 81;
     launcher.curve_smoothening := false |}.

Definition sys0 : Sys := {| local := local_world; remote := empty_world; calls := [] |}.

(** The remote world after the worker ran the good predictor. *)
Definition remote_after : World :=
  (run_temstapro good_tool (remote_args scenario (Path "protein.fasta") (b ">p1 MKV"))
     empty_world).2.

(** What the worker returns in the scenario. *)
Definition results : Results :=
  match (run_temstapro good_tool (remote_args scenario (Path "protein.fasta") (b ">p1 MKV"))
           empty_world).1 with
  | inr r => r
  | inl _ => {| res_stdout := ""; res_stderr := ""; files := ∅; plots := [] |}
  end.

(** Worker arguments with an empty name for the mean output, as [main]
    sends them when [output_path] is ["/"]. *)
Definition empty_name_args : worker.args :=
  remote_args
    {| launcher.fasta_path := "protein.fasta";
       launcher.output_path := Some "/";
       launcher.more_thresholds := false;
       launcher.per_res_output := None;
       launcher.per_segment_output := None;
       launcher.plot_dir := None;
       launcher.portion_size := 1000;
       launcher.segment_size := 41;
       launcher.window_size_predictions := 81;
       launcher.curve_smoothening := false |}
    (Path "protein.fasta") (b ">p1 MKV").

(** A world whose only content is the value of [GPU]. *)
Definition with_gpu (v : option string) : World :=
  {| fs := {[ [] := Dir ]}; cwd := [];
     environ := match v with Some s => {[ "GPU" := s ]} | None => ∅ end;
     stdout := ""; stderr := "" |}.

End Demo.

(** ** The worker, cut at the subprocess call *)

(** The three paths [_prepare_workdir] returns, and the output paths the
    worker derives from the names it was given. *)
Definition input_path_of (a : worker.args) : PurePath :=
  REMOTE_FASTA_DIR // worker.fasta_name a.
Definition outputs_path : PurePath := REMOTE_FASTA_DIR // "outputs".
Definition plots_path : PurePath := REMOTE_FASTA_DIR // "plots".
Definition mean_output_path (a : worker.args) : option PurePath :=
  output_path_of outputs_path (worker.mean_output_name a).
Definition per_res_output_path (a : worker.args) : option PurePath :=
  output_path_of outputs_path (worker.per_res_output_name a).
Definition per_segment_output_path (a : worker.args) : option PurePath :=
  output_path_of outputs_path (worker.per_segment_output_name a).

(** The command line the worker runs. *)
Definition worker_cmd (a : worker.args) : list string :=
  build_cmd a (input_path_of a) plots_path
    (mean_output_path a) (per_res_output_path a) (per_segment_output_path a).

(** The worker before the subprocess: caches, scratch directory, input
    file. *)
Definition stage (a : worker.args) : M World unit :=
  _env_prepare ;;;
  dirs <- _prepare_workdir (worker.fasta_name a) ;;
  write_bytes (dirs.1.1) (worker.fasta_bytes a).

(** The worker after a subprocess that exited with code 0. *)
Definition collect (a : worker.args) (completed : CompletedProcess) : M World Results :=
  file_payload <- _collect_outputs
    [ ("mean", mean_output_path a);
      ("per_res", per_res_output_path a);
      ("per_segment", per_segment_output_path a) ] ;;
  plots_payload <- (if worker.include_plots a then _gather_plot_files plots_path
                    else ret []) ;;
  ret {| res_stdout := cp_stdout completed;
         res_stderr := cp_stderr completed;
         files := file_payload;
         plots := plots_payload |}.

(** An outcome that is not a [RuntimeError]. *)
Definition not_runtime_error {A} (r : exn + A) : Prop :=
  match r with inl (RuntimeError _) => False | _ => True end.

(** A computation that never raises [RuntimeError]. *)
Definition never_runtime_error {S A} (c : M S A) : Prop :=
  ∀ s, not_runtime_error (c s).1.

(** The output identifiers of the launcher with the local path requested
    for each. *)
Definition requested (a : launcher.args) : list (string * option string) :=
  [ ("mean", launcher.output_path a);
    ("per_res", launcher.per_res_output a);
    ("per_segment", launcher.per_segment_output a) ].

(** [flag value] occurs in a command line, the value right after the
    flag. *)
Definition has_option (flag value : string) (cmd : list string) : Prop :=
  ∃ pre post, cmd = pre ++ flag :: value :: post.

(** A name with no separator in it that [pathlib] keeps as a component. *)
Definition simple_name (n : string) : bool :=
  negb (Py.has_char sep n) && keep_part n.

(** The launcher's arguments with another [plot_dir]. *)
Definition set_plot_dir (v : option string) (a : launcher.args) : launcher.args :=
  {| launcher.fasta_path := launcher.fasta_path a;
     launcher.output_path := launcher.output_path a;
     launcher.more_thresholds := launcher.more_thresholds a;
     launcher.per_res_output := launcher.per_res_output a;
     launcher.per_segment_output := launcher.per_segment_output a;
     launcher.plot_dir := v;
     launcher.portion_size := launcher.portion_size a;
     launcher.segment_size := launcher.segment_size a;
     launcher.window_size_predictions := launcher.window_size_predictions a;
     launcher.curve_smoothening := launcher.curve_smoothening a |}.

(** Character tests used to tell the flags of the command line from the
    values next to them. *)
Fixpoint all_chars (P : ascii → bool) (s : string) : bool :=
  match s with
  | EmptyString => true
  | String c s' => P c && all_chars P s'
  end.

Definition is_int_char (c : ascii) : bool :=
  let n := nat_of_ascii c in
  ((48 <=? n)%nat && (n <=? 57)%nat) || (n =? 45)%nat.

Definition head_slash (s : string) : bool :=
  match s with
  | String c _ => bool_decide (c = sep)
  | EmptyString => false
  end.

(** A path with a root: an absolute path. *)
Definition rooted (p : PurePath) : Prop := root p = "/" ∨ root p = "//".

(** The arguments every command line of the worker starts with. *)
Definition base_cmd (a : worker.args) (input_path : PurePath) : list string :=
  [ "python"; str (REMOTE_REPO_PATH // "temstapro");
    "-f"; str input_path;
    "-d"; str PROTTRANS_DIR;
    "-t"; str REMOTE_REPO_PATH;
    "-e"; str EMBEDDINGS_CACHE_ROOT;
    "--portion-size"; Py.str_int (worker.portion_size a);
    "--segment-size"; Py.str_int (worker.segment_size a);
    "--window-size-predictions"; Py.str_int (worker.window_size_predictions a) ].

Definition switch (b : bool) (flag : string) : list string :=
  if b then [flag] else [].

Definition valued (o : option PurePath) (flag : string) : list string :=
  match o with Some p => [flag; str p] | None => [] end.

(** [m'] keeps every directory of [m]. *)
Definition dirs_le (m m' : gmap (list string) node) : Prop :=
  ∀ l, m !! l = Some Dir → m' !! l = Some Dir.

(** What the loop of [_gather_plot_files] appends for one scanned path. *)
Definition plot_entry (w : World) (plot_dir file_path : PurePath) : option (string * bytes) :=
  if is_file w file_path then
    match relative_to file_path plot_dir, stat w file_path with
    | Some rel, inr (File data) => Some (str rel, data)
    | _, _ => None
    end
  else None.

(** What [_collect_outputs] stores for one output path. *)
Definition payload_at (w : World) (output_path : option PurePath) : option bytes :=
  match output_path with
  | Some p => match stat w p with inr (File data) => Some data | _ => None end
  | None => None
  end.

(** The dictionary the worker passes to [_collect_outputs]. *)
Definition outputs (a : worker.args) : list (string * option PurePath) :=
  [ ("mean", mean_output_path a);
    ("per_res", per_res_output_path a);
    ("per_segment", per_segment_output_path a) ].

(** The relative location and content of a regular file below [l]. *)
Definition file_at (m : gmap (list string) node) (l rel : list string)
  : option (list string * bytes) :=
  match m !! (l ++ rel) with
  | Some (File data) => Some (rel, data)
  | _ => None
  end.

(** A plot entry as the worker returns it: the relative path joined with
    slashes, and the content. *)
Definition plot_of (e : list string * bytes) : string * bytes :=
  (Py.join "/" e.1, e.2).

(** Strictly increasing relative locations. *)
Definition entry_lt (e1 e2 : list string * bytes) : Prop :=
  parts_le e1.1 e2.1 ∧ e1.1 ≠ e2.1.

(** A check of [fs_wf] that computes. *)
Definition entry_ok (m : gmap (list string) node) (k : list string) : bool :=
  match k with
  | [] => true
  | _ => match m !! removelast k with
         | Some Dir => valid_name (List.last k "")
         | _ => false
         end
  end.

Definition fs_wfb (m : gmap (list string) node) : bool :=
  match m !! [] with
  | Some Dir => forallb (entry_ok m) (map_to_list m).*1
  | _ => false
  end.

(** The locations on the way from [l] down [rel]: [l] itself, then one
    more component at a time. *)
Fixpoint path_locs (l rel : list string) : list (list string) :=
  l :: match rel with
       | [] => []
       | c :: rel' => path_locs (l ++ [c]) rel'
       end.

(** [m] with a directory at each of [locs]. *)
Definition with_dirs (m : gmap (list string) node) (locs : list (list string))
  : gmap (list string) node :=
  foldr (λ k acc, <[k := Dir]> acc) m locs.

(** No regular file stands at [l] or on the way down [rel]. *)
Definition clear_way (m : gmap (list string) node) (l rel : list string) : Prop :=
  ∀ k data, k ∈ path_locs l rel → m !! k ≠ Some (File data).

(** A file can be written at [rel] below the directory [l]: the names
    are plain ones, no regular file is in the way of its parent
    directories, and no directory stands at the place of the file. *)
Definition writable (m : gmap (list string) node) (l rel : list string) : Prop :=
  rel ≠ [] ∧ Forall (λ n, n ≠ "..") rel ∧
  clear_way m l (removelast rel) ∧ m !! (l ++ rel) ≠ Some Dir.

(** [m] after the parents of [l ++ rel] were made and the file written. *)
Definition with_file (m : gmap (list string) node) (l rel : list string) (data : bytes)
  : gmap (list string) node :=
  <[l ++ rel := File data]> (with_dirs m (path_locs l (removelast rel))).

(** The path with the root of [p] and no component: where the resolution
    of [p] starts. *)
Definition anchor (p : PurePath) : PurePath := {| root := root p; parts := [] |}.
(** Checks of [clear_way] and [writable] that compute. *)
Definition clear_wayb (m : gmap (list string) node) (l rel : list string) : bool :=
  forallb (λ k, match m !! k with Some (File _) => false | _ => true end)
    (path_locs l rel).

Definition writableb (m : gmap (list string) node) (l rel : list string) : bool :=
  match rel with [] => false | _ => true end
  && forallb (λ n, negb (String.eqb n "..")) rel
  && clear_wayb m l (removelast rel)
  && match m !! (l ++ rel) with Some Dir => false | _ => true end.

(** A computation that changes nothing of the world but the file system,
    and keeps every directory, whether it returns or raises. *)
Definition fs_step {A} (c : M World A) : Prop :=
  ∀ w r w', c w = (r, w') → w' = set_fs (fs w') w ∧ dirs_le (fs w) (fs w').

(** [os.environ.setdefault] on the dictionary. *)
Definition setdefault (k v : string) (e : gmap string string) : gmap string string :=
  match e !! k with Some _ => e | None => <[k := v]> e end.

(** The variables [_env_prepare] gives a default to, in its order. *)
Definition cache_vars : list (string * string) :=
  [ ("HF_HOME", str HF_CACHE_ROOT);
    ("TRANSFORMERS_CACHE", str (HF_CACHE_ROOT // "transformers"));
    ("XDG_CACHE_HOME", str HF_CACHE_ROOT);
    ("TORCH_HOME", str (HF_CACHE_ROOT // "torch")) ].

Definition cache_environ (e : gmap string string) : gmap string string :=
  foldl (λ acc kv, setdefault kv.1 kv.2 acc) e cache_vars.

(** The file system with the three cache directories made. *)
Definition cache_dirs (m : gmap (list string) node) : gmap (list string) node :=
  with_dirs m (path_locs [] (parts PROTTRANS_DIR)
               ++ path_locs [] (parts EMBEDDINGS_CACHE_ROOT)
               ++ path_locs [] (parts HF_CACHE_ROOT)).

(** [m] without [l] and everything below it. *)
Definition emptied (m : gmap (list string) node) (l : list string)
  : gmap (list string) node :=
  filter (λ kv, ¬ l `prefix_of` kv.1) m.

(** The file system with a fresh scratch directory. *)
Definition scratch (m : gmap (list string) node) : gmap (list string) node :=
  with_dirs (emptied m (parts REMOTE_FASTA_DIR))
    (path_locs [] (parts plots_path)
     ++ path_locs [] (parts outputs_path)
     ++ path_locs [] (parts REMOTE_FASTA_DIR)).

(** The world the subprocess starts in. *)
Definition staged (a : worker.args) (w : World) : World :=
  set_environ (cache_environ (environ w))
    (set_fs (<[parts REMOTE_FASTA_DIR ++ [worker.fasta_name a] :=
                File (worker.fasta_bytes a)]> (scratch (cache_dirs (fs w)))) w).

(** The worker can stage on [m]: a well-formed file system in which no
    regular file stands where the caches and the scratch directory go. *)
Definition stageable (m : gmap (list string) node) : Prop :=
  fs_wf m ∧
  clear_way m [] (parts PROTTRANS_DIR) ∧
  clear_way m [] (parts EMBEDDINGS_CACHE_ROOT) ∧
  clear_way m [] (parts REMOTE_FASTA_DIR).

Definition stageableb (m : gmap (list string) node) : bool :=
  fs_wfb m && clear_wayb m [] (parts PROTTRANS_DIR)
  && clear_wayb m [] (parts EMBEDDINGS_CACHE_ROOT)
  && clear_wayb m [] (parts REMOTE_FASTA_DIR).





(** Worker arguments with the output name [..], as [main] sends them when
    [per_res_output] is ["a/.."] and no other output is requested. *)
Definition parent_name_args : worker.args :=
  remote_args
    {| launcher.fasta_path := "protein.fasta";
       launcher.output_path := None;
       launcher.more_thresholds := false;
       launcher.per_res_output := Some "a/..";
       launcher.per_segment_output := None;
       launcher.plot_dir := None;
       launcher.portion_size := 1000;
       launcher.segment_size := 41;
       launcher.window_size_predictions := 81;
       launcher.curve_smoothening := false |}
    (Path "protein.fasta") (Demo.b ">p1 MKV").

(** * Properties *)

(** ** The monad *)

Lemma bind_ok {S A B} (c : M S A) (k : A → M S B) s a s' :
  c s = (inr a, s') → bind c k s = k a s'.
Proof. unfold bind; intros ->; reflexivity. Qed.

Lemma bind_raise {S A B} (c : M S A) (k : A → M S B) s e s' :
  c s = (inl e, s') → bind c k s = (inl e, s').
Proof. unfold bind; intros ->; reflexivity. Qed.

Lemma bind_inv_ok {S A B} (c : M S A) (k : A → M S B) s b s2 :
  bind c k s = (inr b, s2) → ∃ a s1, c s = (inr a, s1) ∧ k a s1 = (inr b, s2).
Proof.
  unfold bind; destruct (c s) as [[e|a] s1]; intros H; [discriminate|eauto].
Qed.

(** ** C2: the GPU resolver *)

Lemma gpu_from_env_upper w :
  _gpu_from_env w = gpu_of_name (Py.upper (environ_get "GPU" "" w)).
Proof. reflexivity. Qed.

(** C2, as stated, fails: the resolver upper-cases the value first, so the
    lower-case spelling [a10g], which is not one of the four listed
    values, resolves to the A10G class and not to "no GPU". *)
Lemma gpu_lowercase_counterexample :
  ¬ (∀ w v, environ w !! "GPU" = Some v →
       v ∉ ["A10G"; "A100"; "H100"; "L4"] → _gpu_from_env w = None).
Proof.
  intros H. specialize (H (Demo.with_gpu (Some "a10g")) "a10g" eq_refl).
  assert (Hn : "a10g" ∉ ["A10G"; "A100"; "H100"; "L4"]).
  { rewrite !elem_of_cons, elem_of_nil. intros [?|[?|[?|[?|[]]]]]; discriminate. }
  specialize (H Hn). vm_compute in H. discriminate.
Qed.

(** C2, amended: the resolver decides on the upper-cased value of [GPU]
    (the empty string when unset).  When that is none of A10G, A100, H100,
    L4 the result is [None] and nothing is raised; when it is one of them
    the result is the GPU class of that name.  In particular the four
    names as listed resolve to their classes, and unset and empty resolve
    to [None]. *)
Theorem gpu_from_env_resolves :
  (∀ w, Py.upper (environ_get "GPU" "" w) ∉ ["A10G"; "A100"; "H100"; "L4"] →
        _gpu_from_env w = None) ∧
  (∀ w, (Py.upper (environ_get "GPU" "" w) = "A10G" → _gpu_from_env w = Some modal.A10G) ∧
        (Py.upper (environ_get "GPU" "" w) = "A100" → _gpu_from_env w = Some modal.A100) ∧
        (Py.upper (environ_get "GPU" "" w) = "H100" → _gpu_from_env w = Some modal.H100) ∧
        (Py.upper (environ_get "GPU" "" w) = "L4" → _gpu_from_env w = Some modal.L4)) ∧
  (∀ w, (environ w !! "GPU" = Some "A10G" → _gpu_from_env w = Some modal.A10G) ∧
        (environ w !! "GPU" = Some "A100" → _gpu_from_env w = Some modal.A100) ∧
        (environ w !! "GPU" = Some "H100" → _gpu_from_env w = Some modal.H100) ∧
        (environ w !! "GPU" = Some "L4" → _gpu_from_env w = Some modal.L4) ∧
        (environ w !! "GPU" = None → _gpu_from_env w = None) ∧
        (environ w !! "GPU" = Some "" → _gpu_from_env w = None)).
Proof.
  split; [|split].
  - intros w Hn. rewrite gpu_from_env_upper. unfold gpu_of_name.
    rewrite !elem_of_cons, elem_of_nil in Hn.
    repeat case_decide; try reflexivity; exfalso; apply Hn; auto.
  - intros w. rewrite gpu_from_env_upper.
    repeat split; intros ->; reflexivity.
  - intros w. rewrite gpu_from_env_upper. unfold environ_get.
    repeat split; intros ->; reflexivity.
Qed.

Lemma gpu_from_env_resolves_witness :
  _gpu_from_env (Demo.with_gpu (Some "h100")) = Some modal.H100 ∧
  _gpu_from_env (Demo.with_gpu (Some "T4")) = None ∧
  _gpu_from_env (Demo.with_gpu None) = None.
Proof.
  destruct gpu_from_env_resolves as (Hnone & Hsome & Hlit).
  split; [|split].
  - apply (Hsome (Demo.with_gpu (Some "h100"))). reflexivity.
  - apply (Hnone (Demo.with_gpu (Some "T4"))).
    rewrite !elem_of_cons, elem_of_nil.
    intros [H|[H|[H|[H|[]]]]]; vm_compute in H; discriminate.
  - destruct (Hlit (Demo.with_gpu None)) as (_ & _ & _ & _ & H & _).
    apply H. reflexivity.
Defined.

(** ** The worker *)

Ltac step_bind :=
  match goal with
  | |- context [bind ?c ?k ?s] =>
      let r := fresh "r" in let s' := fresh "w" in let E := fresh "E" in
      destruct (c s) as [[r|r] s'] eqn:E;
      [ rewrite (bind_raise c k s r s' E) | rewrite (bind_ok c k s r s' E) ]
  end.

Lemma prepare_workdir_paths fasta_name w dirs w' :
  _prepare_workdir fasta_name w = (inr dirs, w') →
  dirs = (REMOTE_FASTA_DIR // fasta_name, outputs_path, plots_path).
Proof.
  unfold _prepare_workdir. intros H.
  repeat (apply bind_inv_ok in H as (? & ? & _ & H)).
  unfold ret in H. injection H as <- _. reflexivity.
Qed.

(** The worker is its staging, one run of [worker_cmd], the test of the
    exit code, and the collection. *)
Lemma run_temstapro_unfold tool a w :
  run_temstapro tool a w =
  match stage a w with
  | (inl e, w1) => (inl e, w1)
  | (inr _, w1) =>
      let '(completed, m) := tool (worker_cmd a) w1 in
      if decide (returncode completed ≠ 0%Z)
      then (inl (RuntimeError (failure_message completed)), set_fs m w1)
      else collect a completed (set_fs m w1)
  end.
Proof.
  unfold run_temstapro, stage, collect, subprocess_run, bind.
  destruct (_env_prepare w) as [[e|[]] w0]; [reflexivity|].
  destruct (_prepare_workdir (worker.fasta_name a) w0) as [[e|dirs] w1] eqn:E;
    [reflexivity|].
  pose proof (prepare_workdir_paths _ _ _ _ E) as ->. simpl.
  fold (input_path_of a).
  destruct (write_bytes (input_path_of a) (worker.fasta_bytes a) w1) as [[e|[]] w2];
    [reflexivity|].
  fold (mean_output_path a) (per_res_output_path a) (per_segment_output_path a).
  fold (worker_cmd a).
  destruct (tool (worker_cmd a) w2) as [completed m].
  destruct (decide (returncode completed ≠ 0%Z)); reflexivity.
Qed.

Lemma string_app_cons c (s t : string) : String c s +:+ t = String c (s +:+ t).
Proof. reflexivity. Qed.

Lemma string_app_nil_l (s : string) : "" +:+ s = s.
Proof. reflexivity. Qed.

Lemma string_app_nil_r (s : string) : s +:+ "" = s.
Proof. induction s as [|c s IH]; [reflexivity|]. by rewrite string_app_cons, IH. Qed.

Lemma string_app_assoc (s1 s2 s3 : string) : (s1 +:+ s2) +:+ s3 = s1 +:+ s2 +:+ s3.
Proof.
  induction s1 as [|c s1 IH]; [reflexivity|]. by rewrite !string_app_cons, IH.
Qed.

Lemma contains_app_l sub s pre : Py.contains sub s → Py.contains sub (pre +:+ s).
Proof.
  intros (p & q & ->). exists (pre +:+ p), q. by rewrite string_app_assoc.
Qed.

Lemma contains_head sub post : Py.contains sub (sub +:+ post).
Proof. exists "", post. reflexivity. Qed.

Lemma contains_refl sub : Py.contains sub sub.
Proof.
  exists "", "". by rewrite string_app_nil_l, string_app_nil_r.
Qed.

(** The message of the worker's [RuntimeError] embeds the exit code and
    both captured streams, each in full. *)
Lemma failure_message_contains completed :
  Py.contains (Py.str_int (returncode completed)) (failure_message completed) ∧
  Py.contains (cp_stdout completed) (failure_message completed) ∧
  Py.contains (cp_stderr completed) (failure_message completed).
Proof.
  unfold failure_message. repeat split.
  - apply contains_app_l, contains_head.
  - do 3 apply contains_app_l. apply contains_head.
  - do 5 apply contains_app_l. apply contains_refl.
Qed.

Lemma never_runtime_ret {S A} (a : A) : never_runtime_error (ret (S:=S) a).
Proof. intros s. exact I. Qed.

Lemma never_runtime_gets {S A} (f : S → A) : never_runtime_error (gets f).
Proof. intros s. exact I. Qed.

Lemma never_runtime_bind {S A B} (c : M S A) (k : A → M S B) :
  never_runtime_error c → (∀ a, never_runtime_error (k a)) →
  never_runtime_error (bind c k).
Proof.
  intros Hc Hk s. unfold bind. specialize (Hc s).
  destruct (c s) as [[e|a] s']; [exact Hc|apply Hk].
Qed.

Lemma never_runtime_for_fold {S A B} (l : list A) (body : B → A → M S B) acc :
  (∀ b x, never_runtime_error (body b x)) → never_runtime_error (for_fold l acc body).
Proof.
  intros Hb. revert acc. induction l as [|x l IH]; intros acc; simpl.
  - apply never_runtime_ret.
  - apply never_runtime_bind; [apply Hb|intros; apply IH].
Qed.

Lemma never_runtime_read_bytes p : never_runtime_error (read_bytes p).
Proof. intros w. unfold read_bytes. destruct (stat w p) as [?|[]]; exact I. Qed.

Lemma never_runtime_collect_outputs paths : never_runtime_error (_collect_outputs paths).
Proof.
  apply never_runtime_for_fold. intros results [key [p|]]; unfold collect_output.
  - apply never_runtime_bind; [apply never_runtime_gets|].
    intros [].
    + apply never_runtime_bind; [apply never_runtime_read_bytes|].
      intros; apply never_runtime_ret.
    + apply never_runtime_ret.
  - apply never_runtime_ret.
Qed.

Lemma never_runtime_gather_plot_files plot_dir :
  never_runtime_error (_gather_plot_files plot_dir).
Proof.
  apply never_runtime_bind; [apply never_runtime_gets|]. intros [].
  - simpl. apply never_runtime_bind; [apply never_runtime_gets|]. intros scan.
    apply never_runtime_for_fold. intros entries file_path. unfold gather_file.
    apply never_runtime_bind; [apply never_runtime_gets|]. intros [].
    + destruct (relative_to file_path plot_dir).
      * apply never_runtime_bind; [apply never_runtime_read_bytes|].
        intros; apply never_runtime_ret.
      * intros s. exact I.
    + apply never_runtime_ret.
  - simpl. apply never_runtime_ret.
Qed.

Lemma never_runtime_collect a completed : never_runtime_error (collect a completed).
Proof.
  apply never_runtime_bind; [apply never_runtime_collect_outputs|]. intros files.
  apply never_runtime_bind.
  - destruct (worker.include_plots a);
      [apply never_runtime_gather_plot_files|apply never_runtime_ret].
  - intros; apply never_runtime_ret.
Qed.

(** C1.  Whenever the worker gets as far as running the subprocess (its
    staging [stage] succeeded, leaving the world [w1]) and the subprocess
    returns [completed]: if the exit code is not zero, the worker raises a
    [RuntimeError] whose message contains the exit code, the whole captured
    stdout and the whole captured stderr; if the exit code is zero, what
    the worker returns or raises is not a [RuntimeError]. *)
Theorem run_temstapro_exit_code tool a w w1 completed m :
  stage a w = (inr tt, w1) →
  tool (worker_cmd a) w1 = (completed, m) →
  (returncode completed ≠ 0%Z →
     ∃ msg, run_temstapro tool a w = (inl (RuntimeError msg), set_fs m w1) ∧
            Py.contains (Py.str_int (returncode completed)) msg ∧
            Py.contains (cp_stdout completed) msg ∧
            Py.contains (cp_stderr completed) msg) ∧
  (returncode completed = 0%Z →
     not_runtime_error (run_temstapro tool a w).1).
Proof.
  intros Hstage Htool. rewrite run_temstapro_unfold, Hstage, Htool.
  split; intros Hrc.
  - exists (failure_message completed). rewrite decide_True by done.
    split; [reflexivity|apply failure_message_contains].
  - rewrite decide_False by (intros ?; done).
    apply never_runtime_collect.
Qed.

Lemma run_temstapro_exit_code_witness :
  (∃ msg, (run_temstapro Demo.bad_tool (remote_args Demo.scenario (Path "protein.fasta") [])
             Demo.empty_world).1 = inl (RuntimeError msg) ∧
          Py.contains "2" msg ∧ Py.contains "out" msg ∧ Py.contains "boom" msg) ∧
  not_runtime_error
    (run_temstapro Demo.good_tool (remote_args Demo.scenario (Path "protein.fasta") [])
       Demo.empty_world).1.
Proof.
  set (a := remote_args Demo.scenario (Path "protein.fasta") []).
  split.
  - destruct (run_temstapro_exit_code Demo.bad_tool a Demo.empty_world
                (stage a Demo.empty_world).2
                (Demo.bad_tool (worker_cmd a) (stage a Demo.empty_world).2).1
                (Demo.bad_tool (worker_cmd a) (stage a Demo.empty_world).2).2)
      as [H _]; [vm_compute; reflexivity|reflexivity|].
    destruct H as (msg & Hrun & Hc); [vm_compute; discriminate|].
    exists msg. rewrite Hrun. split; [reflexivity|exact Hc].
  - destruct (run_temstapro_exit_code Demo.good_tool a Demo.empty_world
                (stage a Demo.empty_world).2
                (Demo.good_tool (worker_cmd a) (stage a Demo.empty_world).2).1
                (Demo.good_tool (worker_cmd a) (stage a Demo.empty_world).2).2)
      as [_ H]; [vm_compute; reflexivity|reflexivity|].
    apply H. reflexivity.
Defined.

(** ** The launcher: validation and forwarding *)

Lemma is_file_stat w p : is_file w p = true ↔ ∃ data, stat w p = inr (File data).
Proof.
  unfold is_file. destruct (stat w p) as [e|[d|]]; split;
    try discriminate; try (intros [? ?]; discriminate); eauto.
Qed.

(** [main] on an input file that exists with content [data]: one remote
    call, then the write-back of what it returned. *)
Lemma main_unfold tool a s data :
  stat (local s) (Path (launcher.fasta_path a)) = inr (File data) →
  main tool a s =
  let ra := remote_args a (Path (launcher.fasta_path a)) data in
  match run_temstapro tool ra (remote s) with
  | (inl e, w) => (inl e, {| local := local s; remote := w; calls := calls s ++ [ra] |})
  | (inr results, w) =>
      let '(r, l) := write_back a results (local s) in
      (r, {| local := l; remote := w; calls := calls s ++ [ra] |})
  end.
Proof.
  intros Hstat. unfold main, bind, on_local, gets, read_bytes, remote_call, is_file.
  simpl. rewrite Hstat. simpl. rewrite Hstat. simpl.
  destruct (run_temstapro _ _ _) as [[e|results] w]; [reflexivity|].
  simpl. destruct (write_back a results (local s)) as [r l]. reflexivity.
Qed.

(** C8.  When [fasta_path] does not name an existing regular file, [main]
    raises [FileNotFoundError] with a message that names the path, and
    leaves everything as it was: no remote call is recorded and neither
    world changes.  When it does, exactly one remote call is made.  So a
    remote call is made only when the validation passes. *)
Theorem main_validates_input tool a s :
  (is_file (local s) (Path (launcher.fasta_path a)) = false →
     main tool a s =
       (inl (FileNotFoundError ("FASTA file not found: " +:+ launcher.fasta_path a)), s) ∧
     Py.contains (launcher.fasta_path a)
       ("FASTA file not found: " +:+ launcher.fasta_path a)) ∧
  (is_file (local s) (Path (launcher.fasta_path a)) = true →
     ∃ ra, calls (main tool a s).2 = calls s ++ [ra]) ∧
  (calls (main tool a s).2 ≠ calls s →
     is_file (local s) (Path (launcher.fasta_path a)) = true).
Proof.
  assert (Hfalse : is_file (local s) (Path (launcher.fasta_path a)) = false →
                   main tool a s =
                   (inl (FileNotFoundError ("FASTA file not found: " +:+ launcher.fasta_path a)), s)).
  { intros Hf. unfold main, bind, on_local, gets. simpl. rewrite Hf. simpl.
    unfold raise. destruct s; reflexivity. }
  split; [|split].
  - intros Hf. split; [by apply Hfalse|].
    apply contains_app_l, contains_refl.
  - intros Ht. apply is_file_stat in Ht as [data Hstat].
    rewrite (main_unfold _ _ _ _ Hstat). simpl.
    destruct (run_temstapro _ _ _) as [[e|results] w]; [by eexists|].
    destruct (write_back a results (local s)) as [r l]. by eexists.
  - intros Hc. destruct (is_file _ _) eqn:Hf; [reflexivity|].
    rewrite (Hfalse eq_refl) in Hc. by destruct Hc.
Qed.

Lemma main_validates_input_witness :
  (main Demo.good_tool (launcher.defaults "missing.fasta") Demo.sys0).1
    = inl (FileNotFoundError "FASTA file not found: missing.fasta") ∧
  calls (main Demo.good_tool (launcher.defaults "missing.fasta") Demo.sys0).2 = [] ∧
  ∃ ra, calls (main Demo.good_tool Demo.scenario Demo.sys0).2 = [ra].
Proof.
  destruct (main_validates_input Demo.good_tool (launcher.defaults "missing.fasta") Demo.sys0)
    as (Hmiss & _ & _).
  destruct (main_validates_input Demo.good_tool Demo.scenario Demo.sys0) as (_ & Hok & _).
  destruct Hmiss as [-> _]; [vm_compute; reflexivity|].
  split; [reflexivity|]. split; [reflexivity|].
  apply Hok. vm_compute. reflexivity.
Defined.

(** C3.  When [fasta_path] names a regular file of the local file system
    whose content is [data], [main] makes one remote call, and its
    arguments carry [data] itself as [fasta_bytes], the last component of
    the path as [fasta_name], and the scalar options of the launcher
    unchanged. *)
Theorem main_forwards_input tool a s l data :
  locate (local s) (Path (launcher.fasta_path a)) = inr l →
  fs (local s) !! l = Some (File data) →
  ∃ ra, calls (main tool a s).2 = calls s ++ [ra] ∧
        worker.fasta_bytes ra = data ∧
        worker.fasta_name ra = name (Path (launcher.fasta_path a)) ∧
        worker.more_thresholds ra = launcher.more_thresholds a ∧
        worker.portion_size ra = launcher.portion_size a ∧
        worker.segment_size ra = launcher.segment_size a ∧
        worker.window_size_predictions ra = launcher.window_size_predictions a ∧
        worker.curve_smoothening ra = launcher.curve_smoothening a.
Proof.
  intros Hloc Hfile.
  assert (Hstat : stat (local s) (Path (launcher.fasta_path a)) = inr (File data)).
  { unfold stat. by rewrite Hloc, Hfile. }
  exists (remote_args a (Path (launcher.fasta_path a)) data).
  split; [|by repeat split].
  rewrite (main_unfold _ _ _ _ Hstat). simpl.
  destruct (run_temstapro _ _ _) as [[e|results] w]; [reflexivity|].
  by destruct (write_back a results (local s)) as [r l'].
Qed.

Lemma main_forwards_input_witness :
  ∃ ra, calls (main Demo.good_tool Demo.scenario Demo.sys0).2 = [ra] ∧
        worker.fasta_bytes ra = Demo.b ">p1 MKV" ∧
        worker.fasta_name ra = "protein.fasta" ∧
        worker.portion_size ra = 500%Z.
Proof.
  destruct (main_forwards_input Demo.good_tool Demo.scenario Demo.sys0
              ["home"; "protein.fasta"] (Demo.b ">p1 MKV"))
    as (ra & Hc & Hb & Hn & _ & Hp & _); [reflexivity|reflexivity|].
  exists ra. repeat split; assumption.
Defined.

(** ** The launcher: what is not requested is not written *)

Lemma write_optional_file_skip output_path payload w :
  Py.truthy output_path = false →
  _write_optional_file output_path payload w = (inr tt, w).
Proof.
  intros Hf. unfold _write_optional_file.
  destruct output_path as [path|], payload as [data|]; try reflexivity.
  by rewrite Hf.
Qed.

Lemma write_plots_skip plot_dir plots w :
  Py.truthy plot_dir = false → _write_plots plot_dir plots w = (inr tt, w).
Proof.
  intros Hf. unfold _write_plots. destruct plot_dir as [dir|]; [|reflexivity].
  by rewrite Hf.
Qed.

Lemma write_optional_file_payload output_path p1 p2 w :
  (Py.truthy output_path = true → p1 = p2) →
  _write_optional_file output_path p1 w = _write_optional_file output_path p2 w.
Proof.
  destruct (Py.truthy output_path) eqn:Ht; intros H.
  - by rewrite H.
  - by rewrite !write_optional_file_skip.
Qed.

Lemma write_plots_payload plot_dir l1 l2 w :
  (Py.truthy plot_dir = true → l1 = l2) →
  _write_plots plot_dir l1 w = _write_plots plot_dir l2 w.
Proof.
  destruct (Py.truthy plot_dir) eqn:Ht; intros H.
  - by rewrite H.
  - by rewrite !write_plots_skip.
Qed.

(** C6.  With no local path requested for an identifier ([None], and the
    empty string as well), [_write_optional_file] does nothing at all,
    whatever payload came back; with no plot directory requested,
    [_write_plots] does nothing, whatever plots came back.  For the
    launcher as a whole: two returned dictionaries that agree on the
    captured output and on the payloads of the identifiers that were
    requested leave the local machine in the same state, so what was
    returned for an identifier that was not requested has no effect. *)
Theorem launcher_discards_unrequested :
  (∀ payload w, _write_optional_file None payload w = (inr tt, w)) ∧
  (∀ payload w, _write_optional_file (Some "") payload w = (inr tt, w)) ∧
  (∀ plots w, _write_plots None plots w = (inr tt, w)) ∧
  (∀ a r1 r2 w,
     res_stdout r1 = res_stdout r2 → res_stderr r1 = res_stderr r2 →
     (∀ id path, (id, path) ∈ requested a → Py.truthy path = true →
                 files_get (files r1) id = files_get (files r2) id) →
     (Py.truthy (launcher.plot_dir a) = true → plots r1 = plots r2) →
     write_back a r1 w = write_back a r2 w).
Proof.
  split; [|split; [|split]].
  - intros. by apply write_optional_file_skip.
  - intros. by apply write_optional_file_skip.
  - intros. by apply write_plots_skip.
  - intros a r1 r2 w Hout Herr Hfiles Hplots. unfold write_back.
    rewrite Hout, Herr. unfold bind.
    rewrite (write_optional_file_payload (launcher.output_path a)
               (files_get (files r1) "mean") (files_get (files r2) "mean"))
      by (apply Hfiles; unfold requested; set_solver).
    destruct (_write_optional_file (launcher.output_path a) _ w) as [[e|[]] w1];
      [reflexivity|].
    rewrite (write_optional_file_payload (launcher.per_res_output a)
               (files_get (files r1) "per_res") (files_get (files r2) "per_res"))
      by (apply Hfiles; unfold requested; set_solver).
    destruct (_write_optional_file (launcher.per_res_output a) _ w1) as [[e|[]] w2];
      [reflexivity|].
    rewrite (write_optional_file_payload (launcher.per_segment_output a)
               (files_get (files r1) "per_segment") (files_get (files r2) "per_segment"))
      by (apply Hfiles; unfold requested; set_solver).
    destruct (_write_optional_file (launcher.per_segment_output a) _ w2) as [[e|[]] w3];
      [reflexivity|].
    rewrite (write_plots_payload (launcher.plot_dir a) (plots r1) (plots r2)) by done.
    reflexivity.
Qed.

Lemma launcher_discards_unrequested_witness :
  write_back (launcher.defaults "protein.fasta")
    {| res_stdout := "done"; res_stderr := "";
       files := {[ "mean" := Some (Demo.b "ID Score") ]};
       plots := [("a.png", Demo.b "AA")] |} Demo.local_world
  = write_back (launcher.defaults "protein.fasta")
    {| res_stdout := "done"; res_stderr := ""; files := ∅; plots := [] |} Demo.local_world.
Proof.
  destruct launcher_discards_unrequested as (_ & _ & _ & H).
  apply H; try reflexivity.
  - intros id path Hin. unfold requested in Hin. simpl in Hin.
    rewrite !elem_of_cons, elem_of_nil in Hin.
    destruct Hin as [Hin|[Hin|[Hin|[]]]]; injection Hin as -> ->; discriminate.
  - discriminate.
Defined.

(** ** pathlib: splitting, parsing, names *)

Lemma split_ne_nil c s : Py.split c s ≠ [].
Proof.
  destruct s as [|a s]; simpl; [done|].
  destruct (decide (a = c)); [done|]. by destruct (Py.split c s).
Qed.

Lemma split_no_sep c s x : x ∈ Py.split c s → Py.has_char c x = false.
Proof.
  revert x. induction s as [|a s IH]; simpl; intros x Hx.
  - apply list_elem_of_singleton in Hx as ->. reflexivity.
  - destruct (decide (a = c)) as [->|Hne].
    + apply elem_of_cons in Hx as [->|Hx]; [reflexivity|by apply IH].
    + destruct (Py.split c s) as [|h t] eqn:E.
      * apply list_elem_of_singleton in Hx as ->. simpl.
        by rewrite bool_decide_eq_false_2.
      * apply elem_of_cons in Hx as [->|Hx].
        -- simpl. rewrite bool_decide_eq_false_2 by done. apply IH. by left.
        -- apply IH. by right.
Qed.

Lemma split_id c s : Py.has_char c s = false → Py.split c s = [s].
Proof.
  induction s as [|a s IH]; simpl; [done|]. intros H.
  apply orb_false_iff in H as [Ha Hs]. apply bool_decide_eq_false in Ha.
  rewrite decide_False by done. by rewrite (IH Hs).
Qed.

Lemma split_app_sep c x y :
  Py.split c (x +:+ String c y) = Py.split c x ++ Py.split c y.
Proof.
  induction x as [|a x IH].
  - rewrite string_app_nil_l. simpl. by rewrite decide_True.
  - rewrite string_app_cons. simpl. destruct (decide (a = c)); rewrite IH; [done|].
    pose proof (split_ne_nil c x). by destruct (Py.split c x).
Qed.

Lemma simple_name_spec n :
  simple_name n = true ↔ Py.has_char sep n = false ∧ n ≠ "" ∧ n ≠ ".".
Proof.
  unfold simple_name, keep_part.
  rewrite !andb_true_iff, !negb_true_iff, !String.eqb_neq. tauto.
Qed.

Lemma last_elem_of {A} (l : list A) d : l ≠ [] → List.last l d ∈ l.
Proof.
  induction l as [|x [|y l] IH]; [done| |]; intros _.
  - simpl. by left.
  - right. by apply IH.
Qed.

Lemma last_snoc {A} (l : list A) x d : List.last (l ++ [x]) d = x.
Proof. apply List.last_last. Qed.

Lemma parts_Path_simple s x : x ∈ parts (Path s) → simple_name x = true.
Proof.
  unfold Path. destruct (splitroot s) as [r rel]. simpl.
  rewrite list_elem_of_In, List.filter_In, <- list_elem_of_In.
  intros [Hx Hk]. unfold simple_name. rewrite Hk, (split_no_sep _ _ _ Hx). reflexivity.
Qed.

(** The last component of a parsed path is empty (a path with no
    component) or a name without separator. *)
Lemma name_Path s : name (Path s) = "" ∨ simple_name (name (Path s)) = true.
Proof.
  unfold name. destruct (parts (Path s)) as [|x l] eqn:E; [by left|right].
  apply (parts_Path_simple s). rewrite E. by apply last_elem_of.
Qed.

Lemma name_Path_no_sep s : Py.has_char sep (name (Path s)) = false.
Proof.
  destruct (name_Path s) as [->|H]; [reflexivity|].
  by apply simple_name_spec in H as [? _].
Qed.

Lemma Path_simple n : simple_name n = true → Path n = {| root := ""; parts := [n] |}.
Proof.
  intros Hn. pose proof Hn as Hs. apply simple_name_spec in Hn as (Hsep & Hne & Hdot).
  unfold Path, splitroot. destruct n as [|c n]; [done|].
  simpl in Hsep. apply orb_false_iff in Hsep as [Hc Hsep'].
  apply bool_decide_eq_false in Hc. rewrite decide_False by done.
  rewrite split_id by (simpl; rewrite bool_decide_eq_false_2 by done; exact Hsep').
  simpl. unfold simple_name in Hs. apply andb_true_iff in Hs as [_ ->]. reflexivity.
Qed.

Lemma truediv_simple p n : simple_name n = true → p // n = child p [n].
Proof. intros Hn. unfold truediv. rewrite (Path_simple n Hn). reflexivity. Qed.

Lemma parent_child p n : parent (child p [n]) = p.
Proof.
  unfold parent, child. simpl. rewrite removelast_last. by destruct p.
Qed.

Lemma name_child p n : name (child p [n]) = n.
Proof. unfold name, child. simpl. apply last_snoc. Qed.

Lemma root_Path s : root (Path s) = "" ∨ root (Path s) = "/" ∨ root (Path s) = "//".
Proof.
  unfold Path, splitroot. destruct s as [|c s]; [by left|].
  destruct (decide (c = sep)); [|by left].
  destruct (decide _); simpl; auto.
Qed.

Lemma lstrip_cons_sep c s : Py.lstrip c (String c s) = Py.lstrip c s.
Proof. simpl. by rewrite decide_True. Qed.

Lemma lstrip_cons_other c a s : a ≠ c → Py.lstrip c (String a s) = String a s.
Proof. intros. simpl. by rewrite decide_False. Qed.

Lemma lstrip_no_sep c s : Py.has_char c s = false → Py.lstrip c s = s.
Proof.
  destruct s as [|a s]; [done|]. simpl. intros H.
  apply orb_false_iff in H as [Ha _]. apply bool_decide_eq_false in Ha.
  by rewrite decide_False.
Qed.

Lemma lstrip_app_simple d n :
  simple_name n = true →
  Py.lstrip sep (d +:+ String sep n) = n ∨
  ∃ x, Py.lstrip sep (d +:+ String sep n) = x +:+ String sep n.
Proof.
  intros Hn. apply simple_name_spec in Hn as (Hsep & Hne & _).
  induction d as [|c d IH].
  - left. rewrite string_app_nil_l, lstrip_cons_sep. by apply lstrip_no_sep.
  - rewrite string_app_cons. destruct (decide (c = sep)) as [->|Hc].
    + by rewrite lstrip_cons_sep.
    + right. exists (String c d). by rewrite lstrip_cons_other, string_app_cons.
Qed.

(** Directory components in front of a name do not change the name of the
    path. *)
Lemma name_Path_dir d n :
  simple_name n = true → name (Path (d +:+ String sep n)) = n.
Proof.
  intros Hn. pose proof Hn as Hs. apply simple_name_spec in Hs as (Hsep & Hne & Hdot).
  assert (Hk : keep_part n = true).
  { unfold simple_name in Hn. by apply andb_true_iff in Hn as [_ ?]. }
  assert (Hrel : ∀ x, name {| root := ""; parts := List.filter keep_part
                                (Py.split sep (x +:+ String sep n)) |} = n).
  { intros x. unfold name. simpl. rewrite split_app_sep, (split_id _ n Hsep).
    rewrite List.filter_app. simpl. rewrite Hk. apply last_snoc. }
  assert (Hn1 : name {| root := ""; parts := List.filter keep_part (Py.split sep n) |} = n).
  { unfold name. simpl. rewrite (split_id _ n Hsep). simpl. by rewrite Hk. }
  unfold Path, splitroot.
  destruct (d +:+ String sep n) as [|c s] eqn:E.
  { destruct d; discriminate. }
  destruct (decide (c = sep)) as [->|Hc].
  - rewrite <- E.
    destruct (lstrip_app_simple d n Hn) as [->|[x ->]];
      destruct (decide _); first [exact Hn1|apply Hrel].
  - rewrite <- E. apply Hrel.
Qed.

Lemma name_Path_simple n : simple_name n = true → name (Path n) = n.
Proof. intros Hn. by rewrite (Path_simple n Hn). Qed.

(** ** The launcher: only base names travel *)

Lemma truthy_Some s : Py.truthy (Some s) = true ↔ s ≠ "".
Proof. simpl. by rewrite negb_true_iff, String.eqb_neq. Qed.

Lemma name_of_truthy p : Py.truthy (Some p) = true → name_of (Some p) = Some (name (Path p)).
Proof. intros H. unfold name_of. by rewrite H. Qed.

Lemma output_path_of_simple base n :
  simple_name n = true → output_path_of base (Some n) = Some (child base [n]).
Proof.
  intros Hn. unfold output_path_of.
  assert (Ht : Py.truthy (Some n) = true).
  { apply truthy_Some. by apply simple_name_spec in Hn as (_ & ? & _). }
  by rewrite Ht, truediv_simple.
Qed.

(** A regular file at [outputs_path / n] sits directly in the outputs
    directory, also for [n = ".."], which names a directory. *)
Lemma output_file_location w n :
  is_file w (child outputs_path [n]) = true →
  locate w (child outputs_path [n]) = inr ["tmp"; "temstapro"; "outputs"; n].
Proof.
  unfold is_file, stat, locate, start. simpl.
  destruct (fs w !! []) as [[|]|]; try discriminate.
  destruct (fs w !! ["tmp"]) as [[|]|]; try discriminate.
  destruct (fs w !! ["tmp"; "temstapro"]) as [[|]|] eqn:E; try discriminate.
  destruct (fs w !! ["tmp"; "temstapro"; "outputs"]) as [[|]|]; try discriminate.
  destruct (decide (n = "..")); [|done].
  simpl. rewrite E. discriminate.
Qed.

(** ** The command line of the worker *)

Lemma all_chars_app P s t : all_chars P (s +:+ t) = all_chars P s && all_chars P t.
Proof.
  induction s as [|c s IH]; [reflexivity|].
  rewrite string_app_cons. simpl. by rewrite IH, andb_assoc.
Qed.

Lemma pretty_N_char_int x : is_int_char (pretty_N_char x) = true.
Proof. unfold pretty_N_char. by repeat case_match. Qed.

Lemma pretty_N_go_int_chars x s :
  all_chars is_int_char s = true → all_chars is_int_char (pretty_N_go x s) = true.
Proof.
  revert s. induction (N.lt_wf_0 x) as [x _ IH]; intros s Hs.
  destruct (decide (x = 0%N)) as [->|Hx]; [by rewrite pretty_N_go_0|].
  rewrite pretty_N_go_step by lia. apply IH.
  - apply N.div_lt; lia.
  - simpl. by rewrite pretty_N_char_int.
Qed.

Lemma pretty_N_int_chars (x : N) : all_chars is_int_char (pretty x) = true.
Proof.
  unfold pretty, pretty_N. case_decide; [reflexivity|].
  by apply pretty_N_go_int_chars.
Qed.

(** [str(n)] for an integer consists of digits and at most a sign. *)
Lemma str_int_chars z : all_chars is_int_char (Py.str_int z) = true.
Proof.
  unfold Py.str_int, pretty, pretty_Z. destruct z as [|p|p]; [reflexivity|..].
  - apply pretty_N_int_chars.
  - rewrite all_chars_app. simpl. apply pretty_N_int_chars.
Qed.

Lemma rooted_truediv p s : rooted p → rooted (p // s).
Proof.
  intros Hp. unfold truediv. destruct (decide (root (Path s) = "")) as [E|E]; [exact Hp|].
  unfold rooted. destruct (root_Path s) as [?|?]; [done|assumption].
Qed.

(** [str] of an absolute path starts with a slash. *)
Lemma str_rooted p : rooted p → head_slash (str p) = true.
Proof.
  unfold str. intros [->| ->]; rewrite string_app_cons; reflexivity.
Qed.

Lemma rooted_REMOTE_FASTA_DIR : rooted REMOTE_FASTA_DIR.
Proof. by left. Qed.

Lemma rooted_output_path_of base name p :
  rooted base → output_path_of base name = Some p → rooted p.
Proof.
  intros Hb. unfold output_path_of. destruct name as [n|]; [|done].
  destruct (Py.truthy (Some n)); [|done]. intros [= <-]. by apply rooted_truediv.
Qed.

Lemma output_path_of_is_Some base name :
  is_Some (output_path_of base name) ↔ Py.truthy name = true.
Proof.
  unfold output_path_of. destruct name as [n|].
  - destruct (Py.truthy (Some n)); split; intros H; done || by destruct H.
  - split; intros H; [by destruct H|done].
Qed.

Lemma build_cmd_app a input_path plots_path m r s :
  build_cmd a input_path plots_path m r s =
  base_cmd a input_path
  ++ switch (worker.more_thresholds a) "--more-thresholds"
  ++ switch (worker.curve_smoothening a) "--curve-smoothening"
  ++ valued m "--mean-output"
  ++ valued r "--per-res-output"
  ++ valued s "--per-segment-output"
  ++ valued (if worker.include_plots a then Some plots_path else None)
       "--per-residue-plot-dir".
Proof.
  unfold build_cmd, switch, valued, base_cmd.
  destruct (worker.more_thresholds a), (worker.curve_smoothening a), m, r, s,
    (worker.include_plots a); reflexivity.
Qed.

Lemma flag_not_value (flag v : string) :
  head_slash flag = false → all_chars is_int_char flag = false →
  head_slash v = true ∨ all_chars is_int_char v = true → flag ≠ v.
Proof. intros H1 H2 [H|H] ->; congruence. Qed.

Lemma elem_of_switch x b flag : x ∈ switch b flag ↔ b = true ∧ x = flag.
Proof.
  unfold switch. destruct b.
  - rewrite list_elem_of_singleton. split; [by intros ->|by intros [_ ->]].
  - rewrite elem_of_nil. split; [done|by intros [? _]].
Qed.

Lemma elem_of_valued x o flag :
  x ∈ valued o flag ↔ ∃ p, o = Some p ∧ (x = flag ∨ x = str p).
Proof.
  unfold valued. destruct o as [p|].
  - rewrite !elem_of_cons, elem_of_nil. split.
    + intros [->|[->|[]]]; exists p; auto.
    + intros (q & [= <-] & [->| ->]); auto.
  - rewrite elem_of_nil. split; [done|by intros (q & ? & _)].
Qed.

Lemma rooted_input_path a : rooted (input_path_of a).
Proof. apply rooted_truediv, rooted_REMOTE_FASTA_DIR. Qed.

Lemma rooted_outputs_path : rooted outputs_path.
Proof. by left. Qed.

(** A string that is neither a path nor a number occurs in the fixed part
    of the command line only as one of its literal words. *)
Lemma elem_of_base_cmd x a :
  head_slash x = false → all_chars is_int_char x = false →
  x ∈ base_cmd a (input_path_of a) →
  x ∈ ["python"; "-f"; "-d"; "-t"; "-e"; "--portion-size"; "--segment-size";
       "--window-size-predictions"].
Proof.
  intros Hs Hi. unfold base_cmd. rewrite !elem_of_cons, !elem_of_nil.
  pose proof (str_rooted _ (rooted_input_path a)) as Hin.
  pose proof (str_int_chars (worker.portion_size a)) as Hp.
  pose proof (str_int_chars (worker.segment_size a)) as Hg.
  pose proof (str_int_chars (worker.window_size_predictions a)) as Hw.
  intros Hx. destruct_or!; subst; try congruence; try (vm_compute in Hs; congruence);
    repeat (first [by left|right]).
Qed.

(** Which optional flags a command line of the worker holds. *)
Lemma optional_flag_in_cmd x a :
  head_slash x = false → all_chars is_int_char x = false →
  x ∉ ["python"; "-f"; "-d"; "-t"; "-e"; "--portion-size"; "--segment-size";
       "--window-size-predictions"] →
  x ∈ worker_cmd a ↔
    (worker.more_thresholds a = true ∧ x = "--more-thresholds") ∨
    (worker.curve_smoothening a = true ∧ x = "--curve-smoothening") ∨
    (Py.truthy (worker.mean_output_name a) = true ∧ x = "--mean-output") ∨
    (Py.truthy (worker.per_res_output_name a) = true ∧ x = "--per-res-output") ∨
    (Py.truthy (worker.per_segment_output_name a) = true ∧ x = "--per-segment-output") ∨
    (worker.include_plots a = true ∧ x = "--per-residue-plot-dir").
Proof.
  intros Hs Hi Hfixed. unfold worker_cmd. rewrite build_cmd_app.
  rewrite !elem_of_app, !elem_of_switch, !elem_of_valued.
  assert (Hval : ∀ p, rooted p → x ≠ str p).
  { intros p Hp ->. rewrite (str_rooted p Hp) in Hs. discriminate. }
  assert (Hopt : ∀ name flag,
            (∃ p, output_path_of outputs_path name = Some p ∧ (x = flag ∨ x = str p))
            ↔ Py.truthy name = true ∧ x = flag).
  { intros name flag. split.
    - intros (p & Hp & [->|Hx]).
      + split; [|done]. apply (output_path_of_is_Some outputs_path). by eexists.
      + destruct (Hval p); [|done].
        exact (rooted_output_path_of outputs_path name p rooted_outputs_path Hp).
    - intros [Ht ->]. apply (output_path_of_is_Some outputs_path) in Ht as [p Hp].
      exists p. auto. }
  unfold mean_output_path, per_res_output_path, per_segment_output_path.
  rewrite !Hopt.
  assert (Hplots : (∃ p, (if worker.include_plots a then Some plots_path else None) = Some p
                         ∧ (x = "--per-residue-plot-dir" ∨ x = str p))
                   ↔ worker.include_plots a = true ∧ x = "--per-residue-plot-dir").
  { destruct (worker.include_plots a); split.
    - intros (p & [= <-] & [->|Hx]); [done|]. destruct (Hval plots_path); [by left|done].
    - intros [_ ->]. exists plots_path. auto.
    - by intros (p & ? & _).
    - by intros [? _]. }
  rewrite Hplots. split; [|tauto].
  intros [Hb|H]; [|exact H].
  destruct Hfixed. by apply (elem_of_base_cmd x a).
Qed.

Lemma has_option_base a input_path rest pre flag value post :
  base_cmd a input_path = pre ++ flag :: value :: post →
  has_option flag value (base_cmd a input_path ++ rest).
Proof.
  intros ->. exists pre, (post ++ rest). by rewrite <- app_assoc.
Qed.

Lemma has_option_app_r flag value pre cmd :
  has_option flag value cmd → has_option flag value (pre ++ cmd).
Proof.
  intros (l1 & l2 & ->). exists (pre ++ l1), l2. by rewrite <- app_assoc.
Qed.

Lemma has_option_valued flag p rest :
  has_option flag (str p) (valued (Some p) flag ++ rest).
Proof. exists [], rest. reflexivity. Qed.

(** C9, as stated, fails for the output flags: an output name that is
    given but empty (what [main] sends for the output path ["/"]) gives no
    [--mean-output] on the command line. *)
Lemma empty_output_name_counterexample :
  ¬ (∀ a, "--mean-output" ∈ worker_cmd a ↔ is_Some (worker.mean_output_name a)).
Proof.
  intros H. destruct (H Demo.empty_name_args) as [_ Hin].
  assert (Hcmd : "--mean-output" ∈ worker_cmd Demo.empty_name_args).
  { apply Hin. vm_compute. by eexists. }
  let c := eval vm_compute in (worker_cmd Demo.empty_name_args) in
  change (worker_cmd Demo.empty_name_args) with c in Hcmd.
  rewrite !elem_of_cons, elem_of_nil in Hcmd.
  destruct_or!; discriminate || done.
Qed.

(** C9, amended.  The command line of the worker always holds [-f], [-d],
    [-t], [-e], [--portion-size], [--segment-size] and
    [--window-size-predictions], each followed by its value.  It holds
    [--more-thresholds] iff that option is set, [--curve-smoothening] iff
    that option is set, each of [--mean-output], [--per-res-output],
    [--per-segment-output] iff the corresponding output name is given and
    is not the empty string (then followed by the path of that name in
    the outputs directory), and [--per-residue-plot-dir] iff plots are
    requested (then followed by the plots directory).  This command line
    is the only one the worker runs. *)
Theorem worker_cmd_flags a :
  let cmd := worker_cmd a in
  (has_option "-f" (str (input_path_of a)) cmd ∧
   has_option "-d" (str PROTTRANS_DIR) cmd ∧
   has_option "-t" (str REMOTE_REPO_PATH) cmd ∧
   has_option "-e" (str EMBEDDINGS_CACHE_ROOT) cmd ∧
   has_option "--portion-size" (Py.str_int (worker.portion_size a)) cmd ∧
   has_option "--segment-size" (Py.str_int (worker.segment_size a)) cmd ∧
   has_option "--window-size-predictions"
     (Py.str_int (worker.window_size_predictions a)) cmd) ∧
  ("--more-thresholds" ∈ cmd ↔ worker.more_thresholds a = true) ∧
  ("--curve-smoothening" ∈ cmd ↔ worker.curve_smoothening a = true) ∧
  ("--mean-output" ∈ cmd ↔ Py.truthy (worker.mean_output_name a) = true) ∧
  ("--per-res-output" ∈ cmd ↔ Py.truthy (worker.per_res_output_name a) = true) ∧
  ("--per-segment-output" ∈ cmd ↔ Py.truthy (worker.per_segment_output_name a) = true) ∧
  ("--per-residue-plot-dir" ∈ cmd ↔ worker.include_plots a = true) ∧
  (∀ p, mean_output_path a = Some p → has_option "--mean-output" (str p) cmd) ∧
  (∀ p, per_res_output_path a = Some p → has_option "--per-res-output" (str p) cmd) ∧
  (∀ p, per_segment_output_path a = Some p →
        has_option "--per-segment-output" (str p) cmd) ∧
  (worker.include_plots a = true →
     has_option "--per-residue-plot-dir" (str plots_path) cmd) ∧
  (∀ tool1 tool2, (∀ w, tool1 cmd w = tool2 cmd w) →
     ∀ w, run_temstapro tool1 a w = run_temstapro tool2 a w).
Proof.
  intros cmd. subst cmd.
  split.
  { unfold worker_cmd. rewrite build_cmd_app. repeat split.
    - by apply (has_option_base _ _ _ ["python"; str (REMOTE_REPO_PATH // "temstapro")]
                  "-f" _ (drop 4 (base_cmd a (input_path_of a)))).
    - by apply (has_option_base _ _ _ (take 4 (base_cmd a (input_path_of a)))
                  "-d" _ (drop 6 (base_cmd a (input_path_of a)))).
    - by apply (has_option_base _ _ _ (take 6 (base_cmd a (input_path_of a)))
                  "-t" _ (drop 8 (base_cmd a (input_path_of a)))).
    - by apply (has_option_base _ _ _ (take 8 (base_cmd a (input_path_of a)))
                  "-e" _ (drop 10 (base_cmd a (input_path_of a)))).
    - by apply (has_option_base _ _ _ (take 10 (base_cmd a (input_path_of a)))
                  "--portion-size" _ (drop 12 (base_cmd a (input_path_of a)))).
    - by apply (has_option_base _ _ _ (take 12 (base_cmd a (input_path_of a)))
                  "--segment-size" _ (drop 14 (base_cmd a (input_path_of a)))).
    - by apply (has_option_base _ _ _ (take 14 (base_cmd a (input_path_of a)))
                  "--window-size-predictions" _ []). }
  assert (Hflag : ∀ x, head_slash x = false → all_chars is_int_char x = false →
            x ∉ ["python"; "-f"; "-d"; "-t"; "-e"; "--portion-size"; "--segment-size";
                 "--window-size-predictions"] →
            ∀ P : Prop,
            ((worker.more_thresholds a = true ∧ x = "--more-thresholds") ∨
             (worker.curve_smoothening a = true ∧ x = "--curve-smoothening") ∨
             (Py.truthy (worker.mean_output_name a) = true ∧ x = "--mean-output") ∨
             (Py.truthy (worker.per_res_output_name a) = true ∧ x = "--per-res-output") ∨
             (Py.truthy (worker.per_segment_output_name a) = true
              ∧ x = "--per-segment-output") ∨
             (worker.include_plots a = true ∧ x = "--per-residue-plot-dir") ↔ P) →
            (x ∈ worker_cmd a ↔ P)).
  { intros x H1 H2 H3 P HP. by rewrite optional_flag_in_cmd. }
  assert (Hfixed : ∀ x, x ∈ ["--more-thresholds"; "--curve-smoothening"; "--mean-output";
                             "--per-res-output"; "--per-segment-output";
                             "--per-residue-plot-dir"] →
            x ∉ ["python"; "-f"; "-d"; "-t"; "-e"; "--portion-size"; "--segment-size";
                 "--window-size-predictions"]).
  { intros x. rewrite !elem_of_cons, !elem_of_nil. intros H1 H2.
    destruct_or!; subst; discriminate. }
  repeat split.
  all: try (apply Hflag;
              [reflexivity|reflexivity|apply Hfixed; rewrite !elem_of_cons; tauto|];
            split; [intros H; destruct_or!; destruct_and!; done || discriminate|tauto]).
  - intros p Hp. unfold worker_cmd. rewrite build_cmd_app, Hp.
    do 3 apply has_option_app_r. apply has_option_valued.
  - intros p Hp. unfold worker_cmd. rewrite build_cmd_app, Hp.
    do 4 apply has_option_app_r. apply has_option_valued.
  - intros p Hp. unfold worker_cmd. rewrite build_cmd_app, Hp.
    do 5 apply has_option_app_r. apply has_option_valued.
  - intros Hp. unfold worker_cmd. rewrite build_cmd_app, Hp.
    do 6 apply has_option_app_r. exists [], []. reflexivity.
  - intros tool1 tool2 Htool w. rewrite !run_temstapro_unfold.
    destruct (stage a w) as [[e|[]] w1]; [reflexivity|]. by rewrite Htool.
Qed.

Lemma worker_cmd_flags_witness :
  "--mean-output" ∈ worker_cmd (remote_args Demo.scenario (Path "protein.fasta") []) ∧
  has_option "--mean-output" "/tmp/temstapro/outputs/mean.tsv"
    (worker_cmd (remote_args Demo.scenario (Path "protein.fasta") [])) ∧
  has_option "--portion-size" "500"
    (worker_cmd (remote_args Demo.scenario (Path "protein.fasta") [])) ∧
  ("--mean-output" ∈ worker_cmd Demo.empty_name_args → False).
Proof.
  pose proof (worker_cmd_flags (remote_args Demo.scenario (Path "protein.fasta") [])) as H.
  pose proof (worker_cmd_flags Demo.empty_name_args) as H'.
  cbv zeta in H, H'.
  destruct H as ((_ & _ & _ & _ & Hps & _) & _ & _ & Hmean & _ & _ & _ & Hval & _).
  destruct H' as (_ & _ & _ & Hmean' & _).
  split; [|split; [|split]].
  - apply Hmean. reflexivity.
  - apply (Hval (Path "/tmp/temstapro/outputs/mean.tsv")). reflexivity.
  - exact Hps.
  - intros Hin. apply Hmean' in Hin. discriminate Hin.
Defined.

(** ** The order on paths *)

Lemma string_compare_refl (s : string) : String.compare s s = Eq.
Proof.
  pose proof (String.compare_antisym s s) as H.
  destruct (String.compare s s); simpl in H; congruence.
Qed.

Lemma string_compare_Lt (x y : string) :
  String.compare x y = Lt ↔ String.le x y ∧ x ≠ y.
Proof.
  unfold String.le, String.leb. split.
  - intros H. rewrite H. split; [done|]. intros ->.
    rewrite string_compare_refl in H. discriminate.
  - intros [Hle Hne]. destruct (String.compare x y) eqn:E; [|done|done].
    by apply String.compare_eq_iff in E.
Qed.

Lemma string_compare_Lt_trans (x y z : string) :
  String.compare x y = Lt → String.compare y z = Lt → String.compare x z = Lt.
Proof.
  rewrite !string_compare_Lt. intros [H1 N1] [H2 N2]. split; [by etrans|].
  intros ->. apply N1. by apply (anti_symm String.le).
Qed.

Lemma string_compare_Gt (x y : string) :
  String.compare x y = Gt ↔ String.compare y x = Lt.
Proof.
  rewrite (String.compare_antisym x y). destruct (String.compare y x); simpl; split; congruence.
Qed.

Global Instance parts_le_refl : Reflexive parts_le.
Proof.
  intros l. unfold parts_le. induction l as [|x l IH]; simpl; [done|].
  by rewrite string_compare_refl.
Qed.

Global Instance parts_le_trans : Transitive parts_le.
Proof.
  unfold parts_le. intros l1. induction l1 as [|x l1 IH]; intros [|y l2] [|z l3]; simpl;
    try done.
  destruct (String.compare x y) eqn:Exy; [| |done].
  - apply String.compare_eq_iff in Exy as ->.
    destruct (String.compare y z); [apply IH|done|done].
  - destruct (String.compare y z) eqn:Eyz; [| |done].
    + apply String.compare_eq_iff in Eyz as <-. by rewrite Exy.
    + by rewrite (string_compare_Lt_trans _ _ _ Exy Eyz).
Qed.

Global Instance parts_le_total : Total parts_le.
Proof.
  unfold parts_le. intros l1. induction l1 as [|x l1 IH]; intros [|y l2]; simpl; auto.
  destruct (String.compare x y) eqn:Exy.
  - apply String.compare_eq_iff in Exy as ->. rewrite string_compare_refl. apply IH.
  - by left.
  - right. apply string_compare_Gt in Exy. by rewrite Exy.
Qed.

Global Instance parts_le_antisym : AntiSymm (=) parts_le.
Proof.
  unfold parts_le. intros l1. induction l1 as [|x l1 IH]; intros [|y l2]; simpl; try done.
  destruct (String.compare x y) eqn:Exy.
  - apply String.compare_eq_iff in Exy as ->. rewrite string_compare_refl.
    intros H1 H2. f_equal. by apply IH.
  - intros _. apply string_compare_Gt in Exy. by rewrite Exy.
  - done.
Qed.

Lemma parts_le_app_l pre l1 l2 : parts_le (pre ++ l1) (pre ++ l2) ↔ parts_le l1 l2.
Proof.
  unfold parts_le. induction pre as [|x pre IH]; simpl; [done|].
  by rewrite string_compare_refl.
Qed.

Global Instance path_le_trans : Transitive path_le.
Proof. intros p q r. unfold path_le. apply (transitivity (R:=parts_le)). Qed.

Global Instance path_le_total : Total path_le.
Proof. intros p q. unfold path_le. apply (total parts_le). Qed.

Lemma path_le_child p r1 r2 : path_le (child p r1) (child p r2) ↔ parts_le r1 r2.
Proof.
  unfold path_le, cparts, child. simpl. rewrite !(assoc_L (++)). apply parts_le_app_l.
Qed.

Lemma sorted_Permutation l : sorted l ≡ₚ l.
Proof. apply merge_sort_Permutation. Qed.

Lemma sorted_StronglySorted l : StronglySorted path_le (sorted l).
Proof. apply StronglySorted_merge_sort; apply _. Qed.

(** ** Path resolution *)

Lemma walk_app m cur ps qs :
  walk m cur (ps ++ qs) =
  match walk m cur ps with inr l => walk m l qs | inl e => inl e end.
Proof.
  revert cur. induction ps as [|c ps IH]; intros cur; simpl; [done|].
  destruct (m !! cur) as [[|]|]; [done|apply IH|done].
Qed.

Lemma walk_errno m cur ps e : walk m cur ps = inl e → e = ENOENT ∨ e = ENOTDIR.
Proof.
  revert cur. induction ps as [|c ps IH]; intros cur; simpl; [done|].
  destruct (m !! cur) as [[|]|]; [intros [= <-]; auto|apply IH|intros [= <-]; auto].
Qed.

Lemma walk_mono m m' cur ps l :
  dirs_le m m' → walk m cur ps = inr l → walk m' cur ps = inr l.
Proof.
  intros Hle. revert cur. induction ps as [|c ps IH]; intros cur; simpl; [done|].
  destruct (m !! cur) as [[|]|] eqn:E; [done| |done].
  rewrite (Hle _ E). apply IH.
Qed.

Lemma walk_names m cur ps l :
  Forall (λ n, n ≠ "..") ps → walk m cur ps = inr l → l = cur ++ ps.
Proof.
  intros Hps. revert cur. induction Hps as [|c ps Hc _ IH]; intros cur; simpl.
  - intros [= <-]. by rewrite app_nil_r.
  - destruct (m !! cur) as [[|]|]; [done| |done].
    rewrite decide_False by done. intros H%IH. by rewrite <- app_assoc in H.
Qed.

Lemma walk_dirs m cur ps :
  Forall (λ n, n ≠ "..") ps →
  (∀ pre, pre `prefix_of` ps → pre ≠ ps → m !! (cur ++ pre) = Some Dir) →
  walk m cur ps = inr (cur ++ ps).
Proof.
  intros Hps. revert cur. induction Hps as [|c ps Hc _ IH]; intros cur Hd; simpl.
  - by rewrite app_nil_r.
  - pose proof (Hd [] (prefix_nil _)) as H0. rewrite app_nil_r in H0.
    rewrite H0 by done. rewrite decide_False by done. rewrite IH.
    + by rewrite <- app_assoc.
    + intros pre Hpre Hne. rewrite <- app_assoc. simpl. apply Hd.
      * by apply prefix_cons.
      * congruence.
Qed.

(** ** Reading back: [_collect_outputs] and [_gather_plot_files] *)

Lemma relative_to_child p rel :
  relative_to (child p rel) p = Some {| root := ""; parts := rel |}.
Proof.
  unfold relative_to, child. simpl. rewrite decide_True by done.
  rewrite decide_True by apply prefix_app_r, reflexivity.
  by rewrite drop_app_length.
Qed.

Lemma is_file_true_stat w p : is_file w p = true → ∃ data, stat w p = inr (File data).
Proof. unfold is_file. destruct (stat w p) as [|[d|]]; try done. by eexists. Qed.

Lemma for_fold_cons {S A B} (x : A) (l : list A) (acc : B) (body : B → A → M S B) :
  for_fold (x :: l) acc body = bind (body acc x) (λ acc', for_fold l acc' body).
Proof. reflexivity. Qed.

Lemma gather_loop plot_dir w l acc :
  (∀ q, q ∈ l → ∃ rel, q = child plot_dir rel) →
  for_fold l acc (gather_file plot_dir) w
  = (inr (acc ++ omap (plot_entry w plot_dir) l), w).
Proof.
  revert acc. induction l as [|q l IH]; intros acc Hl; simpl.
  - unfold ret. by rewrite app_nil_r.
  - destruct (Hl q) as [rel ->]; [by left|].
    unfold bind at 1. unfold gather_file at 1.
    unfold bind at 1. unfold gets at 1. unfold plot_entry at 1.
    rewrite relative_to_child.
    destruct (is_file w (child plot_dir rel)) eqn:Hf.
    + destruct (is_file_true_stat _ _ Hf) as [data Hs].
      unfold bind at 1. unfold read_bytes. rewrite Hs. unfold ret at 1.
      rewrite IH by (intros; apply Hl; by right).
      by rewrite <- app_assoc.
    + unfold ret at 1. rewrite IH by (intros; apply Hl; by right). done.
Qed.

Lemma gather_from_children plot_dir scan w :
  (∀ q, q ∈ scan → ∃ rel, q = child plot_dir rel) →
  gather_from plot_dir scan w = (inr (omap (plot_entry w plot_dir) (sorted scan)), w).
Proof.
  intros Hs. unfold gather_from. rewrite gather_loop; [done|].
  intros q Hq. apply Hs. by rewrite <- (sorted_Permutation scan).
Qed.

Lemma rglob_children w p q : q ∈ rglob w p → ∃ rel, q = child p rel.
Proof.
  unfold rglob. destruct (is_dir w p); [|by rewrite elem_of_nil].
  destruct (locate w p); [by rewrite elem_of_nil|].
  intros (rel & -> & _)%list_elem_of_fmap. by exists rel.
Qed.

(** [_gather_plot_files] only reads: it never raises and leaves the world
    as it is. *)
Lemma gather_plot_files_reads plot_dir w :
  ∃ entries, _gather_plot_files plot_dir w = (inr entries, w).
Proof.
  unfold _gather_plot_files, bind, gets.
  destruct (exists_ w plot_dir); simpl; [|by eexists].
  rewrite gather_from_children by apply rglob_children. by eexists.
Qed.

Lemma collect_outputs_loop w paths results :
  (∀ id p, (id, Some p) ∈ paths → is_dir w p = false) →
  for_fold paths results collect_output w
  = (inr (foldl (λ res kv, <[kv.1 := payload_at w kv.2]> res) results paths), w).
Proof.
  revert results. induction paths as [|[key op] paths IH]; intros results Hd.
  { reflexivity. }
  assert (Hstep : collect_output results (key, op) w
                   = (inr (<[key := payload_at w op]> results), w)).
  { destruct op as [p|]; [|done].
    specialize (Hd key p (list_elem_of_here _ _)).
    unfold collect_output, bind, gets, exists_, read_bytes, payload_at.
    unfold is_dir in Hd. cbv beta.
    destruct (stat w p) as [e|[d|]] eqn:E; [reflexivity| |discriminate].
    cbv beta. by rewrite E. }
  rewrite for_fold_cons. unfold bind at 1. rewrite Hstep.
  apply IH. intros id p Hin. apply (Hd id p). by right.
Qed.

Lemma collect_outputs_reads w paths :
  (∀ id p, (id, Some p) ∈ paths → is_dir w p = false) →
  _collect_outputs paths w
  = (inr (foldl (λ res kv, <[kv.1 := payload_at w kv.2]> res) ∅ paths), w).
Proof. apply collect_outputs_loop. Qed.

(** C7, amended.  After a staging that succeeded and a subprocess that
    exited with code 0, if none of the assigned output paths is a
    directory, the worker returns normally, and in the [files] it returns
    each of the three identifiers is present: it maps to [None] when no
    path was assigned to it or when nothing exists at its path, and to the
    whole content of the file when its path is a regular file. *)
Theorem run_temstapro_reports_outputs tool a w w1 completed m :
  stage a w = (inr tt, w1) →
  tool (worker_cmd a) w1 = (completed, m) →
  returncode completed = 0%Z →
  (∀ id p, (id, Some p) ∈ outputs a → is_dir (set_fs m w1) p = false) →
  ∃ r, run_temstapro tool a w = (inr r, set_fs m w1) ∧
       ∀ id op, (id, op) ∈ outputs a →
         (op = None → files r !! id = Some None) ∧
         (∀ p, op = Some p → exists_ (set_fs m w1) p = false →
               files r !! id = Some None) ∧
         (∀ p data, op = Some p → stat (set_fs m w1) p = inr (File data) →
               files r !! id = Some (Some data)).
Proof.
  intros Hstage Htool Hrc Hnd.
  rewrite run_temstapro_unfold, Hstage, Htool.
  rewrite decide_False by (intros ?; done).
  unfold collect, bind. fold (outputs a).
  rewrite (collect_outputs_reads _ _ Hnd).
  destruct (gather_plot_files_reads plots_path (set_fs m w1)) as [entries Hg].
  assert (Hp : ∃ pl, (if worker.include_plots a then _gather_plot_files plots_path
                      else ret []) (set_fs m w1) = (inr pl, set_fs m w1)).
  { destruct (worker.include_plots a); [by eexists|by eexists]. }
  destruct Hp as [pl ->]. eexists. split; [reflexivity|].
  simpl. intros id op Hin.
  assert (Hlook : (<["per_segment" := payload_at (set_fs m w1) (per_segment_output_path a)]>
                    (<["per_res" := payload_at (set_fs m w1) (per_res_output_path a)]>
                      (<["mean" := payload_at (set_fs m w1) (mean_output_path a)]>
                        (∅ : gmap string (option bytes)))))
                  !! id = Some (payload_at (set_fs m w1) op)).
  { unfold outputs in Hin. rewrite !elem_of_cons, elem_of_nil in Hin.
    destruct Hin as [[= -> ->]|[[= -> ->]|[[= -> ->]|[]]]]; by simplify_map_eq. }
  rewrite Hlook. unfold payload_at, exists_. repeat split.
  - by intros ->.
  - intros p -> Hex. destruct (stat (set_fs m w1) p) as [|[|]]; done.
  - intros p data -> ->. done.
Qed.
Lemma run_temstapro_reports_outputs_witness :
  ∃ r, (run_temstapro Demo.good_tool (remote_args Demo.scenario (Path "protein.fasta") [])
          Demo.empty_world).1 = inr r ∧
       files r !! "mean" = Some (Some (Demo.b "ID Score")) ∧
       files r !! "per_res" = Some None.
Proof.
  set (a := remote_args Demo.scenario (Path "protein.fasta") []).
  destruct (run_temstapro_reports_outputs Demo.good_tool a Demo.empty_world
              (stage a Demo.empty_world).2
              (Demo.good_tool (worker_cmd a) (stage a Demo.empty_world).2).1
              (Demo.good_tool (worker_cmd a) (stage a Demo.empty_world).2).2)
    as (r & Hrun & Hfiles).
  - vm_compute. reflexivity.
  - reflexivity.
  - reflexivity.
  - intros id p Hin. unfold outputs in Hin.
    rewrite !elem_of_cons, elem_of_nil in Hin.
    destruct Hin as [Hin|[Hin|[Hin|[]]]]; injection Hin as -> Hp;
      vm_compute in Hp; try discriminate Hp.
    subst p. vm_compute. reflexivity.
  - exists r. rewrite Hrun. split; [reflexivity|]. split.
    + destruct (Hfiles "mean" (mean_output_path a)) as (_ & _ & H3).
      { unfold outputs. rewrite !elem_of_cons. by left. }
      apply (H3 (Path "/tmp/temstapro/outputs/mean.tsv")); vm_compute; reflexivity.
    + destruct (Hfiles "per_res" (per_res_output_path a)) as (H1 & _).
      { unfold outputs. rewrite !elem_of_cons. right. by left. }
      apply H1. reflexivity.
Defined.

(** ** Plot discovery *)

Lemma elem_of_below m l rel :
  rel ∈ below m l ↔ rel ≠ [] ∧ is_Some (m !! (l ++ rel)).
Proof.
  unfold below. rewrite list_elem_of_fmap. split.
  - intros (k & -> & Hk). apply list_elem_of_filter in Hk as [[[r ->] Hne] Hk].
    rewrite drop_app_length. split.
    + intros ->. by rewrite app_nil_r in Hne.
    + apply list_elem_of_fmap in Hk as ([k v] & -> & Hkv).
      apply elem_of_map_to_list in Hkv. by eexists.
  - intros [Hne [v Hv]]. exists (l ++ rel). split; [by rewrite drop_app_length|].
    apply list_elem_of_filter. split.
    + split; [by exists rel|]. intros H. apply Hne.
      apply (inj (app l)). by rewrite app_nil_r.
    + apply list_elem_of_fmap. exists (l ++ rel, v). split; [done|].
      by apply elem_of_map_to_list.
Qed.

Lemma NoDup_below m l : NoDup (below m l).
Proof.
  unfold below. apply NoDup_fmap_2_strong.
  - intros k1 k2 H1 H2 Heq.
    apply list_elem_of_filter in H1 as [[[r1 ->] _] _].
    apply list_elem_of_filter in H2 as [[[r2 ->] _] _].
    rewrite !drop_app_length in Heq. by subst.
  - apply NoDup_filter, NoDup_fst_map_to_list.
Qed.

(** In a well-formed file system everything above an entry is a directory
    and every name on the way is a valid one. *)
Lemma wf_ancestors m l rel :
  fs_wf m → is_Some (m !! (l ++ rel)) →
  (∀ pre, pre `prefix_of` rel → pre ≠ rel → m !! (l ++ pre) = Some Dir) ∧
  Forall (λ n, valid_name n = true) rel.
Proof.
  intros [_ Hwf]. induction rel as [|n rel IH] using rev_ind; intros Hs.
  - split; [|constructor]. intros pre Hpre Hne. by apply prefix_nil_inv in Hpre.
  - rewrite (assoc_L (++)) in Hs. destruct (Hwf _ _ Hs) as [Hd Hn].
    destruct IH as [IH1 IH2]; [by rewrite Hd|]. split.
    + intros pre [k Hk] Hne. destruct k as [|x k _] using rev_ind.
      { rewrite app_nil_r in Hk. by subst. }
      rewrite (assoc_L (++)) in Hk. apply app_inj_tail in Hk as [Hrel _].
      subst rel. destruct k as [|y k].
      * by rewrite app_nil_r in Hd.
      * apply IH1; [by eexists|]. intros E.
        apply (f_equal length) in E. rewrite length_app in E. simpl in E. lia.
    + apply Forall_app. split; [done|]. by constructor.
Qed.

Lemma valid_name_spec n :
  valid_name n = true ↔ n ≠ "" ∧ n ≠ "." ∧ n ≠ ".." ∧ Py.has_char sep n = false.
Proof.
  unfold valid_name. rewrite !andb_true_iff, !negb_true_iff, !String.eqb_neq. tauto.
Qed.

Lemma valid_names_no_dotdot rel :
  Forall (λ n, valid_name n = true) rel → Forall (λ n, n ≠ "..") rel.
Proof.
  intros H. eapply Forall_impl; [exact H|].
  intros n Hn. by apply valid_name_spec in Hn as (_ & _ & ? & _).
Qed.

Lemma start_child w p rel : start w (child p rel) = start w p.
Proof. reflexivity. Qed.

(** Below a located directory, an entry of a well-formed file system is
    found at its location. *)
Lemma locate_child w p l rel :
  fs_wf (fs w) → locate w p = inr l → is_Some (fs w !! (l ++ rel)) →
  locate w (child p rel) = inr (l ++ rel).
Proof.
  intros Hwf Hl Hs. unfold locate in *. rewrite start_child. simpl.
  rewrite walk_app, Hl. destruct (wf_ancestors _ _ _ Hwf Hs) as [Hd Hn].
  apply walk_dirs; [by apply valid_names_no_dotdot|done].
Qed.

Lemma plot_entry_child w p l rel :
  fs_wf (fs w) → locate w p = inr l → is_Some (fs w !! (l ++ rel)) →
  plot_entry w p (child p rel)
  = (λ e, (str {| root := ""; parts := e.1 |}, e.2)) <$> file_at (fs w) l rel.
Proof.
  intros Hwf Hl Hs. unfold plot_entry, is_file, stat, file_at.
  rewrite (locate_child w p l rel Hwf Hl Hs), relative_to_child.
  destruct Hs as [[d|] ->]; reflexivity.
Qed.

Lemma join_cons_ne sep0 n l : n ≠ "" → Py.join sep0 (n :: l) ≠ "".
Proof.
  intros Hn. destruct l; simpl; [done|]. destruct n; [done|].
  by rewrite string_app_cons.
Qed.

(** [str] of a relative path with components is the components joined. *)
Lemma str_relative rel :
  rel ≠ [] → Forall (λ n, valid_name n = true) rel →
  str {| root := ""; parts := rel |} = Py.join "/" rel.
Proof.
  intros Hne Hv. unfold str. simpl. rewrite string_app_nil_l.
  destruct rel as [|n rel]; [done|].
  apply Forall_cons in Hv as [Hn _]. apply valid_name_spec in Hn as (Hn & _).
  pose proof (join_cons_ne "/" n rel Hn) as Hj.
  apply String.eqb_neq in Hj. by rewrite Hj.
Qed.

(** Sorting the children of a directory as paths sorts their relative
    locations. *)
Lemma sorted_children p rels :
  sorted (child p <$> rels) = child p <$> merge_sort parts_le rels.
Proof.
  apply (StronglySorted_unique_strong path_le).
  - intros x1 x2 H1 H2 H12 H21.
    rewrite sorted_Permutation in H1.
    apply list_elem_of_fmap in H1 as (r1 & -> & _).
    apply list_elem_of_fmap in H2 as (r2 & -> & _).
    apply path_le_child in H12, H21. f_equal. by apply (anti_symm parts_le).
  - apply sorted_StronglySorted.
  - apply StronglySorted_fmap with (R1 := parts_le).
    + intros r1 r2. apply path_le_child.
    + apply StronglySorted_merge_sort; apply _.
  - rewrite sorted_Permutation. by rewrite merge_sort_Permutation.
Qed.

Lemma StronglySorted_strict (l : list (list string)) :
  StronglySorted parts_le l → NoDup l →
  StronglySorted (λ r1 r2, parts_le r1 r2 ∧ r1 ≠ r2) l.
Proof.
  induction 1 as [|x l Hl IH Hx]; intros Hnd; [constructor|].
  apply NoDup_cons in Hnd as [Hx' Hnd]. constructor; [by apply IH|].
  apply Forall_forall. intros y Hy. split.
  - by apply (proj1 (Forall_forall _ _) Hx).
  - intros ->. done.
Qed.

Lemma StronglySorted_omap {A B} (R : relation A) (R' : relation B)
    (f : A → option B) (l : list A) :
  (∀ x y a b, R x y → f x = Some a → f y = Some b → R' a b) →
  StronglySorted R l → StronglySorted R' (omap f l).
Proof.
  intros Hf. induction 1 as [|x l Hl IH Hx]; csimpl; [constructor|].
  destruct (f x) as [a|] eqn:E; [|done]. constructor; [done|].
  apply Forall_forall. intros b Hb.
  apply list_elem_of_omap in Hb as (y & Hy & Hfy).
  eapply Hf; [|done..]. by apply (proj1 (Forall_forall _ _) Hx).
Qed.

Lemma file_at_Some m l rel e :
  file_at m l rel = Some e ↔ e.1 = rel ∧ m !! (l ++ rel) = Some (File e.2).
Proof.
  unfold file_at. destruct e as [r d]. simpl.
  destruct (m !! (l ++ rel)) as [[d'|]|]; split; try done.
  - by intros [= -> ->].
  - by intros [-> [= ->]].
  - by intros [_ ?].
  - by intros [_ ?].
Qed.

Lemma omap_fmap_ext_in {A B C} (f : B → option C) (g : A → B) (h : A → option C)
    (l : list A) :
  (∀ x, x ∈ l → f (g x) = h x) → omap f (g <$> l) = omap h l.
Proof.
  induction l as [|x l IH]; intros Hl; [done|]. csimpl.
  rewrite (Hl x) by by left. rewrite IH by (intros; apply Hl; by right). done.
Qed.

(** What [_gather_plot_files] returns for a directory of a well-formed
    file system located at [l]. *)
Lemma gather_plot_files_dir w p l :
  fs_wf (fs w) → locate w p = inr l → fs w !! l = Some Dir →
  _gather_plot_files p w
  = (inr (plot_of <$> omap (file_at (fs w) l) (merge_sort parts_le (below (fs w) l))), w).
Proof.
  intros Hwf Hl Hd.
  assert (Hstat : stat w p = inr Dir) by (unfold stat; by rewrite Hl, Hd).
  unfold _gather_plot_files, bind, gets, exists_. rewrite Hstat. simpl.
  rewrite gather_from_children by apply rglob_children.
  unfold rglob, is_dir. rewrite Hstat, Hl. rewrite sorted_children.
  f_equal. f_equal. rewrite list_fmap_omap.
  apply omap_fmap_ext_in. intros rel Hrel.
  rewrite merge_sort_Permutation in Hrel. apply elem_of_below in Hrel as [Hne Hs].
  rewrite (plot_entry_child w p l rel Hwf Hl Hs).
  destruct (wf_ancestors _ _ _ Hwf Hs) as [_ Hv].
  unfold file_at. destruct (fs w !! (l ++ rel)) as [[d|]|]; [|done..].
  simpl. unfold plot_of. simpl. by rewrite str_relative.
Qed.

Lemma gather_plot_files_file w p l data :
  locate w p = inr l → fs w !! l = Some (File data) →
  _gather_plot_files p w = (inr [], w).
Proof.
  intros Hl Hf.
  assert (Hstat : stat w p = inr (File data)) by (unfold stat; by rewrite Hl, Hf).
  unfold _gather_plot_files, bind, gets, exists_. rewrite Hstat. simpl.
  rewrite gather_from_children by apply rglob_children.
  unfold rglob, is_dir. by rewrite Hstat.
Qed.

(** The result of the loop does not depend on the order in which the
    directory was enumerated. *)
Lemma gather_from_Permutation p scan scan' w :
  (∀ q, q ∈ scan → ∃ rel, q = child p rel) → scan' ≡ₚ scan →
  gather_from p scan' w = gather_from p scan w.
Proof.
  intros Hc Hp.
  assert (Hc' : ∀ q, q ∈ scan' → ∃ rel, q = child p rel).
  { intros q Hq. apply Hc. by rewrite <- Hp. }
  rewrite !gather_from_children by done. f_equal. f_equal. f_equal.
  apply (StronglySorted_unique_strong path_le).
  - intros x1 x2 H1 H2 H12 H21.
    rewrite sorted_Permutation in H1. rewrite sorted_Permutation in H2.
    destruct (Hc' x1 H1) as [r1 ->]. destruct (Hc x2 H2) as [r2 ->].
    apply path_le_child in H12, H21. f_equal. by apply (anti_symm parts_le).
  - apply sorted_StronglySorted.
  - apply sorted_StronglySorted.
  - by rewrite !sorted_Permutation.
Qed.

(** C4.  When nothing exists at [plot_dir], [_gather_plot_files] returns
    the empty list and raises nothing.  When [plot_dir] exists in a
    well-formed file system, at location [l], it returns normally one
    entry for each regular file strictly below [l], and only those: the
    pair of the file's path relative to [l], joined with slashes, and the
    file's content; the entries come in strictly increasing order of
    their relative paths (compared component by component), so there are
    no duplicates.  The result is the same for every order in which the
    directory scan enumerates what it finds. *)
Theorem gather_plot_files_spec plot_dir w :
  (exists_ w plot_dir = false → _gather_plot_files plot_dir w = (inr [], w)) ∧
  (∀ l, fs_wf (fs w) → locate w plot_dir = inr l → is_Some (fs w !! l) →
     ∃ es : list (list string * bytes),
       _gather_plot_files plot_dir w = (inr (plot_of <$> es), w) ∧
       (∀ rel data,
          (rel, data) ∈ es ↔ rel ≠ [] ∧ fs w !! (l ++ rel) = Some (File data)) ∧
       StronglySorted entry_lt es) ∧
  (∀ scan, scan ≡ₚ rglob w plot_dir →
     gather_from plot_dir scan w = gather_from plot_dir (rglob w plot_dir) w).
Proof.
  split; [|split].
  - intros Hex. unfold _gather_plot_files, bind, gets. by rewrite Hex.
  - intros l Hwf Hl [[data|] Hn].
    + exists []. split; [by apply (gather_plot_files_file w plot_dir l data)|].
      split; [|constructor]. intros rel d. rewrite elem_of_nil. split; [done|].
      intros [Hne Hf].
      destruct (wf_ancestors (fs w) l rel Hwf) as [Hd _]; [by rewrite Hf|].
      specialize (Hd [] (prefix_nil _)). rewrite app_nil_r in Hd.
      rewrite Hd in Hn by done. discriminate.
    + exists (omap (file_at (fs w) l) (merge_sort parts_le (below (fs w) l))).
      split; [by apply gather_plot_files_dir|]. split.
      * intros rel d. rewrite list_elem_of_omap. split.
        -- intros (r & Hr & Hf). apply file_at_Some in Hf as [<- Hf]. simpl in *.
           rewrite merge_sort_Permutation in Hr.
           apply elem_of_below in Hr as [Hne _]. done.
        -- intros [Hne Hf]. exists rel. split.
           ++ rewrite merge_sort_Permutation. apply elem_of_below.
              split; [done|]. by rewrite Hf.
           ++ by apply file_at_Some.
      * apply (StronglySorted_omap (λ r1 r2, parts_le r1 r2 ∧ r1 ≠ r2)).
        -- intros r1 r2 e1 e2 [Hle Hne] H1 H2.
           apply file_at_Some in H1 as [E1 _]. apply file_at_Some in H2 as [E2 _].
           unfold entry_lt. by rewrite E1, E2.
        -- apply StronglySorted_strict.
           ++ apply StronglySorted_merge_sort; apply _.
           ++ rewrite merge_sort_Permutation. apply NoDup_below.
  - intros scan Hp. apply gather_from_Permutation; [apply rglob_children|done].
Qed.
Lemma fs_wfb_correct m : fs_wfb m = true → fs_wf m.
Proof.
  unfold fs_wfb. destruct (m !! []) as [[|]|] eqn:E; try done.
  intros Hall. split; [done|]. intros l n [v Hv].
  rewrite forallb_forall in Hall. specialize (Hall (l ++ [n])).
  unfold entry_ok in Hall. rewrite removelast_last, last_last in Hall.
  destruct (l ++ [n]) eqn:El; [by destruct l|]. rewrite <- El in *.
  destruct (m !! l) as [[|]|].
  - discriminate Hall. apply list_elem_of_In, list_elem_of_fmap.
    exists (l ++ [n], v). split; [done|]. by apply elem_of_map_to_list.
  - split; [done|]. apply Hall. apply list_elem_of_In, list_elem_of_fmap.
    exists (l ++ [n], v). split; [done|]. by apply elem_of_map_to_list.
  - discriminate Hall. apply list_elem_of_In, list_elem_of_fmap.
    exists (l ++ [n], v). split; [done|]. by apply elem_of_map_to_list.
Qed.

Lemma gather_plot_files_spec_witness :
  _gather_plot_files (Path "/nowhere") Demo.remote_after = (inr [], Demo.remote_after) ∧
  ∃ es, _gather_plot_files plots_path Demo.remote_after
          = (inr (plot_of <$> es), Demo.remote_after) ∧
        ((["sub"; "b.png"], Demo.b "BB") ∈ es) ∧
        StronglySorted entry_lt es.
Proof.
  split.
  - destruct (gather_plot_files_spec (Path "/nowhere") Demo.remote_after) as (H & _).
    apply H. vm_compute. reflexivity.
  - destruct (gather_plot_files_spec plots_path Demo.remote_after) as (_ & H & _).
    destruct (H ["tmp"; "temstapro"; "plots"]) as (es & Hrun & Hin & Hs).
    + apply fs_wfb_correct. vm_compute. reflexivity.
    + vm_compute. reflexivity.
    + vm_compute. by eexists.
    + exists es. split; [exact Hrun|]. split; [|exact Hs].
      apply Hin. split; [done|]. vm_compute. reflexivity.
Defined.

(** ** Writing: [mkdir(parents=True, exist_ok=True)] and [write_bytes] *)

Lemma set_fs_id w : set_fs (fs w) w = w.
Proof. by destruct w. Qed.

Lemma set_fs_set_fs m m' w : set_fs m' (set_fs m w) = set_fs m' w.
Proof. reflexivity. Qed.

Lemma elem_of_path_locs l rel k :
  k ∈ path_locs l rel ↔ ∃ pre, pre `prefix_of` rel ∧ k = l ++ pre.
Proof.
  revert l. induction rel as [|c rel IH]; intros l; simpl.
  - rewrite list_elem_of_singleton. split.
    + intros ->. exists []. by rewrite app_nil_r.
    + intros (pre & Hpre & ->). apply prefix_nil_inv in Hpre as ->. by rewrite app_nil_r.
  - rewrite elem_of_cons, IH. split.
    + intros [->|(pre & Hpre & ->)].
      * exists []. split; [apply prefix_nil|by rewrite app_nil_r].
      * exists (c :: pre). split; [by apply prefix_cons|by rewrite <- app_assoc].
    + intros (pre & Hpre & ->). destruct pre as [|x pre].
      * left. by rewrite app_nil_r.
      * right. pose proof (prefix_cons_inv_1 _ _ _ _ Hpre) as ->.
        apply prefix_cons_inv_2 in Hpre. exists pre. by rewrite <- app_assoc.
Qed.

Lemma path_locs_snoc l rel c :
  path_locs l (rel ++ [c]) = path_locs l rel ++ [l ++ rel ++ [c]].
Proof.
  revert l. induction rel as [|x rel IH]; intros l; simpl; [done|].
  by rewrite IH, <- app_assoc.
Qed.

Lemma path_locs_head l rel : l ∈ path_locs l rel.
Proof. destruct rel; by left. Qed.

Lemma lookup_with_dirs m locs k :
  with_dirs m locs !! k = if decide (k ∈ locs) then Some Dir else m !! k.
Proof.
  induction locs as [|x locs IH].
  - change (with_dirs m []) with m.
    destruct (decide (k ∈ [])) as [H|]; [by apply elem_of_nil in H|done].
  - change (with_dirs m (x :: locs)) with (<[x := Dir]> (with_dirs m locs)).
    destruct (decide (x = k)) as [->|Hne].
    + rewrite lookup_insert_eq. destruct (decide (k ∈ k :: locs)) as [|H]; [done|].
      destruct H. by left.
    + rewrite lookup_insert_ne by done. rewrite IH.
      destruct (decide (k ∈ locs)) as [Hin|Hin], (decide (k ∈ x :: locs)) as [Hin'|Hin'];
        try done.
      * destruct Hin'. by right.
      * apply elem_of_cons in Hin' as [->|?]; done.
Qed.

Lemma with_dirs_id m locs :
  (∀ k, k ∈ locs → m !! k = Some Dir) → with_dirs m locs = m.
Proof.
  intros H. apply map_eq. intros k. rewrite lookup_with_dirs.
  destruct (decide (k ∈ locs)); [by rewrite H|done].
Qed.

Lemma dirs_le_with_dirs m locs : dirs_le m (with_dirs m locs).
Proof.
  intros k Hk. rewrite lookup_with_dirs. by destruct (decide (k ∈ locs)).
Qed.

(** A resolution that succeeded went through directories only. *)
Lemma walk_inr_dirs m cur ps l :
  Forall (λ n, n ≠ "..") ps → walk m cur ps = inr l →
  ∀ pre, pre `prefix_of` ps → pre ≠ ps → m !! (cur ++ pre) = Some Dir.
Proof.
  intros Hps. revert cur. induction Hps as [|c ps Hc _ IH]; intros cur; simpl.
  - intros _ pre Hpre Hne. by apply prefix_nil_inv in Hpre.
  - destruct (m !! cur) as [[|]|] eqn:E; [done| |done].
    rewrite decide_False by done. intros Hw pre Hpre Hne.
    destruct pre as [|x pre]; [by rewrite app_nil_r|].
    pose proof (prefix_cons_inv_1 _ _ _ _ Hpre) as ->.
    apply prefix_cons_inv_2 in Hpre.
    specialize (IH _ Hw pre Hpre). rewrite <- app_assoc in IH. apply IH. congruence.
Qed.

(** [ENOTDIR] means a regular file was in the way. *)
Lemma walk_enotdir m cur ps :
  Forall (λ n, n ≠ "..") ps → walk m cur ps = inl ENOTDIR →
  ∃ pre data, pre `prefix_of` ps ∧ pre ≠ ps ∧ m !! (cur ++ pre) = Some (File data).
Proof.
  intros Hps. revert cur. induction Hps as [|c ps Hc _ IH]; intros cur; simpl; [done|].
  destruct (m !! cur) as [[d|]|] eqn:E; [| |done].
  - intros _. exists [], d. rewrite app_nil_r. split; [apply prefix_nil|done].
  - rewrite decide_False by done. intros (pre & d & Hpre & Hne & Hf)%IH.
    exists (c :: pre), d. rewrite <- app_assoc in Hf.
    split; [by apply prefix_cons|]. split; [congruence|done].
Qed.

Lemma mkdir_parents_eq n p exist_ok w :
  mkdir_parents n p exist_ok w =
  match os_mkdir p w with
  | (inr tt, w') => (inr tt, w')
  | (inl (OSError ENOENT msg), _) =>
      match n with
      | 0 => (inl (OSError ENOENT msg), w)
      | S n' => (mkdir_parents n' (parent p) true ;;; mkdir_single p exist_ok) w
      end
  | (inl e, _) => if exist_ok && is_dir w p then (inr tt, w) else (inl e, w)
  end.
Proof. by destruct n. Qed.

Lemma parent_child_snoc p rel c : parent (child p (rel ++ [c])) = child p rel.
Proof.
  unfold parent, child. simpl. by rewrite (assoc_L (++)), removelast_last.
Qed.

Lemma locate_child_walk w p l rel :
  locate w p = inr l → locate w (child p rel) = walk (fs w) l rel.
Proof. unfold locate. intros H. rewrite start_child. simpl. by rewrite walk_app, H. Qed.

Lemma locate_mono w m' p l :
  dirs_le (fs w) m' → locate w p = inr l → locate (set_fs m' w) p = inr l.
Proof. intros Hle. unfold locate. simpl. by apply walk_mono. Qed.

(** [os.mkdir] on a path whose location is known. *)
Lemma os_mkdir_at w q lq :
  locate w q = inr lq →
  os_mkdir q w =
  match fs w !! lq with
  | Some _ => (inl (OSError EEXIST (str q)), w)
  | None => (inr tt, set_fs (<[lq := Dir]> (fs w)) w)
  end.
Proof. intros H. unfold os_mkdir. by rewrite H. Qed.

Lemma is_dir_at w q lq : locate w q = inr lq → fs w !! lq = Some Dir → is_dir w q = true.
Proof. intros H1 H2. unfold is_dir, stat. by rewrite H1, H2. Qed.
Lemma with_dirs_snoc m locs k :
  with_dirs m (locs ++ [k]) = <[k := Dir]> (with_dirs m locs).
Proof.
  apply map_eq. intros j. rewrite lookup_with_dirs.
  destruct (decide (k = j)) as [->|Hne].
  - rewrite lookup_insert_eq. rewrite decide_True; [done|].
    apply elem_of_app. right. by left.
  - rewrite lookup_insert_ne by done. rewrite lookup_with_dirs.
    destruct (decide (j ∈ locs)) as [Hin|Hin].
    + rewrite decide_True; [done|]. apply elem_of_app. by left.
    + rewrite decide_False; [done|]. rewrite elem_of_app, list_elem_of_singleton.
      intros [?|?]; congruence.
Qed.

Lemma not_elem_of_path_locs_snoc l rel c : l ++ rel ++ [c] ∉ path_locs l rel.
Proof.
  intros (pre & [k Hk] & Heq)%elem_of_path_locs.
  apply (inj (app l)) in Heq. subst rel.
  apply (f_equal length) in Heq. rewrite !length_app in Heq. simpl in Heq. lia.
Qed.

Lemma clear_way_snoc m l rel c : clear_way m l (rel ++ [c]) → clear_way m l rel.
Proof.
  intros H k d Hk. apply H. rewrite path_locs_snoc. apply elem_of_app. by left.
Qed.

(** Making the last directory of a path whose ancestors are all there. *)
Lemma mkdir_last w p bl rel c :
  locate w p = inr bl → Forall (λ n, n ≠ "..") (rel ++ [c]) →
  (∀ k, k ∈ path_locs bl rel → fs w !! k = Some Dir) →
  (∀ data, fs w !! (bl ++ rel ++ [c]) ≠ Some (File data)) →
  mkdir_single (child p (rel ++ [c])) true w
    = (inr tt, set_fs (<[bl ++ rel ++ [c] := Dir]> (fs w)) w) ∧
  ∀ n, mkdir_parents n (child p (rel ++ [c])) true w
    = (inr tt, set_fs (<[bl ++ rel ++ [c] := Dir]> (fs w)) w).
Proof.
  intros Hp Hnd Hdirs Hnf.
  assert (Hq : locate w (child p (rel ++ [c])) = inr (bl ++ rel ++ [c])).
  { rewrite (locate_child_walk w p bl _ Hp). apply walk_dirs; [done|].
    intros pre [k Hk] Hne. apply Hdirs. apply elem_of_path_locs. exists pre.
    split; [|done]. destruct k as [|x k _] using rev_ind.
    { rewrite app_nil_r in Hk. by subst. }
    rewrite (assoc_L (++)) in Hk. apply app_inj_tail in Hk as [-> _]. by eexists. }
  assert (Hos : os_mkdir (child p (rel ++ [c])) w
                = (inr tt, set_fs (<[bl ++ rel ++ [c] := Dir]> (fs w)) w) ∨
                (os_mkdir (child p (rel ++ [c])) w
                 = (inl (OSError EEXIST (str (child p (rel ++ [c])))), w) ∧
                 fs w !! (bl ++ rel ++ [c]) = Some Dir)).
  { rewrite (os_mkdir_at _ _ _ Hq).
    destruct (fs w !! (bl ++ rel ++ [c])) as [[d|]|] eqn:E; [|by right|by left].
    by destruct (Hnf d). }
  assert (Hsame : ∀ lq, fs w !! lq = Some Dir → set_fs (<[lq := Dir]> (fs w)) w = w).
  { intros lq Hl. by rewrite insert_id, set_fs_id. }
  split; [|intros n; rewrite mkdir_parents_eq]; [unfold mkdir_single|];
    destruct Hos as [->|[-> Hd]]; try done; cbv beta iota;
    rewrite (is_dir_at _ _ _ Hq Hd); cbn [andb]; by rewrite Hsame.
Qed.

(** [mkdir(parents=True, exist_ok=True)] below a directory: when no
    regular file is in the way, it succeeds and leaves a directory at every
    location on the way, and nothing else changes. *)
Lemma mkdir_parents_child p bl rel :
  ∀ n w, (length rel ≤ n)%nat → Forall (λ n, n ≠ "..") rel →
    locate w p = inr bl → fs w !! bl = Some Dir → clear_way (fs w) bl rel →
    mkdir_parents n (child p rel) true w
    = (inr tt, set_fs (with_dirs (fs w) (path_locs bl rel)) w).
Proof.
  induction rel as [|c rel IH] using rev_ind; intros n w Hn Hnd Hp Hbl Hclear.
  - assert (Hq : locate w (child p []) = inr bl) by by rewrite (locate_child_walk w p bl).
    rewrite mkdir_parents_eq, (os_mkdir_at _ _ _ Hq), Hbl. cbv beta iota.
    rewrite (is_dir_at _ _ _ Hq Hbl). cbn [andb].
    rewrite with_dirs_id, set_fs_id; [done|].
    intros k Hk. by apply list_elem_of_singleton in Hk as ->.
  - pose proof Hnd as Hnd'. apply Forall_app in Hnd' as [Hrel Hc].
    rewrite length_app in Hn. simpl in Hn.
    rewrite path_locs_snoc, with_dirs_snoc.
    assert (Hnf : ∀ m' : gmap (list string) node,
                        (∀ k, k ∉ path_locs bl rel → m' !! k = fs w !! k) →
                        ∀ data, m' !! (bl ++ rel ++ [c]) ≠ Some (File data)).
    { intros m' Hm' data. rewrite Hm' by apply not_elem_of_path_locs_snoc.
      apply Hclear. rewrite path_locs_snoc. apply elem_of_app. right. by left. }
    destruct (walk (fs w) bl (rel ++ [c])) as [e|lq] eqn:Hw.
    + assert (Hq : locate w (child p (rel ++ [c])) = inl e)
        by by rewrite (locate_child_walk w p bl).
      destruct (walk_errno _ _ _ _ Hw) as [->| ->].
      * rewrite mkdir_parents_eq. unfold os_mkdir at 1. rewrite Hq.
        destruct n as [|n]; [lia|]. rewrite parent_child_snoc.
        unfold bind. rewrite (IH n w) by (done || lia || by eapply clear_way_snoc).
        set (m1 := with_dirs (fs w) (path_locs bl rel)).
        assert (H1 : locate (set_fs m1 w) p = inr bl).
        { apply locate_mono; [apply dirs_le_with_dirs|done]. }
        assert (H2 : ∀ k, k ∈ path_locs bl rel → fs (set_fs m1 w) !! k = Some Dir).
        { intros k Hk. simpl. unfold m1. rewrite lookup_with_dirs. by rewrite decide_True. }
        assert (H3 : ∀ data, fs (set_fs m1 w) !! (bl ++ rel ++ [c]) ≠ Some (File data)).
        { simpl. apply Hnf. intros k Hk. unfold m1. rewrite lookup_with_dirs.
          by rewrite decide_False. }
        by destruct (mkdir_last (set_fs m1 w) p bl rel c H1 Hnd H2 H3) as [-> _].
      * apply walk_enotdir in Hw as (pre & d & Hpre & _ & Hf); [|done].
        destruct (Hclear (bl ++ pre) d); [|done].
        apply elem_of_path_locs. by exists pre.
    + assert (Hdirs : ∀ k, k ∈ path_locs bl rel → fs w !! k = Some Dir).
      { intros k (pre & [j Hj] & ->)%elem_of_path_locs.
        apply (walk_inr_dirs _ _ _ _ Hnd Hw).
        - exists (j ++ [c]). by rewrite Hj, <- app_assoc.
        - intros E. subst rel. apply (f_equal length) in E.
          rewrite !length_app in E. simpl in E. lia. }
      destruct (mkdir_last w p bl rel c Hp Hnd Hdirs (Hnf (fs w) (λ _ _, eq_refl)))
        as [_ ->].
      by rewrite with_dirs_id.
Qed.

Lemma write_bytes_at w q lq data :
  locate w q = inr lq → fs w !! lq ≠ Some Dir →
  write_bytes q data w = (inr tt, set_fs (<[lq := File data]> (fs w)) w).
Proof.
  intros Hq Hnd. unfold write_bytes. rewrite Hq.
  destruct (fs w !! lq) as [[d|]|]; done.
Qed.

Lemma path_locs_dirs_with_dirs m l rel k :
  k ∈ path_locs l rel → with_dirs m (path_locs l rel) !! k = Some Dir.
Proof. intros Hk. rewrite lookup_with_dirs. by rewrite decide_True. Qed.

(** The two steps every writer of the launcher makes: the parents of the
    target, then the file.  Below a directory [p] located at [bl], for a
    target that is [writable], they succeed and leave exactly
    [with_file]. *)
Lemma write_file_child w p bl rel data :
  locate w p = inr bl → fs w !! bl = Some Dir → writable (fs w) bl rel →
  (mkdir (parent (child p rel)) true true ;;; write_bytes (child p rel) data) w
  = (inr tt, set_fs (with_file (fs w) bl rel data) w).
Proof.
  intros Hp Hbl (Hne & Hnd & Hclear & Hdest).
  destruct rel as [|c rel _] using rev_ind; [done|]. clear Hne.
  rewrite removelast_last in Hclear. unfold with_file. rewrite removelast_last.
  rewrite parent_child_snoc. unfold mkdir, bind.
  pose proof Hnd as Hnd'. apply Forall_app in Hnd' as [Hrel Hc].
  rewrite (mkdir_parents_child p bl rel) by (done || (simpl; rewrite length_app; lia)).
  set (m1 := with_dirs (fs w) (path_locs bl rel)).
  assert (Hq : locate (set_fs m1 w) (child p (rel ++ [c])) = inr (bl ++ rel ++ [c])).
  { rewrite (locate_child_walk _ p bl).
    - simpl. apply walk_dirs; [done|]. intros pre [k Hk] Hpre.
      apply path_locs_dirs_with_dirs, elem_of_path_locs. exists pre. split; [|done].
      destruct k as [|x k _] using rev_ind.
      { rewrite app_nil_r in Hk. by subst. }
      rewrite (assoc_L (++)) in Hk. apply app_inj_tail in Hk as [-> _]. by eexists.
    - apply locate_mono; [apply dirs_le_with_dirs|done]. }
  rewrite (write_bytes_at _ _ _ data Hq); [done|].
  simpl. unfold m1. rewrite lookup_with_dirs.
  by rewrite decide_False by apply not_elem_of_path_locs_snoc.
Qed.
Lemma lookup_with_file m l rel data k :
  with_file m l rel data !! k =
  if decide (k = l ++ rel) then Some (File data)
  else if decide (k ∈ path_locs l (removelast rel)) then Some Dir
  else m !! k.
Proof.
  unfold with_file. destruct (decide (k = l ++ rel)) as [->|Hne].
  - by rewrite lookup_insert_eq.
  - rewrite lookup_insert_ne by done. apply lookup_with_dirs.
Qed.

Lemma prefix_snoc_inv {A} (pre rel : list A) c :
  pre `prefix_of` rel ++ [c] → pre ≠ rel ++ [c] → pre `prefix_of` rel.
Proof.
  intros [k Hk] Hne. destruct k as [|x k _] using rev_ind.
  { rewrite app_nil_r in Hk. by subst. }
  rewrite (assoc_L (++)) in Hk. apply app_inj_tail in Hk as [-> _]. by eexists.
Qed.

Lemma prefix_removelast {A} (pre rel : list A) :
  pre `prefix_of` rel → pre ≠ rel → pre `prefix_of` removelast rel.
Proof.
  destruct rel as [|c rel _] using rev_ind.
  - intros H%prefix_nil_inv. done.
  - rewrite removelast_last. apply prefix_snoc_inv.
Qed.

Lemma removelast_prefix {A} (rel : list A) : removelast rel `prefix_of` rel.
Proof.
  destruct rel as [|c rel _] using rev_ind; [done|].
  rewrite removelast_last. by eexists.
Qed.

Lemma removelast_length_lt {A} (rel : list A) :
  rel ≠ [] → (length (removelast rel) < length rel)%nat.
Proof.
  destruct rel as [|c rel _] using rev_ind; [done|]. intros _.
  rewrite removelast_last, length_app. simpl. lia.
Qed.

Lemma path_locs_removelast l rel k :
  k ∈ path_locs l (removelast rel) → k ∈ path_locs l rel.
Proof.
  rewrite !elem_of_path_locs. intros (pre & Hpre & ->). exists pre. split; [|done].
  etrans; [exact Hpre|apply removelast_prefix].
Qed.

Lemma path_locs_last l rel : l ++ rel ∈ path_locs l rel.
Proof. apply elem_of_path_locs. by exists rel. Qed.

Lemma not_path_locs_removelast l rel : rel ≠ [] → l ++ rel ∉ path_locs l (removelast rel).
Proof.
  intros Hne (pre & Hpre & Heq)%elem_of_path_locs. apply (inj (app l)) in Heq. subst pre.
  apply prefix_length in Hpre. pose proof (removelast_length_lt rel Hne). lia.
Qed.

Lemma dirs_le_with_file m l rel data :
  m !! (l ++ rel) ≠ Some Dir → dirs_le m (with_file m l rel data).
Proof.
  intros Hd k Hk. rewrite lookup_with_file.
  destruct (decide (k = l ++ rel)) as [->|]; [done|].
  by destruct (decide (k ∈ path_locs l (removelast rel))).
Qed.

Lemma dirs_le_trans m1 m2 m3 : dirs_le m1 m2 → dirs_le m2 m3 → dirs_le m1 m3.
Proof. intros H1 H2 k Hk. by apply H2, H1. Qed.

(** Reading back below a directory whose way down is made of
    directories. *)
Lemma read_back w p bl rel data :
  locate w p = inr bl → Forall (λ n, n ≠ "..") rel → rel ≠ [] →
  (∀ k, k ∈ path_locs bl (removelast rel) → fs w !! k = Some Dir) →
  fs w !! (bl ++ rel) = Some (File data) →
  locate w (child p rel) = inr (bl ++ rel) ∧
  read_bytes (child p rel) w = (inr data, w) ∧
  is_dir w (parent (child p rel)) = true.
Proof.
  intros Hp Hnd Hne Hdirs Hfile.
  assert (Hq : locate w (child p rel) = inr (bl ++ rel)).
  { rewrite (locate_child_walk w p bl _ Hp). apply walk_dirs; [done|].
    intros pre Hpre Hpne. apply Hdirs, elem_of_path_locs. exists pre.
    split; [by apply prefix_removelast|done]. }
  split; [done|]. split.
  - unfold read_bytes, stat. by rewrite Hq, Hfile.
  - destruct rel as [|c rel _] using rev_ind; [done|].
    rewrite removelast_last in Hdirs. rewrite parent_child_snoc.
    apply Forall_app in Hnd as [Hrel _].
    apply (is_dir_at _ _ (bl ++ rel)); [|apply Hdirs, path_locs_last].
    rewrite (locate_child_walk w p bl _ Hp). apply walk_dirs; [done|].
    intros pre Hpre Hpne. apply Hdirs, elem_of_path_locs. by exists pre.
Qed.

Lemma child_anchor q : child (anchor q) (parts q) = q.
Proof. by destruct q. Qed.

Lemma locate_anchor w q : locate w (anchor q) = inr (start w q).
Proof. reflexivity. Qed.

(** ** Paths of plot entries: joining and parsing back *)


Lemma valid_name_simple n : valid_name n = true → simple_name n = true.
Proof.
  intros (H1 & H2 & _ & H4)%valid_name_spec. apply simple_name_spec. done.
Qed.




(** ** The launcher: writing what was requested *)

(** [_write_optional_file] with a path and a payload: the parents, then
    the file. *)
Lemma write_optional_file_ok path data w :
  path ≠ "" →
  fs w !! start w (Path path) = Some Dir →
  writable (fs w) (start w (Path path)) (parts (Path path)) →
  let w' := set_fs (with_file (fs w) (start w (Path path)) (parts (Path path)) data) w in
  _write_optional_file (Some path) (Some data) w = (inr tt, w') ∧
  read_bytes (Path path) w' = (inr data, w') ∧
  is_dir w' (parent (Path path)) = true ∧
  (∀ k, k ∉ path_locs (start w (Path path)) (parts (Path path)) → fs w' !! k = fs w !! k).
Proof.
  intros Hne Hs Hw w'.
  set (dest := Path path) in *. set (s := start w dest) in *.
  assert (Hrun : _write_optional_file (Some path) (Some data) w = (inr tt, w')).
  { unfold _write_optional_file. rewrite (proj2 (truthy_Some path) Hne).
    fold dest. rewrite <- (child_anchor dest).
    by apply write_file_child; [apply locate_anchor|..]. }
  destruct Hw as (Hrel & Hnd & Hclear & Hdest).
  assert (Hback : locate w' (child (anchor dest) (parts dest)) = inr (s ++ parts dest) ∧
                  read_bytes (child (anchor dest) (parts dest)) w' = (inr data, w') ∧
                  is_dir w' (parent (child (anchor dest) (parts dest))) = true).
  { apply read_back; [done..| |].
    - intros k Hk. simpl. rewrite lookup_with_file.
      rewrite decide_False, decide_True; [done..|].
      intros ->. by apply (not_path_locs_removelast s (parts dest)).
    - simpl. rewrite lookup_with_file. by rewrite decide_True. }
  rewrite child_anchor in Hback. destruct Hback as (_ & Hread & Hdir).
  repeat split; [done..|].
  intros k Hk. simpl. rewrite lookup_with_file.
  rewrite decide_False.
  - rewrite decide_False; [done|]. intros Hin. by apply Hk, path_locs_removelast.
  - intros ->. apply Hk, path_locs_last.
Qed.

Lemma for_each_cons {S A} (x : A) (l : list A) (body : A → M S unit) :
  for_each (x :: l) body = bind (body x) (λ _, for_each l body).
Proof. reflexivity. Qed.





Lemma clear_wayb_correct m l rel : clear_wayb m l rel = true → clear_way m l rel.
Proof.
  unfold clear_wayb. rewrite forallb_forall. intros H k d Hk Hf.
  apply list_elem_of_In in Hk. specialize (H k Hk). by rewrite Hf in H.
Qed.

Lemma no_dotdotb_correct rel :
  forallb (λ n, negb (String.eqb n "..")) rel = true → Forall (λ n, n ≠ "..") rel.
Proof.
  rewrite forallb_forall. intros H. apply Forall_forall. intros n Hn.
  apply list_elem_of_In in Hn. specialize (H n Hn).
  by apply negb_true_iff, String.eqb_neq in H.
Qed.

Lemma writableb_correct m l rel : writableb m l rel = true → writable m l rel.
Proof.
  unfold writableb. rewrite !andb_true_iff. intros [[[H1 H2] H3] H4].
  split; [by destruct rel|]. split; [by apply no_dotdotb_correct|].
  split; [by apply clear_wayb_correct|]. intros Hd. by rewrite Hd in H4.
Qed.

(** ** What the writers leave alone *)

Lemma dirs_le_refl m : dirs_le m m.
Proof. by intros k Hk. Qed.

Lemma fs_step_same {A} (r : exn + A) w : w = set_fs (fs w) w ∧ dirs_le (fs w) (fs w).
Proof. split; [by rewrite set_fs_id|apply dirs_le_refl]. Qed.

Lemma fs_step_ret {A} (a : A) : fs_step (ret a).
Proof. intros w r w' [= <- <-]. by apply (fs_step_same (inr a)). Qed.

Lemma fs_step_raise {A} e : fs_step (raise (A:=A) e).
Proof. intros w r w' [= <- <-]. by apply (fs_step_same (inl e : exn + A)). Qed.

Lemma fs_step_gets {A} (f : World → A) : fs_step (gets f).
Proof. intros w r w' [= <- <-]. by apply (fs_step_same (inr (f w))). Qed.

Lemma fs_step_bind {A B} (c : M World A) (k : A → M World B) :
  fs_step c → (∀ a, fs_step (k a)) → fs_step (bind c k).
Proof.
  intros Hc Hk w r w'. unfold bind. destruct (c w) as [[e|a] w1] eqn:E.
  - intros [= <- <-]. by apply (Hc w (inl e)).
  - intros Hka. destruct (Hc _ _ _ E) as [E1 L1]. destruct (Hk _ _ _ _ Hka) as [E2 L2].
    split; [|by eapply dirs_le_trans]. rewrite E2, E1. reflexivity.
Qed.

Lemma fs_step_for_each {A} (l : list A) (body : A → M World unit) :
  (∀ x, fs_step (body x)) → fs_step (for_each l body).
Proof.
  intros Hb. induction l as [|x l IH]; [apply fs_step_ret|].
  rewrite for_each_cons. apply fs_step_bind; [apply Hb|by intros].
Qed.

Lemma dirs_le_insert_Dir m l : m !! l = None → dirs_le m (<[l := Dir]> m).
Proof.
  intros Hn k Hk. destruct (decide (l = k)) as [->|]; [congruence|].
  by rewrite lookup_insert_ne.
Qed.

Lemma dirs_le_insert_File m l data : m !! l ≠ Some Dir → dirs_le m (<[l := File data]> m).
Proof.
  intros Hn k Hk. destruct (decide (l = k)) as [->|]; [congruence|].
  by rewrite lookup_insert_ne.
Qed.

Lemma fs_step_os_mkdir p : fs_step (os_mkdir p).
Proof.
  intros w r w'. unfold os_mkdir. destruct (locate w p) as [e|l].
  - intros [= <- <-]. by apply (fs_step_same (inl (OSError e "") : exn + unit)).
  - destruct (fs w !! l) eqn:E.
    + intros [= <- <-]. by apply (fs_step_same (inl (OSError EEXIST "") : exn + unit)).
    + intros [= <- <-]. split; [done|]. simpl. by apply dirs_le_insert_Dir.
Qed.

Lemma fs_step_mkdir_single p exist_ok : fs_step (mkdir_single p exist_ok).
Proof.
  intros w r w'. unfold mkdir_single.
  destruct (os_mkdir p w) as [[e|[]] w1] eqn:E.
  - assert (Hsame : (r, w') = (r, w) → w' = set_fs (fs w') w ∧ dirs_le (fs w) (fs w')).
    { intros [= ->]. by apply (fs_step_same r). }
    destruct e as [| [] msg |]; try destruct (exist_ok && is_dir w p);
      intros [= <- <-]; by apply Hsame.
  - intros [= <- <-]. by apply (fs_step_os_mkdir p w (inr tt)).
Qed.

Lemma fs_step_mkdir_parents n : ∀ p exist_ok, fs_step (mkdir_parents n p exist_ok).
Proof.
  induction n as [|n IH]; intros p exist_ok w r w'; rewrite mkdir_parents_eq;
    destruct (os_mkdir p w) as [[e|[]] w1] eqn:E.
  - assert (Hsame : (r, w') = (r, w) → w' = set_fs (fs w') w ∧ dirs_le (fs w) (fs w')).
    { intros [= ->]. by apply (fs_step_same r). }
    destruct e as [| [] msg |]; try destruct (exist_ok && is_dir w p);
      intros [= <- <-]; by apply Hsame.
  - intros [= <- <-]. by apply (fs_step_os_mkdir p w (inr tt)).
  - assert (Hsame : (r, w') = (r, w) → w' = set_fs (fs w') w ∧ dirs_le (fs w) (fs w')).
    { intros [= ->]. by apply (fs_step_same r). }
    destruct e as [| [] msg |];
      try (destruct (exist_ok && is_dir w p); intros [= <- <-]; by apply Hsame).
    intros Hb.
    exact (fs_step_bind _ _ (IH _ _) (λ _, fs_step_mkdir_single _ _) w r w' Hb).
  - intros [= <- <-]. by apply (fs_step_os_mkdir p w (inr tt)).
Qed.

Lemma fs_step_mkdir p parents exist_ok : fs_step (mkdir p parents exist_ok).
Proof.
  unfold mkdir. destruct parents; [apply fs_step_mkdir_parents|apply fs_step_mkdir_single].
Qed.

Lemma fs_step_write_bytes p data : fs_step (write_bytes p data).
Proof.
  intros w r w'. unfold write_bytes. destruct (locate w p) as [e|l].
  - intros [= <- <-]. by apply (fs_step_same (inl (OSError e "") : exn + unit)).
  - destruct (fs w !! l) as [[d|]|] eqn:E; intros [= <- <-].
    + split; [done|]. simpl. apply dirs_le_insert_File. congruence.
    + by apply (fs_step_same (inl (OSError EISDIR "") : exn + unit)).
    + split; [done|]. simpl. apply dirs_le_insert_File. congruence.
Qed.

Lemma fs_step_write_optional_file output_path payload :
  fs_step (_write_optional_file output_path payload).
Proof.
  unfold _write_optional_file. destruct output_path as [path|], payload as [data|];
    try apply fs_step_ret.
  destruct (Py.truthy (Some path)); [|apply fs_step_ret].
  apply fs_step_bind; [apply fs_step_mkdir|intros; apply fs_step_write_bytes].
Qed.

Lemma fs_step_write_plot base entry : fs_step (write_plot base entry).
Proof.
  destruct entry as [rel blob]. unfold write_plot.
  apply fs_step_bind; [apply fs_step_mkdir|intros; apply fs_step_write_bytes].
Qed.

Lemma fs_step_write_plots plot_dir plots : fs_step (_write_plots plot_dir plots).
Proof.
  unfold _write_plots. destruct plot_dir as [dir|]; [|apply fs_step_ret].
  destruct (negb (Py.truthy (Some dir))); [apply fs_step_ret|].
  apply fs_step_bind; [apply fs_step_mkdir|intros].
  apply fs_step_for_each. apply fs_step_write_plot.
Qed.

Lemma is_dir_set_fs w m' p :
  dirs_le (fs w) m' → is_dir w p = true → is_dir (set_fs m' w) p = true.
Proof.
  intros Hle. unfold is_dir, stat.
  destruct (locate w p) as [e|l] eqn:El; [done|].
  rewrite (locate_mono w m' p l Hle El).
  destruct (fs w !! l) as [[d|]|] eqn:E; try done. simpl. by rewrite (Hle l E).
Qed.

Lemma is_dir_mono w w' p :
  w' = set_fs (fs w') w → dirs_le (fs w) (fs w') →
  is_dir w p = true → is_dir w' p = true.
Proof. intros Hw Hle Hd. rewrite Hw. by apply is_dir_set_fs. Qed.
Lemma outcome_pair {A S} (c : (exn + A) * S) (a : A) : c.1 = inr a → c = (inr a, c.2).
Proof. destruct c as [r s]. simpl. by intros ->. Qed.

Lemma collect_streams a completed w r w' :
  collect a completed w = (inr r, w') →
  res_stdout r = cp_stdout completed ∧ res_stderr r = cp_stderr completed.
Proof.
  unfold collect. intros H.
  apply bind_inv_ok in H as (fp & w1 & _ & H).
  apply bind_inv_ok in H as (pp & w2 & _ & H).
  unfold ret in H. by injection H as <- _.
Qed.

Lemma print_if_nonempty_out s w :
  (if negb (String.eqb s "") then print_out s else ret tt) w
  = (inr tt, set_stdout (stdout w +:+ s) w).
Proof.
  destruct (String.eqb s "") eqn:E; simpl; [|done].
  apply String.eqb_eq in E as ->. unfold ret. rewrite string_app_nil_r. by destruct w.
Qed.

Lemma print_if_nonempty_err s w :
  (if negb (String.eqb s "") then print_err s else ret tt) w
  = (inr tt, set_stderr (stderr w +:+ s) w).
Proof.
  destruct (String.eqb s "") eqn:E; simpl; [|done].
  apply String.eqb_eq in E as ->. unfold ret. rewrite string_app_nil_r. by destruct w.
Qed.

(** The four writers of [write_back], run one after the other. *)
Lemma fs_step_writers a r :
  fs_step (_write_optional_file (launcher.output_path a) (files_get (files r) "mean") ;;;
           _write_optional_file (launcher.per_res_output a) (files_get (files r) "per_res") ;;;
           _write_optional_file (launcher.per_segment_output a)
             (files_get (files r) "per_segment") ;;;
           _write_plots (launcher.plot_dir a) (plots r)).
Proof.
  repeat (apply fs_step_bind; [apply fs_step_write_optional_file|intros _]).
  apply fs_step_write_plots.
Qed.

Lemma bind_assoc {S A B C} (c : M S A) (k : A → M S B) (h : B → M S C) s :
  bind (bind c k) h s = bind c (λ a, bind (k a) h) s.
Proof. unfold bind. by destruct (c s) as [[e|a] s']. Qed.

(** [write_back] either raises in one of its writers, before anything is
    printed, or returns after appending the captured texts to the two
    streams. *)
Lemma write_back_streams a r w :
  match write_back a r w with
  | (inr _, w') =>
      stdout w' = stdout w +:+ res_stdout r ∧ stderr w' = stderr w +:+ res_stderr r
  | (inl _, w') => stdout w' = stdout w ∧ stderr w' = stderr w
  end.
Proof.
  assert (Hwb : write_back a r w =
    bind (_write_optional_file (launcher.output_path a) (files_get (files r) "mean") ;;;
          _write_optional_file (launcher.per_res_output a) (files_get (files r) "per_res") ;;;
          _write_optional_file (launcher.per_segment_output a)
            (files_get (files r) "per_segment") ;;;
          _write_plots (launcher.plot_dir a) (plots r))
      (λ _, (if negb (String.eqb (res_stdout r) "") then print_out (res_stdout r)
             else ret tt) ;;;
            (if negb (String.eqb (res_stderr r) "") then print_err (res_stderr r)
             else ret tt)) w).
  { unfold write_back, bind.
    destruct (_write_optional_file (launcher.output_path a) _ w) as [[e|[]] w1]; [done|].
    destruct (_write_optional_file (launcher.per_res_output a) _ w1) as [[e|[]] w2];
      [done|].
    by destruct (_write_optional_file (launcher.per_segment_output a) _ w2)
      as [[e|[]] w3]. }
  rewrite Hwb. unfold bind at 1.
  match goal with |- context [match ?c w with _ => _ end] =>
    destruct (c w) as [[e|[]] w1] eqn:E; pose proof (fs_step_writers a r w _ _ E) as [Hw _]
  end.
  - rewrite Hw. done.
  - unfold bind. rewrite print_if_nonempty_out, print_if_nonempty_err. simpl.
    rewrite Hw. done.
Qed.

(** X3.  A failure of the worker reaches the caller of [main] unchanged and
    leaves the local machine as it was.  In particular, when the
    predictor exits with a nonzero code, [main] raises the worker's
    [RuntimeError] with the diagnostic message; no local file is written
    and nothing is printed.  The remote call is recorded, and the remote
    machine keeps what the worker and the predictor left there. *)
Theorem main_propagates_worker_failure tool a s data :
  stat (local s) (Path (launcher.fasta_path a)) = inr (File data) →
  let ra := remote_args a (Path (launcher.fasta_path a)) data in
  (∀ e rw, run_temstapro tool ra (remote s) = (inl e, rw) →
     main tool a s
     = (inl e, {| local := local s; remote := rw; calls := calls s ++ [ra] |})) ∧
  (∀ w1 completed m,
     stage ra (remote s) = (inr tt, w1) →
     tool (worker_cmd ra) w1 = (completed, m) →
     returncode completed ≠ 0%Z →
     main tool a s
     = (inl (RuntimeError (failure_message completed)),
        {| local := local s; remote := set_fs m w1; calls := calls s ++ [ra] |})).
Proof.
  intros Hstat ra. split.
  - intros e rw Hrun. rewrite (main_unfold _ _ _ _ Hstat). simpl. fold ra. by rewrite Hrun.
  - intros w1 completed m Hstage Htool Hrc.
    rewrite (main_unfold _ _ _ _ Hstat). simpl. fold ra.
    rewrite run_temstapro_unfold, Hstage, Htool. by rewrite decide_True.
Qed.

Lemma main_propagates_worker_failure_witness :
  (main Demo.bad_tool Demo.scenario Demo.sys0).1
    = inl (RuntimeError "TemStaPro execution failed with return code 2
STDOUT:
out
STDERR:
boom") ∧
  local (main Demo.bad_tool Demo.scenario Demo.sys0).2 = Demo.local_world.
Proof.
  pose proof (main_propagates_worker_failure Demo.bad_tool Demo.scenario Demo.sys0
                (Demo.b ">p1 MKV") eq_refl) as [_ H].
  set (ra := remote_args Demo.scenario (Path (launcher.fasta_path Demo.scenario))
               (Demo.b ">p1 MKV")) in *.
  rewrite (H (stage ra (remote Demo.sys0)).2
             (Demo.bad_tool (worker_cmd ra) (stage ra (remote Demo.sys0)).2).1
             (Demo.bad_tool (worker_cmd ra) (stage ra (remote Demo.sys0)).2).2).
  - split; reflexivity.
  - apply outcome_pair. vm_compute. reflexivity.
  - apply surjective_pairing.
  - discriminate.
Defined.

(** X4.  What the launcher prints.  After a staging that succeeded and a
    predictor that returned [completed]: when [main] returns normally,
    the local standard output is what it was followed by the captured
    standard output of the predictor, and the local standard error is
    what it was followed by the captured standard error; when [main]
    raises, whatever the reason, neither stream has changed. *)
Theorem main_emits_captured_output tool a s data w1 completed m :
  stat (local s) (Path (launcher.fasta_path a)) = inr (File data) →
  stage (remote_args a (Path (launcher.fasta_path a)) data) (remote s) = (inr tt, w1) →
  tool (worker_cmd (remote_args a (Path (launcher.fasta_path a)) data)) w1
    = (completed, m) →
  match main tool a s with
  | (inr _, s') =>
      stdout (local s') = stdout (local s) +:+ cp_stdout completed ∧
      stderr (local s') = stderr (local s) +:+ cp_stderr completed
  | (inl _, s') =>
      stdout (local s') = stdout (local s) ∧ stderr (local s') = stderr (local s)
  end.
Proof.
  intros Hstat Hstage Htool.
  rewrite (main_unfold _ _ _ _ Hstat). simpl.
  rewrite run_temstapro_unfold, Hstage, Htool.
  destruct (decide (returncode completed ≠ 0%Z)); [done|].
  destruct (collect _ completed (set_fs m w1)) as [[e|r] rw] eqn:Ec; [done|].
  apply collect_streams in Ec as [<- <-].
  pose proof (write_back_streams a r (local s)) as Hwb.
  by destruct (write_back a r (local s)) as [[e|[]] l].
Qed.

Lemma main_emits_captured_output_witness :
  stdout (local (main Demo.good_tool Demo.scenario Demo.sys0).2) = "done" ∧
  stderr (local (main Demo.good_tool Demo.scenario Demo.sys0).2) = "".
Proof.
  set (ra := remote_args Demo.scenario (Path (launcher.fasta_path Demo.scenario))
               (Demo.b ">p1 MKV")).
  pose proof (main_emits_captured_output Demo.good_tool Demo.scenario Demo.sys0
                (Demo.b ">p1 MKV") (stage ra (remote Demo.sys0)).2
                (Demo.good_tool (worker_cmd ra) (stage ra (remote Demo.sys0)).2).1
                (Demo.good_tool (worker_cmd ra) (stage ra (remote Demo.sys0)).2).2
                eq_refl) as H.
  destruct (main Demo.good_tool Demo.scenario Demo.sys0) as [[e|[]] s'] eqn:E.
  - exfalso. apply (f_equal fst) in E. vm_compute in E. discriminate E.
  - simpl. apply H.
    + apply outcome_pair. vm_compute. reflexivity.
    + apply surjective_pairing.
Defined.

(** ** Staging on the worker: caches, scratch directory, input *)

Lemma with_dirs_app m l1 l2 : with_dirs m (l1 ++ l2) = with_dirs (with_dirs m l2) l1.
Proof. unfold with_dirs. by rewrite foldr_app. Qed.

Lemma clear_way_with_dirs m locs l rel :
  clear_way m l rel → clear_way (with_dirs m locs) l rel.
Proof.
  intros H k d Hk. rewrite lookup_with_dirs.
  destruct (decide (k ∈ locs)); [done|by apply H].
Qed.

Lemma clear_way_prefix m l pre rel :
  pre `prefix_of` rel → clear_way m l rel → clear_way m l pre.
Proof.
  intros Hp H k d Hk. apply H.
  apply elem_of_path_locs in Hk as (q & Hq & ->).
  apply elem_of_path_locs. exists q. split; [by etrans|done].
Qed.

(** [mkdir(parents=True, exist_ok=True)] when no regular file is in the
    way. *)
Lemma mkdir_clear p w :
  Forall (λ n, n ≠ "..") (parts p) →
  fs w !! start w p = Some Dir → clear_way (fs w) (start w p) (parts p) →
  mkdir p true true w
  = (inr tt, set_fs (with_dirs (fs w) (path_locs (start w p) (parts p))) w).
Proof.
  intros Hnd Hs Hclear. unfold mkdir.
  pose proof (mkdir_parents_child (anchor p) (start w p) (parts p) (length (parts p)) w)
    as H.
  rewrite child_anchor in H. apply H; [lia|done|apply locate_anchor|done..].
Qed.

Lemma located_dirs w p :
  Forall (λ n, n ≠ "..") (parts p) →
  (∀ k, k ∈ path_locs (start w p) (parts p) → fs w !! k = Some Dir) →
  locate w p = inr (start w p ++ parts p) ∧ is_dir w p = true.
Proof.
  intros Hnd H.
  assert (Hl : locate w p = inr (start w p ++ parts p)).
  { unfold locate. apply walk_dirs; [done|].
    intros pre Hpre _. apply H, elem_of_path_locs. by exists pre. }
  split; [done|]. apply (is_dir_at _ _ _ Hl), H, path_locs_last.
Qed.

Lemma environ_setdefault_run k v w :
  environ_setdefault k v w = (inr tt, set_environ (setdefault k v (environ w)) w).
Proof.
  unfold environ_setdefault, setdefault.
  destruct (environ w !! k); [|done]. by destruct w.
Qed.

Lemma lookup_setdefault k v e j :
  setdefault k v e !! j = if decide (j = k) then Some (default v (e !! k)) else e !! j.
Proof.
  unfold setdefault. destruct (decide (j = k)) as [->|Hne].
  - destruct (e !! k) eqn:E; simpl; [done|by rewrite lookup_insert_eq].
  - destruct (e !! k); [done|by rewrite lookup_insert_ne].
Qed.

Lemma env_prepare_run w :
  fs w !! [] = Some Dir →
  clear_way (fs w) [] (parts PROTTRANS_DIR) →
  clear_way (fs w) [] (parts EMBEDDINGS_CACHE_ROOT) →
  _env_prepare w
  = (inr tt, set_environ (cache_environ (environ w)) (set_fs (cache_dirs (fs w)) w)).
Proof.
  intros Hroot Hp He.
  assert (Hh : clear_way (fs w) [] (parts HF_CACHE_ROOT)).
  { apply (clear_way_prefix _ _ _ (parts PROTTRANS_DIR)); [by exists ["prottrans"]|done]. }
  assert (Hnd : ∀ p, p ∈ [HF_CACHE_ROOT; EMBEDDINGS_CACHE_ROOT; PROTTRANS_DIR] →
                     Forall (λ n, n ≠ "..") (parts p)).
  { intros p. rewrite !elem_of_cons, elem_of_nil.
    intros [->|[->|[->|[]]]]; repeat constructor; discriminate. }
  set (m1 := with_dirs (fs w) (path_locs [] (parts HF_CACHE_ROOT))).
  set (m2 := with_dirs m1 (path_locs [] (parts EMBEDDINGS_CACHE_ROOT))).
  set (m3 := with_dirs m2 (path_locs [] (parts PROTTRANS_DIR))).
  assert (H1 : mkdir HF_CACHE_ROOT true true w = (inr tt, set_fs m1 w)).
  { apply (mkdir_clear HF_CACHE_ROOT w); [apply Hnd; by left|done..]. }
  assert (H2 : mkdir EMBEDDINGS_CACHE_ROOT true true (set_fs m1 w) = (inr tt, set_fs m2 w)).
  { apply (mkdir_clear EMBEDDINGS_CACHE_ROOT (set_fs m1 w)).
    - apply Hnd. right. by left.
    - by apply dirs_le_with_dirs.
    - by apply clear_way_with_dirs. }
  assert (H3 : mkdir PROTTRANS_DIR true true (set_fs m2 w) = (inr tt, set_fs m3 w)).
  { apply (mkdir_clear PROTTRANS_DIR (set_fs m2 w)).
    - apply Hnd. right. right. by left.
    - by apply dirs_le_with_dirs, dirs_le_with_dirs.
    - by apply clear_way_with_dirs, clear_way_with_dirs. }
  unfold _env_prepare. rewrite !for_each_cons. unfold bind.
  rewrite H1, H2, H3. cbn [for_each ret].
  rewrite !environ_setdefault_run.
  unfold cache_dirs. rewrite !with_dirs_app. reflexivity.
Qed.

Lemma lookup_emptied m l k :
  emptied m l !! k = if decide (l `prefix_of` k) then None else m !! k.
Proof.
  unfold emptied. destruct (decide (l `prefix_of` k)) as [H|H].
  - apply map_lookup_filter_None. right. intros x _ Hx. by apply Hx.
  - destruct (m !! k) as [x|] eqn:E.
    + apply map_lookup_filter_Some. by split.
    + apply map_lookup_filter_None. by left.
Qed.

Lemma clear_way_emptied m x l rel : clear_way m l rel → clear_way (emptied m x) l rel.
Proof.
  intros H k d Hk. rewrite lookup_emptied.
  destruct (decide (x `prefix_of` k)); [done|by apply H].
Qed.

(** In a well-formed file system nothing is below a place where nothing
    is. *)
Lemma emptied_absent m l : fs_wf m → m !! l = None → emptied m l = m.
Proof.
  intros Hwf Hn. apply map_eq. intros k. rewrite lookup_emptied.
  destruct (decide (l `prefix_of` k)) as [[rel ->]|]; [|done].
  destruct (m !! (l ++ rel)) eqn:E; [|done]. exfalso.
  destruct (wf_ancestors m l rel Hwf) as [Hd _]; [by rewrite E|].
  destruct (decide (rel = [])) as [->|Hne].
  - rewrite app_nil_r in E. congruence.
  - specialize (Hd [] (prefix_nil _)). rewrite app_nil_r in Hd.
    rewrite Hd in Hn; [done|]. by intros <-.
Qed.

(** [if p.exists(): shutil.rmtree(p)]. *)
Lemma rmtree_if_exists p w :
  fs_wf (fs w) → Forall (λ n, n ≠ "..") (parts p) →
  (∀ data, fs w !! (start w p ++ parts p) ≠ Some (File data)) →
  (if exists_ w p then rmtree p else ret tt) w
  = (inr tt, set_fs (emptied (fs w) (start w p ++ parts p)) w).
Proof.
  intros Hwf Hnd Hnf. unfold exists_, stat, rmtree.
  destruct (locate w p) as [e|l] eqn:Hl.
  - rewrite emptied_absent, set_fs_id; [done..|].
    destruct (fs w !! (start w p ++ parts p)) eqn:E; [|done]. exfalso.
    destruct (wf_ancestors (fs w) (start w p) (parts p) Hwf) as [Hd _]; [by rewrite E|].
    unfold locate in Hl. by rewrite (walk_dirs _ _ _ Hnd Hd) in Hl.
  - pose proof (walk_names _ _ _ _ Hnd Hl) as ->.
    destruct (fs w !! (start w p ++ parts p)) as [[d|]|] eqn:E.
    + by destruct (Hnf d).
    + rewrite Hl, E. done.
    + by rewrite emptied_absent, set_fs_id.
Qed.

Lemma clear_way_below_emptied m l x locs :
  (∀ k, k ∈ path_locs [] l → k ∈ locs) →
  clear_way (with_dirs (emptied m l) locs) [] (l ++ [x]).
Proof.
  intros Hsub k d Hk. rewrite path_locs_snoc in Hk. rewrite lookup_with_dirs.
  destruct (decide (k ∈ locs)) as [|Hnin]; [done|].
  apply elem_of_app in Hk as [Hk|Hk]; [by destruct Hnin; apply Hsub|].
  apply list_elem_of_singleton in Hk as ->. rewrite lookup_emptied.
  rewrite decide_True; [done|]. by exists [x].
Qed.

Lemma prepare_workdir_run n w :
  fs_wf (fs w) → clear_way (fs w) [] (parts REMOTE_FASTA_DIR) →
  _prepare_workdir n w
  = (inr (REMOTE_FASTA_DIR // n, outputs_path, plots_path), set_fs (scratch (fs w)) w).
Proof.
  intros Hwf Hclear.
  set (S0 := parts REMOTE_FASTA_DIR).
  set (m0 := emptied (fs w) S0).
  set (m1 := with_dirs m0 (path_locs [] S0)).
  set (m2 := with_dirs m1 (path_locs [] (parts outputs_path))).
  set (m3 := with_dirs m2 (path_locs [] (parts plots_path))).
  assert (H0 : (if exists_ w REMOTE_FASTA_DIR then rmtree REMOTE_FASTA_DIR else ret tt) w
               = (inr tt, set_fs m0 w)).
  { apply (rmtree_if_exists REMOTE_FASTA_DIR w Hwf).
    - repeat constructor; discriminate.
    - intros d. apply Hclear, (path_locs_last [] _). }
  assert (Hroot : m0 !! [] = Some Dir).
  { unfold m0. rewrite lookup_emptied. rewrite decide_False; [apply Hwf|].
    intros [k Hk]. discriminate Hk. }
  assert (H1 : mkdir REMOTE_FASTA_DIR true true (set_fs m0 w) = (inr tt, set_fs m1 w)).
  { apply (mkdir_clear REMOTE_FASTA_DIR (set_fs m0 w)).
    - repeat constructor; discriminate.
    - exact Hroot.
    - by apply clear_way_emptied. }
  assert (H2 : mkdir outputs_path true true (set_fs m1 w) = (inr tt, set_fs m2 w)).
  { apply (mkdir_clear outputs_path (set_fs m1 w)).
    - repeat constructor; discriminate.
    - by apply dirs_le_with_dirs.
    - apply (clear_way_below_emptied (fs w) S0 "outputs"). done. }
  assert (H3 : mkdir plots_path true true (set_fs m2 w) = (inr tt, set_fs m3 w)).
  { apply (mkdir_clear plots_path (set_fs m2 w)).
    - repeat constructor; discriminate.
    - by apply dirs_le_with_dirs, dirs_le_with_dirs.
    - apply clear_way_with_dirs.
      apply (clear_way_below_emptied (fs w) S0 "plots"). done. }
  unfold _prepare_workdir. unfold bind at 1, gets. unfold bind at 1. rewrite H0.
  fold outputs_path plots_path.
  unfold bind. rewrite H1, H2, H3.
  unfold scratch. rewrite !with_dirs_app. reflexivity.
Qed.
Lemma fs_wf_with_dirs m rel :
  fs_wf m → Forall (λ n, valid_name n = true) rel →
  fs_wf (with_dirs m (path_locs [] rel)).
Proof.
  intros [Hroot Hwf] Hv. split.
  - by apply dirs_le_with_dirs.
  - intros l n. rewrite lookup_with_dirs.
    destruct (decide (l ++ [n] ∈ path_locs [] rel)) as [Hin|Hnin].
    + intros _. apply elem_of_path_locs in Hin as (pre & Hpre & Heq).
      simpl in Heq. subst pre. split.
      * apply path_locs_dirs_with_dirs, elem_of_path_locs. exists l. split; [|done].
        etrans; [|exact Hpre]. by exists [n].
      * rewrite Forall_forall in Hv. apply Hv. destruct Hpre as [k ->].
        rewrite !elem_of_app. left. right. by left.
    + intros Hs. destruct (Hwf l n Hs) as [Hd Hn]. split; [by apply dirs_le_with_dirs|done].
Qed.

Lemma fs_wf_cache_dirs m : fs_wf m → fs_wf (cache_dirs m).
Proof.
  intros H. unfold cache_dirs. rewrite !with_dirs_app.
  repeat apply fs_wf_with_dirs; try done; by repeat constructor.
Qed.

Lemma stageableb_correct m : stageableb m = true → stageable m.
Proof.
  unfold stageableb. rewrite !andb_true_iff. intros [[[H1 H2] H3] H4].
  split; [by apply fs_wfb_correct|]. repeat split; by apply clear_wayb_correct.
Qed.

(** The scratch directory right after [_prepare_workdir]: itself and two
    empty directories. *)
Lemma lookup_scratch_below m rel :
  scratch m !! (parts REMOTE_FASTA_DIR ++ rel)
  = if decide (rel ∈ [[]; ["outputs"]; ["plots"]]) then Some Dir else None.
Proof.
  unfold scratch. rewrite lookup_with_dirs, lookup_emptied.
  rewrite (decide_True (P := _ `prefix_of` _)) by by exists rel.
  destruct (decide (rel ∈ [[]; ["outputs"]; ["plots"]])) as [Hin|Hnin].
  - rewrite decide_True; [done|]. rewrite !elem_of_cons, elem_of_nil in Hin.
    apply list_elem_of_In.
    destruct Hin as [->|[->|[->|[]]]]; simpl; auto 10.
  - rewrite decide_False; [done|]. intros Hin. apply Hnin.
    apply list_elem_of_In in Hin. simpl in Hin. rewrite !elem_of_cons.
    repeat destruct Hin as [Hin|Hin]; try discriminate Hin; try done;
      injection Hin as <-; auto.
Qed.

Lemma lookup_scratch_outside m k :
  m !! [] = Some Dir → ¬ parts REMOTE_FASTA_DIR `prefix_of` k → k ≠ ["tmp"] →
  scratch m !! k = m !! k.
Proof.
  intros Hroot Hnp Hne. unfold scratch. rewrite lookup_with_dirs, lookup_emptied.
  rewrite (decide_False (P := _ `prefix_of` _)) by done.
  destruct (decide (k ∈ _)) as [Hin|]; [|done].
  apply list_elem_of_In in Hin. simpl in Hin.
  repeat destruct Hin as [Hin|Hin]; try done; subst k; try done;
    destruct Hnp; by eexists.
Qed.

Lemma locate_scratch w m :
  (∀ rel, rel ∈ [[]; ["outputs"]; ["plots"]] →
          m !! (parts REMOTE_FASTA_DIR ++ rel) = Some Dir) →
  m !! [] = Some Dir → m !! ["tmp"] = Some Dir →
  ∀ rel, Forall (λ n, n ≠ "..") rel → (length rel ≤ 1)%nat →
    locate (set_fs m w) (child REMOTE_FASTA_DIR rel)
    = inr (parts REMOTE_FASTA_DIR ++ rel).
Proof.
  intros Hs Hroot Htmp rel Hnd Hlen.
  pose proof (Hs [] ltac:(by left)) as H0. rewrite app_nil_r in H0.
  unfold locate. change (start _ _) with (@nil string).
  change (parts (child REMOTE_FASTA_DIR rel)) with (parts REMOTE_FASTA_DIR ++ rel).
  apply (walk_dirs _ []).
  - apply Forall_app. split; [|done]. repeat constructor; discriminate.
  - intros pre Hpre Hne. simpl.
    assert (Hp : pre `prefix_of` parts REMOTE_FASTA_DIR).
    { destruct rel as [|c [|]]; [| |simpl in Hlen; lia].
      - rewrite app_nil_r in Hpre. done.
      - by apply (prefix_snoc_inv pre (parts REMOTE_FASTA_DIR) c). }
    destruct Hp as [k Hk].
    destruct pre as [|x [|y [|]]]; [done| | |discriminate Hk].
    + by injection Hk as <-.
    + by injection Hk as <- <-.
Qed.

Lemma scratch_dirs m :
  m !! [] = Some Dir →
  (∀ rel, rel ∈ [[]; ["outputs"]; ["plots"]] →
          scratch m !! (parts REMOTE_FASTA_DIR ++ rel) = Some Dir) ∧
  scratch m !! [] = Some Dir ∧ scratch m !! ["tmp"] = Some Dir.
Proof.
  intros Hroot. split; [|split].
  - intros rel Hrel. rewrite lookup_scratch_below. by rewrite decide_True.
  - rewrite lookup_scratch_outside; [done..| |done]. intros [k Hk]. discriminate Hk.
  - unfold scratch. rewrite lookup_with_dirs. rewrite decide_True; [done|].
    apply list_elem_of_In. simpl. auto.
Qed.

(** The worker up to [_prepare_workdir]. *)
Lemma prepare_run a w :
  stageable (fs w) →
  (_env_prepare ;;; _prepare_workdir (worker.fasta_name a)) w
  = (inr (input_path_of a, outputs_path, plots_path),
     set_environ (cache_environ (environ w)) (set_fs (scratch (cache_dirs (fs w))) w)).
Proof.
  intros (Hwf & Hp & He & Hs). unfold bind.
  rewrite env_prepare_run by (done || apply Hwf).
  rewrite prepare_workdir_run; [done|by apply fs_wf_cache_dirs|].
  by apply clear_way_with_dirs.
Qed.

Lemma stage_eq a w :
  stage a w =
  match (_env_prepare ;;; _prepare_workdir (worker.fasta_name a)) w with
  | (inr dirs, w1) => write_bytes dirs.1.1 (worker.fasta_bytes a) w1
  | (inl e, w1) => (inl e, w1)
  end.
Proof.
  unfold stage, bind. destruct (_env_prepare w) as [[e|[]] w0]; [done|].
  by destruct (_prepare_workdir _ w0) as [[e|dirs] w1].
Qed.

Lemma stage_run a w :
  stageable (fs w) → valid_name (worker.fasta_name a) = true →
  worker.fasta_name a ∉ ["outputs"; "plots"] →
  stage a w = (inr tt, staged a w).
Proof.
  intros Hst Hn Hnin. rewrite stage_eq, (prepare_run a w Hst). cbn [fst].
  set (w1 := set_environ _ _).
  pose proof (scratch_dirs (cache_dirs (fs w))) as (Hd & Hroot & Htmp).
  { apply fs_wf_cache_dirs, Hst. }
  unfold input_path_of. rewrite (truediv_simple _ _ (valid_name_simple _ Hn)).
  rewrite (write_bytes_at w1 _ (parts REMOTE_FASTA_DIR ++ [worker.fasta_name a])).
  - reflexivity.
  - apply (locate_scratch w1 (fs w1)); [done..| |simpl; lia].
    apply valid_name_spec in Hn as (_ & _ & Hn & _). by repeat constructor.
  - change (fs w1) with (scratch (cache_dirs (fs w))). rewrite lookup_scratch_below.
    rewrite decide_False; [done|]. rewrite !elem_of_cons, elem_of_nil.
    intros [H|[H|[H|[]]]]; [discriminate H| |]; injection H as H; apply Hnin;
      rewrite H; [by left|right; by left].
Qed.

Lemma lookup_cache_environ e k :
  cache_environ e !! k
  = match list_find (λ kv, kv.1 = k) cache_vars with
    | Some (_, kv) => Some (default kv.2 (e !! k))
    | None => e !! k
    end.
Proof.
  unfold cache_environ, cache_vars. cbn [foldl fst snd].
  rewrite !lookup_setdefault.
  repeat (destruct (decide (k = _)) as [->|?]; [reflexivity|]).
  cbn [list_find]. rewrite !decide_False by done. reflexivity.
Qed.
Lemma lookup_staged_below a w rel :
  fs (staged a w) !! (parts REMOTE_FASTA_DIR ++ rel)
  = if decide (rel = [worker.fasta_name a]) then Some (File (worker.fasta_bytes a))
    else if decide (rel ∈ [[]; ["outputs"]; ["plots"]]) then Some Dir else None.
Proof.
  change (fs (staged a w))
    with (<[parts REMOTE_FASTA_DIR ++ [worker.fasta_name a] :=
              File (worker.fasta_bytes a)]> (scratch (cache_dirs (fs w)))).
  destruct (decide (rel = [worker.fasta_name a])) as [->|Hne].
  - by rewrite lookup_insert_eq.
  - rewrite lookup_insert_ne; [apply lookup_scratch_below|].
    intros E. by apply (inj (app _)) in E.
Qed.

Lemma lookup_cache_dirs_Some m k n :
  clear_way m [] (parts PROTTRANS_DIR) → clear_way m [] (parts EMBEDDINGS_CACHE_ROOT) →
  m !! k = Some n → cache_dirs m !! k = Some n.
Proof.
  intros Hp He Hk. unfold cache_dirs. rewrite lookup_with_dirs.
  destruct (decide (k ∈ _)) as [Hin|]; [|done].
  destruct n as [d|]; [|done]. exfalso.
  rewrite !elem_of_app in Hin. destruct Hin as [Hin|[Hin|Hin]].
  - by apply (Hp k d).
  - by apply (He k d).
  - apply (Hp k d); [|done]. apply elem_of_path_locs in Hin as (pre & Hpre & ->).
    apply elem_of_path_locs. exists pre. split; [|done].
    etrans; [exact Hpre|]. by exists ["prottrans"].
Qed.

Lemma lookup_scratch_Some m k n :
  m !! [] = Some Dir → clear_way m [] (parts REMOTE_FASTA_DIR) →
  ¬ parts REMOTE_FASTA_DIR `prefix_of` k →
  m !! k = Some n → scratch m !! k = Some n.
Proof.
  intros Hroot Hs Hnp Hk. destruct (decide (k = ["tmp"])) as [->|Hne].
  - destruct (scratch_dirs m Hroot) as (_ & _ & ->). destruct n as [d|]; [|done].
    destruct (Hs ["tmp"] d); [|done]. apply elem_of_path_locs. exists ["tmp"].
    split; [by exists ["temstapro"]|done].
  - by rewrite lookup_scratch_outside.
Qed.

(** X5.  [_env_prepare] on a file system whose root is a directory and
    where no regular file stands at or on the way to [/cache/hf/prottrans]
    and [/cache/embeddings]: it returns normally; afterwards the three
    cache paths are directories; each of [HF_HOME], [TRANSFORMERS_CACHE],
    [XDG_CACHE_HOME], [TORCH_HOME] keeps the value it had and gets its
    cache path when it was unset; no other variable changes; every file
    and directory that was there is still there with the same content;
    the working directory and the two streams are untouched. *)
Theorem env_prepare_sets_caches w :
  fs w !! [] = Some Dir →
  clear_way (fs w) [] (parts PROTTRANS_DIR) →
  clear_way (fs w) [] (parts EMBEDDINGS_CACHE_ROOT) →
  ∃ w', _env_prepare w = (inr tt, w') ∧
    (∀ p, p ∈ [HF_CACHE_ROOT; EMBEDDINGS_CACHE_ROOT; PROTTRANS_DIR] → is_dir w' p = true) ∧
    (∀ k v, (k, v) ∈ [ ("HF_HOME", "/cache/hf");
                       ("TRANSFORMERS_CACHE", "/cache/hf/transformers");
                       ("XDG_CACHE_HOME", "/cache/hf");
                       ("TORCH_HOME", "/cache/hf/torch") ] →
       environ w' !! k = Some (default v (environ w !! k))) ∧
    (∀ k, k ∉ ["HF_HOME"; "TRANSFORMERS_CACHE"; "XDG_CACHE_HOME"; "TORCH_HOME"] →
       environ w' !! k = environ w !! k) ∧
    (∀ k n, fs w !! k = Some n → fs w' !! k = Some n) ∧
    cwd w' = cwd w ∧ stdout w' = stdout w ∧ stderr w' = stderr w.
Proof.
  intros Hroot Hp He. eexists. split; [by apply env_prepare_run|].
  split; [|split; [|split; [|split]]].
  - intros p Hin. apply located_dirs.
    + rewrite !elem_of_cons, elem_of_nil in Hin.
      destruct Hin as [->|[->|[->|[]]]]; repeat constructor; discriminate.
    + intros k Hk. simpl. unfold cache_dirs. rewrite lookup_with_dirs.
      rewrite decide_True; [done|]. rewrite !elem_of_app.
      rewrite !elem_of_cons, elem_of_nil in Hin.
      destruct Hin as [->|[->|[->|[]]]]; auto.
  - intros k v Hin. simpl. rewrite lookup_cache_environ.
    rewrite !elem_of_cons, elem_of_nil in Hin.
    destruct Hin as [[= -> ->]|[[= -> ->]|[[= -> ->]|[[= -> ->]|[]]]]]; reflexivity.
  - intros k Hk. simpl. rewrite lookup_cache_environ.
    rewrite !elem_of_cons, elem_of_nil in Hk.
    unfold cache_vars. cbn [list_find fst].
    repeat (rewrite decide_False; [|intros E; apply Hk; rewrite <- E; auto 10]).
    reflexivity.
  - intros k n Hk. simpl. by apply lookup_cache_dirs_Some.
  - done.
Qed.

Lemma env_prepare_sets_caches_witness :
  ∃ w', _env_prepare (set_environ {[ "HF_HOME" := "/models" ]} Demo.empty_world)
          = (inr tt, w') ∧
        environ w' !! "HF_HOME" = Some "/models" ∧
        environ w' !! "TORCH_HOME" = Some "/cache/hf/torch" ∧
        is_dir w' PROTTRANS_DIR = true.
Proof.
  destruct (env_prepare_sets_caches
              (set_environ {[ "HF_HOME" := "/models" ]} Demo.empty_world))
    as (w' & Hrun & Hdirs & Hvars & _).
  - vm_compute. reflexivity.
  - apply clear_wayb_correct. vm_compute. reflexivity.
  - apply clear_wayb_correct. vm_compute. reflexivity.
  - exists w'. split; [exact Hrun|]. split; [|split].
    + rewrite (Hvars "HF_HOME" "/cache/hf") by by left. vm_compute. reflexivity.
    + rewrite (Hvars "TORCH_HOME" "/cache/hf/torch") by (do 3 right; by left).
      vm_compute. reflexivity.
    + apply Hdirs. do 2 right. by left.
Defined.

(** X6.  [_prepare_workdir] on a well-formed file system where no regular
    file stands at [/tmp], or at [/tmp/temstapro]: it returns the three
    paths [/tmp/temstapro/<fasta_name>], [/tmp/temstapro/outputs] and
    [/tmp/temstapro/plots]; afterwards the scratch directory holds the two
    empty directories [outputs] and [plots] and nothing else, whatever was
    in it before; and outside the scratch directory nothing was removed or
    changed. *)
Theorem prepare_workdir_clean fasta_name w :
  fs_wf (fs w) → clear_way (fs w) [] (parts REMOTE_FASTA_DIR) →
  ∃ w', _prepare_workdir fasta_name w
        = (inr (REMOTE_FASTA_DIR // fasta_name,
                REMOTE_FASTA_DIR // "outputs", REMOTE_FASTA_DIR // "plots"), w') ∧
    is_dir w' REMOTE_FASTA_DIR = true ∧
    is_dir w' (REMOTE_FASTA_DIR // "outputs") = true ∧
    is_dir w' (REMOTE_FASTA_DIR // "plots") = true ∧
    (∀ rel, fs w' !! (parts REMOTE_FASTA_DIR ++ rel)
            = if decide (rel ∈ [[]; ["outputs"]; ["plots"]]) then Some Dir else None) ∧
    (∀ k n, ¬ parts REMOTE_FASTA_DIR `prefix_of` k →
            fs w !! k = Some n → fs w' !! k = Some n) ∧
    (∀ k, ¬ parts REMOTE_FASTA_DIR `prefix_of` k → k ≠ ["tmp"] →
          fs w' !! k = fs w !! k) ∧
    w' = set_fs (fs w') w.
Proof.
  intros Hwf Hclear. eexists. split; [by apply prepare_workdir_run|].
  destruct (scratch_dirs (fs w) (proj1 Hwf)) as (Hd & Hroot & Htmp).
  pose proof (locate_scratch w (scratch (fs w)) Hd Hroot Htmp) as Hloc.
  assert (Hdir : ∀ rel, rel ∈ [[]; ["outputs"]; ["plots"]] →
                        is_dir (set_fs (scratch (fs w)) w) (child REMOTE_FASTA_DIR rel) = true).
  { intros rel Hrel. apply (is_dir_at _ _ (parts REMOTE_FASTA_DIR ++ rel)); [|by apply Hd].
    apply Hloc; rewrite !elem_of_cons, elem_of_nil in Hrel;
      destruct Hrel as [->|[->|[->|[]]]]; simpl; try lia; repeat constructor; discriminate. }
  split; [apply (Hdir []); by left|].
  split; [apply (Hdir ["outputs"]); right; by left|].
  split; [apply (Hdir ["plots"]); do 2 right; by left|].
  split; [intros rel; apply lookup_scratch_below|].
  split; [|split; [|done]].
  - intros k n Hnp Hk. simpl. apply lookup_scratch_Some; [apply Hwf|done..].
  - intros k Hnp Hne. simpl. apply lookup_scratch_outside; [apply Hwf|done..].
Qed.

Lemma prepare_workdir_clean_witness :
  ∃ w', _prepare_workdir "protein.fasta"
          (set_fs (<[ ["tmp"; "temstapro"; "old.txt"] := File (Demo.b "old") ]>
                  (<[ ["tmp"; "temstapro"] := Dir ]>
                  (<[ ["tmp"] := Dir ]>
                  (<[ ["home"] := Dir ]> {[ [] := Dir ]})))) Demo.empty_world)
        = (inr (Path "/tmp/temstapro/protein.fasta", Path "/tmp/temstapro/outputs",
                Path "/tmp/temstapro/plots"), w') ∧
        fs w' !! ["tmp"; "temstapro"; "old.txt"] = None ∧
        fs w' !! ["tmp"; "temstapro"; "plots"] = Some Dir ∧
        fs w' !! ["home"] = Some Dir.
Proof.
  destruct (prepare_workdir_clean "protein.fasta"
              (set_fs (<[ ["tmp"; "temstapro"; "old.txt"] := File (Demo.b "old") ]>
                      (<[ ["tmp"; "temstapro"] := Dir ]>
                      (<[ ["tmp"] := Dir ]>
                      (<[ ["home"] := Dir ]> {[ [] := Dir ]})))) Demo.empty_world))
    as (w' & Hrun & _ & _ & _ & Hin & Hout & _).
  - apply fs_wfb_correct. vm_compute. reflexivity.
  - apply clear_wayb_correct. vm_compute. reflexivity.
  - exists w'. split; [exact Hrun|]. split; [|split].
    + apply (Hin ["old.txt"]).
    + apply (Hin ["plots"]).
    + apply (Hout ["home"] Dir); [|vm_compute; reflexivity].
      intros [k Hk]. discriminate Hk.
Defined.

(** X7.  The worker before the subprocess, on a machine where it can
    stage, with a [fasta_name] that is a plain file name other than
    [outputs] and [plots]: staging returns normally; afterwards the input
    path reads back exactly [fasta_bytes]; the scratch directory holds the
    input file, the empty directories [outputs] and [plots], and nothing
    else; and nothing outside the scratch directory was removed or
    changed. *)
Theorem stage_prepares_input a w :
  stageable (fs w) → valid_name (worker.fasta_name a) = true →
  worker.fasta_name a ∉ ["outputs"; "plots"] →
  ∃ w1, stage a w = (inr tt, w1) ∧
    read_bytes (input_path_of a) w1 = (inr (worker.fasta_bytes a), w1) ∧
    is_dir w1 outputs_path = true ∧ is_dir w1 plots_path = true ∧
    (∀ rel, fs w1 !! (parts REMOTE_FASTA_DIR ++ rel)
            = if decide (rel = [worker.fasta_name a])
              then Some (File (worker.fasta_bytes a))
              else if decide (rel ∈ [[]; ["outputs"]; ["plots"]]) then Some Dir
              else None) ∧
    (∀ k n, ¬ parts REMOTE_FASTA_DIR `prefix_of` k →
            fs w !! k = Some n → fs w1 !! k = Some n).
Proof.
  intros Hst Hn Hnin. exists (staged a w). split; [by apply stage_run|].
  pose proof Hst as (Hwf & Hp & He & Hs).
  assert (Hnd : worker.fasta_name a ≠ "..").
  { by apply valid_name_spec in Hn as (_ & _ & Hn & _). }
  assert (Hd : ∀ rel, rel ∈ [[]; ["outputs"]; ["plots"]] →
                 fs (staged a w) !! (parts REMOTE_FASTA_DIR ++ rel) = Some Dir).
  { intros rel Hrel. rewrite lookup_staged_below. rewrite decide_False.
    - by rewrite decide_True.
    - intros ->. rewrite !elem_of_cons, elem_of_nil in Hrel.
      destruct Hrel as [H|[H|[H|[]]]]; [discriminate H| |]; injection H as H;
        apply Hnin; rewrite H; [by left|right; by left]. }
  assert (Hout : ∀ k n, ¬ parts REMOTE_FASTA_DIR `prefix_of` k →
                   fs w !! k = Some n → fs (staged a w) !! k = Some n).
  { intros k n Hnp Hk.
    change (fs (staged a w))
      with (<[parts REMOTE_FASTA_DIR ++ [worker.fasta_name a] :=
                File (worker.fasta_bytes a)]> (scratch (cache_dirs (fs w)))).
    rewrite lookup_insert_ne by (intros <-; apply Hnp; by eexists).
    apply lookup_scratch_Some; [by apply fs_wf_cache_dirs|by apply clear_way_with_dirs|done|].
    by apply lookup_cache_dirs_Some. }
  assert (Hroot : fs (staged a w) !! [] = Some Dir).
  { apply Hout; [|apply Hwf]. intros [k Hk]. discriminate Hk. }
  assert (Htmp : fs (staged a w) !! ["tmp"] = Some Dir).
  { change (fs (staged a w))
      with (<[parts REMOTE_FASTA_DIR ++ [worker.fasta_name a] :=
                File (worker.fasta_bytes a)]> (scratch (cache_dirs (fs w)))).
    rewrite lookup_insert_ne by discriminate.
    apply scratch_dirs, fs_wf_cache_dirs, Hwf. }
  pose proof (locate_scratch (staged a w) (fs (staged a w)) Hd Hroot Htmp) as Hloc.
  rewrite set_fs_id in Hloc.
  split; [|split; [|split; [|split]]].
  - unfold input_path_of. rewrite (truediv_simple _ _ (valid_name_simple _ Hn)).
    unfold read_bytes, stat. rewrite Hloc; [|by repeat constructor|simpl; lia].
    rewrite lookup_staged_below. by rewrite decide_True.
  - apply (is_dir_at _ _ (parts REMOTE_FASTA_DIR ++ ["outputs"])).
    + apply (Hloc ["outputs"]); [repeat constructor; discriminate|simpl; lia].
    + apply Hd. right. by left.
  - apply (is_dir_at _ _ (parts REMOTE_FASTA_DIR ++ ["plots"])).
    + apply (Hloc ["plots"]); [repeat constructor; discriminate|simpl; lia].
    + apply Hd. do 2 right. by left.
  - apply lookup_staged_below.
  - exact Hout.
Qed.

Lemma stage_prepares_input_witness :
  ∃ w1, stage (remote_args Demo.scenario (Path "protein.fasta") (Demo.b ">p1 MKV"))
          Demo.empty_world = (inr tt, w1) ∧
        read_bytes (Path "/tmp/temstapro/protein.fasta") w1 = (inr (Demo.b ">p1 MKV"), w1).
Proof.
  destruct (stage_prepares_input
              (remote_args Demo.scenario (Path "protein.fasta") (Demo.b ">p1 MKV"))
              Demo.empty_world) as (w1 & Hrun & Hread & _).
  - apply stageableb_correct. vm_compute. reflexivity.
  - vm_compute. reflexivity.
  - rewrite !elem_of_cons, elem_of_nil. intros [H|[H|[]]]; discriminate H.
  - exists w1. split; [exact Hrun|exact Hread].
Defined.

Lemma locate_scratch_up w m :
  m !! [] = Some Dir → m !! ["tmp"] = Some Dir → m !! parts REMOTE_FASTA_DIR = Some Dir →
  locate (set_fs m w) (REMOTE_FASTA_DIR // "..") = inr ["tmp"].
Proof.
  intros H0 H1 H2. unfold locate.
  change (start _ _) with (@nil string).
  change (parts (REMOTE_FASTA_DIR // "..")) with ["tmp"; "temstapro"; ".."].
  change (parts REMOTE_FASTA_DIR) with ["tmp"; "temstapro"] in H2.
  cbn [walk fs set_fs]. rewrite H0. rewrite decide_False by discriminate.
  cbn [app]. rewrite H1. rewrite decide_False by discriminate.
  cbn [app]. rewrite H2. by rewrite decide_True.
Qed.

(** X8.  A [fasta_name] that is [outputs], [plots], empty, [.] or [..]
    names a directory of the fresh scratch tree, so on a machine where the
    worker can stage, writing the input raises [IsADirectoryError] (errno
    [EISDIR]) with the input path as its text.  The worker raises it
    whatever the predictor is: the subprocess is never started; the caches
    and an empty scratch tree are left behind. *)
Theorem fasta_name_collision tool a w :
  stageable (fs w) →
  worker.fasta_name a ∈ ["outputs"; "plots"; ""; "."; ".."] →
  run_temstapro tool a w
  = (inl (OSError EISDIR (str (input_path_of a))),
     set_environ (cache_environ (environ w)) (set_fs (scratch (cache_dirs (fs w))) w)).
Proof.
  intros Hst Hin. rewrite run_temstapro_unfold, stage_eq, (prepare_run a w Hst).
  cbn [fst]. set (w1 := set_environ _ _).
  pose proof (scratch_dirs (cache_dirs (fs w))) as (Hd & Hroot & Htmp).
  { apply fs_wf_cache_dirs, Hst. }
  pose proof (locate_scratch w1 (fs w1) Hd Hroot Htmp) as Hloc.
  rewrite set_fs_id in Hloc.
  assert (Hdir : ∃ l, locate w1 (input_path_of a) = inr l ∧ fs w1 !! l = Some Dir).
  { unfold input_path_of. rewrite !elem_of_cons, elem_of_nil in Hin.
    destruct Hin as [->|[->|[->|[->|[->|[]]]]]].
    - exists (parts REMOTE_FASTA_DIR ++ ["outputs"]). split.
      + apply (Hloc ["outputs"]); [repeat constructor; discriminate|simpl; lia].
      + apply Hd. right. by left.
    - exists (parts REMOTE_FASTA_DIR ++ ["plots"]). split.
      + apply (Hloc ["plots"]); [repeat constructor; discriminate|simpl; lia].
      + apply Hd. do 2 right. by left.
    - exists (parts REMOTE_FASTA_DIR ++ []). split.
      + apply (Hloc []); [constructor|simpl; lia].
      + apply Hd. by left.
    - exists (parts REMOTE_FASTA_DIR ++ []). split.
      + apply (Hloc []); [constructor|simpl; lia].
      + apply Hd. by left.
    - exists ["tmp"]. split; [|done].
      pose proof (locate_scratch_up w1 (fs w1) Hroot Htmp) as H.
      rewrite set_fs_id in H. apply H. apply (Hd []). by left. }
  destruct Hdir as (l & Hl & Hdl).
  unfold write_bytes. by rewrite Hl, Hdl.
Qed.

Lemma fasta_name_collision_witness :
  (run_temstapro Demo.good_tool
     (remote_args (launcher.defaults "data/outputs") (Path "data/outputs") (Demo.b ">p1 MKV"))
     Demo.empty_world).1
  = inl (OSError EISDIR "/tmp/temstapro/outputs").
Proof.
  rewrite (fasta_name_collision Demo.good_tool
             (remote_args (launcher.defaults "data/outputs") (Path "data/outputs")
                (Demo.b ">p1 MKV")) Demo.empty_world).
  - reflexivity.
  - apply stageableb_correct. vm_compute. reflexivity.
  - by left.
Defined.
(** ** The launcher's writers *)

(** X1.  [_write_optional_file] with a requested, non-empty path and a
    returned payload.  When the place where the path starts is a directory
    and the path is [writable] there (it has a last component, no [..], no
    regular file stands where its parent directories go, and no directory
    stands at its own place), the function returns normally; afterwards the
    path reads back exactly the payload, its parent is a directory, nothing
    off the way from the start to the path has changed, no directory was
    lost, and the environment, the working directory and the streams are as
    they were. *)
Theorem write_optional_file_writes path data w :
  path ≠ "" →
  fs w !! start w (Path path) = Some Dir →
  writable (fs w) (start w (Path path)) (parts (Path path)) →
  ∃ w', _write_optional_file (Some path) (Some data) w = (inr tt, w') ∧
        read_bytes (Path path) w' = (inr data, w') ∧
        is_dir w' (parent (Path path)) = true ∧
        (∀ k, k ∉ path_locs (start w (Path path)) (parts (Path path)) →
              fs w' !! k = fs w !! k) ∧
        dirs_le (fs w) (fs w') ∧
        w' = set_fs (fs w') w.
Proof.
  intros Hne Hs Hw.
  pose proof (write_optional_file_ok path data w Hne Hs Hw) as H. cbv zeta in H.
  destruct H as (H1 & H2 & H3 & H4).
  eexists. split; [exact H1|]. split; [exact H2|]. split; [exact H3|].
  split; [exact H4|]. split; [|done].
  apply dirs_le_with_file. apply Hw.
Qed.

Lemma write_optional_file_writes_witness :
  ∃ w', _write_optional_file (Some "/tmp/out/mean.tsv") (Some (Demo.b "ID Score"))
          Demo.local_world = (inr tt, w') ∧
        read_bytes (Path "/tmp/out/mean.tsv") w' = (inr (Demo.b "ID Score"), w') ∧
        is_dir w' (Path "/tmp/out") = true.
Proof.
  destruct (write_optional_file_writes "/tmp/out/mean.tsv" (Demo.b "ID Score")
              Demo.local_world) as (w' & Hrun & Hread & Hdir & _).
  - discriminate.
  - vm_compute. reflexivity.
  - apply writableb_correct. vm_compute. reflexivity.
  - exists w'. split; [exact Hrun|]. split; [exact Hread|exact Hdir].
Defined.





(** ** Errors of [_collect_outputs] *)

Lemma for_fold_app {S A B} (l1 l2 : list A) (acc : B) (body : B → A → M S B) s :
  for_fold (l1 ++ l2) acc body s
  = bind (for_fold l1 acc body) (λ acc', for_fold l2 acc' body) s.
Proof.
  revert acc s. induction l1 as [|x l1 IH]; intros acc s; [done|].
  simpl. unfold bind.
  destruct (body acc x s) as [[e|b] s']; [done|]. rewrite IH. reflexivity.
Qed.

Lemma collect_output_dir results key p w :
  is_dir w p = true →
  collect_output results (key, Some p) w = (inl (OSError EISDIR (str p)), w).
Proof.
  unfold is_dir, collect_output, bind, gets, exists_, read_bytes. cbv beta.
  destruct (stat w p) as [e|[d|]] eqn:E; try done. cbv beta. by rewrite E.
Qed.

Lemma collect_outputs_dir pre key p post w :
  (∀ id q, (id, Some q) ∈ pre → is_dir w q = false) →
  is_dir w p = true →
  _collect_outputs (pre ++ (key, Some p) :: post) w = (inl (OSError EISDIR (str p)), w).
Proof.
  intros Hpre Hp. unfold _collect_outputs. rewrite for_fold_app. unfold bind.
  rewrite (collect_outputs_loop w pre _ Hpre). rewrite for_fold_cons. unfold bind.
  by rewrite (collect_output_dir _ key p w Hp).
Qed.

(** X11.  [_collect_outputs] reads what exists at an assigned path, so a
    directory there is an error: when the first assigned path that is a
    directory is [p], the function raises [IsADirectoryError] (errno
    [EISDIR]) for [p], returns no partial dictionary and leaves the world
    as it was.  For the worker: after a staging that succeeded and a
    predictor that exited with code 0, such a path among the three output
    paths makes the worker raise that error instead of returning its
    results. *)
Theorem collect_outputs_directory pre key p post :
  (∀ w, (∀ id q, (id, Some q) ∈ pre → is_dir w q = false) → is_dir w p = true →
        _collect_outputs (pre ++ (key, Some p) :: post) w
        = (inl (OSError EISDIR (str p)), w)) ∧
  (∀ tool a w w1 completed m,
     outputs a = pre ++ (key, Some p) :: post →
     stage a w = (inr tt, w1) →
     tool (worker_cmd a) w1 = (completed, m) →
     returncode completed = 0%Z →
     (∀ id q, (id, Some q) ∈ pre → is_dir (set_fs m w1) q = false) →
     is_dir (set_fs m w1) p = true →
     run_temstapro tool a w = (inl (OSError EISDIR (str p)), set_fs m w1)).
Proof.
  split; [intros w; apply collect_outputs_dir|].
  intros tool a w w1 completed m Hout Hstage Htool Hrc Hpre Hp.
  rewrite run_temstapro_unfold, Hstage, Htool.
  rewrite decide_False by (intros ?; done).
  unfold collect. fold (outputs a). rewrite Hout. unfold bind at 1.
  by rewrite (collect_outputs_dir pre key p post _ Hpre Hp).
Qed.

Lemma collect_outputs_directory_witness :
  (run_temstapro Demo.good_tool
     (remote_args (set_plot_dir None
                     {| launcher.fasta_path := "protein.fasta";
                        launcher.output_path := Some "results/..";
                        launcher.more_thresholds := false;
                        launcher.per_res_output := None;
                        launcher.per_segment_output := None;
                        launcher.plot_dir := None;
                        launcher.portion_size := 1000;
                        launcher.segment_size := 41;
                        launcher.window_size_predictions := 81;
                        launcher.curve_smoothening := false |})
        (Path "protein.fasta") (Demo.b ">p1 MKV"))
     Demo.empty_world).1
  = inl (OSError EISDIR "/tmp/temstapro/outputs/..").
Proof.
  set (ra := remote_args _ _ _).
  destruct (collect_outputs_directory [] "mean" (outputs_path // "..")
              [("per_res", None); ("per_segment", None)]) as [_ H].
  rewrite (H Demo.good_tool ra Demo.empty_world (stage ra Demo.empty_world).2
             (Demo.good_tool (worker_cmd ra) (stage ra Demo.empty_world).2).1
             (Demo.good_tool (worker_cmd ra) (stage ra Demo.empty_world).2).2).
  - reflexivity.
  - reflexivity.
  - apply outcome_pair. vm_compute. reflexivity.
  - apply surjective_pairing.
  - reflexivity.
  - intros id q Hin. by apply elem_of_nil in Hin.
  - vm_compute. reflexivity.
Defined.

(** ** A regular file in the way of a writer *)

Lemma walk_file m cur pre c rest d :
  Forall (λ n, n ≠ "..") pre →
  (∀ q, q `prefix_of` pre → q ≠ pre → m !! (cur ++ q) = Some Dir) →
  m !! (cur ++ pre) = Some (File d) →
  walk m cur (pre ++ c :: rest) = inl ENOTDIR.
Proof.
  intros Hnd Hd Hf. rewrite walk_app, (walk_dirs _ _ _ Hnd Hd). simpl. by rewrite Hf.
Qed.

Lemma mkdir_obstructed p w pre d :
  fs_wf (fs w) → Forall (λ n, n ≠ "..") (parts p) →
  pre `prefix_of` parts p →
  fs w !! (start w p ++ pre) = Some (File d) →
  mkdir p true true w
  = (inl (OSError (if decide (pre = parts p) then EEXIST else ENOTDIR) (str p)), w).
Proof.
  intros Hwf Hnd [rest Hrest] Hf.
  destruct (wf_ancestors (fs w) (start w p) pre Hwf) as [Hd _]; [by rewrite Hf|].
  assert (Hndp : Forall (λ n, n ≠ "..") pre).
  { rewrite Hrest in Hnd. by apply Forall_app in Hnd as [? _]. }
  unfold mkdir. rewrite mkdir_parents_eq. unfold os_mkdir, is_dir, stat, locate.
  destruct rest as [|c rest].
  - rewrite app_nil_r in Hrest. rewrite decide_True by done. rewrite Hrest.
    rewrite (walk_dirs _ _ _ Hndp Hd), Hf. done.
  - rewrite decide_False.
    + rewrite Hrest, (walk_file _ _ _ _ _ d Hndp Hd Hf). done.
    + intros E. rewrite E in Hrest. apply (f_equal length) in Hrest.
      rewrite length_app in Hrest. simpl in Hrest. lia.
Qed.

(** X10.  A regular file in the way of [_write_optional_file].  In a
    well-formed file system, when a regular file stands where the parent
    directory of the requested path goes, or anywhere on the way to it, the
    function raises and changes nothing: [FileExistsError] (errno [EEXIST])
    when the file stands at the place of the parent itself,
    [NotADirectoryError] (errno [ENOTDIR]) when it stands above it; the
    error names the parent directory, and the payload is not written. *)
Theorem write_optional_file_obstructed path data w pre d :
  path ≠ "" → fs_wf (fs w) →
  Forall (λ n, n ≠ "..") (parts (Path path)) →
  pre `prefix_of` removelast (parts (Path path)) →
  fs w !! (start w (Path path) ++ pre) = Some (File d) →
  _write_optional_file (Some path) (Some data) w
  = (inl (OSError (if decide (pre = removelast (parts (Path path)))
                   then EEXIST else ENOTDIR)
            (str (parent (Path path)))), w).
Proof.
  intros Hne Hwf Hnd Hpre Hf.
  unfold _write_optional_file. rewrite (proj2 (truthy_Some path) Hne).
  cbv zeta. unfold bind.
  rewrite (mkdir_obstructed (parent (Path path)) w pre d); [done..| |done|done].
  simpl. apply Forall_forall. intros n Hn. rewrite Forall_forall in Hnd. apply Hnd.
  destruct (removelast_prefix (parts (Path path))) as [k Hk]. rewrite Hk.
  apply elem_of_app. by left.
Qed.

Lemma write_optional_file_obstructed_witness :
  _write_optional_file (Some "protein.fasta/mean.tsv") (Some (Demo.b "ID Score"))
    Demo.local_world
  = (inl (OSError EEXIST "protein.fasta"), Demo.local_world).
Proof.
  rewrite (write_optional_file_obstructed "protein.fasta/mean.tsv" (Demo.b "ID Score")
             Demo.local_world ["protein.fasta"] (Demo.b ">p1 MKV")).
  - reflexivity.
  - discriminate.
  - apply fs_wfb_correct. vm_compute. reflexivity.
  - apply no_dotdotb_correct. vm_compute. reflexivity.
  - vm_compute. by exists [].
  - vm_compute. reflexivity.
Defined.

(** ** What [main] leaves alone on the local machine *)

Lemma write_back_keeps a res w r w' :
  write_back a res w = (r, w') →
  cwd w' = cwd w ∧ environ w' = environ w ∧ dirs_le (fs w) (fs w').
Proof.
  assert (Hwb : write_back a res w =
    bind (_write_optional_file (launcher.output_path a) (files_get (files res) "mean") ;;;
          _write_optional_file (launcher.per_res_output a) (files_get (files res) "per_res") ;;;
          _write_optional_file (launcher.per_segment_output a)
            (files_get (files res) "per_segment") ;;;
          _write_plots (launcher.plot_dir a) (plots res))
      (λ _, (if negb (String.eqb (res_stdout res) "") then print_out (res_stdout res)
             else ret tt) ;;;
            (if negb (String.eqb (res_stderr res) "") then print_err (res_stderr res)
             else ret tt)) w).
  { unfold write_back, bind.
    destruct (_write_optional_file (launcher.output_path a) _ w) as [[e|[]] w1]; [done|].
    destruct (_write_optional_file (launcher.per_res_output a) _ w1) as [[e|[]] w2];
      [done|].
    by destruct (_write_optional_file (launcher.per_segment_output a) _ w2)
      as [[e|[]] w3]. }
  rewrite Hwb. unfold bind at 1.
  destruct ((_write_optional_file (launcher.output_path a) _ ;;; _) w) as [[e|[]] w1] eqn:E;
    pose proof (fs_step_writers a res w _ _ E) as [Hw1 Hle].
  - intros [= <- <-]. rewrite Hw1. done.
  - unfold bind.
    destruct (negb (String.eqb (res_stdout res) "")), (negb (String.eqb (res_stderr res) ""));
      unfold print_out, print_err, modify, ret; intros [= <- <-]; rewrite Hw1; done.
Qed.

(** X12.  What [main] never does on the local machine, whatever the
    arguments, the predictor and the outcome: it does not change the
    environment or the working directory, it does not remove or replace a
    directory, and it records at most one remote call, after the ones
    already recorded. *)
Theorem main_keeps_local tool a s :
  cwd (local (main tool a s).2) = cwd (local s) ∧
  environ (local (main tool a s).2) = environ (local s) ∧
  dirs_le (fs (local s)) (fs (local (main tool a s).2)) ∧
  ∃ made, calls (main tool a s).2 = calls s ++ made ∧ (length made ≤ 1)%nat.
Proof.
  destruct (is_file (local s) (Path (launcher.fasta_path a))) eqn:Hf.
  - apply is_file_true_stat in Hf as [data Hstat].
    rewrite (main_unfold tool a s data Hstat). cbv zeta.
    destruct (run_temstapro tool _ (remote s)) as [[e|results] rw].
    + simpl. split; [done|]. split; [done|]. split; [apply dirs_le_refl|].
      by eexists [_].
    + destruct (write_back a results (local s)) as [r l] eqn:E.
      apply write_back_keeps in E as (H1 & H2 & H3). simpl.
      split; [done|]. split; [done|]. split; [done|]. by eexists [_].
  - assert (Hm : main tool a s
                 = (inl (FileNotFoundError ("FASTA file not found: " +:+ launcher.fasta_path a)), s)).
    { unfold main, bind, on_local, gets. simpl. rewrite Hf. simpl.
      unfold raise. destruct s; reflexivity. }
    rewrite Hm. simpl. split; [done|]. split; [done|]. split; [apply dirs_le_refl|].
    exists []. split; [by rewrite app_nil_r|simpl; lia].
Qed.

(** ** The name [main] forwards *)

Lemma wf_parent_dir m l : fs_wf m → is_Some (m !! l) → m !! removelast l = Some Dir.
Proof.
  intros Hwf Hl. destruct l as [|x l _] using rev_ind; [apply Hwf|].
  rewrite removelast_last. by apply (proj2 Hwf l x).
Qed.

Lemma is_file_valid_name w p :
  fs_wf (fs w) → fs w !! cwd w = Some Dir →
  (∀ x, x ∈ parts p → simple_name x = true) →
  is_file w p = true → valid_name (name p) = true.
Proof.
  intros Hwf Hcwd Hsimple Hf. apply is_file_true_stat in Hf as [data Hstat].
  unfold stat in Hstat. destruct (locate w p) as [e|l] eqn:Hl; [done|].
  destruct (fs w !! l) as [n|] eqn:Hn; [|done]. injection Hstat as ->.
  unfold locate in Hl. unfold name.
  destruct (parts p) as [|n ps _] eqn:Hp using rev_ind.
  - simpl in Hl. injection Hl as <-. unfold start in Hn.
    destruct (decide (root p = "")); [congruence|].
    destruct Hwf as [Hroot _]. congruence.
  - rewrite last_snoc.
    assert (Hs : simple_name n = true).
    { apply Hsimple. apply elem_of_app. right. by left. }
    apply simple_name_spec in Hs as (Hs & Hne & Hdot).
    apply valid_name_spec. repeat split; try done.
    intros ->. rewrite walk_app in Hl.
    destruct (walk (fs w) (start w p) ps) as [e|l'] eqn:Hw; [done|].
    simpl in Hl. destruct (fs w !! l') as [[d|]|] eqn:Hl'; [done| |done].
    injection Hl as <-.
    rewrite (wf_parent_dir (fs w) l' Hwf) in Hn; [done|]. by rewrite Hl'.
Qed.

(** X13.  The input name the launcher forwards is always usable.  When
    the local file system is well formed and [fasta_path] names a regular
    file, the forwarded [fasta_name] is a valid file name: not empty, not
    [.] or [..], without a separator.  So, on a remote machine where the
    worker can stage, the staging of the forwarded arguments succeeds and
    the input file is written directly in the scratch directory under that
    name, unless the name is [outputs] or [plots]. *)
Theorem main_forwards_plain_name a lw data :
  fs_wf (fs lw) → fs lw !! cwd lw = Some Dir →
  stat lw (Path (launcher.fasta_path a)) = inr (File data) →
  let ra := remote_args a (Path (launcher.fasta_path a)) data in
  valid_name (worker.fasta_name ra) = true ∧
  input_path_of ra = child REMOTE_FASTA_DIR [worker.fasta_name ra] ∧
  ∀ rw, stageable (fs rw) → worker.fasta_name ra ∉ ["outputs"; "plots"] →
    ∃ rw1, stage ra rw = (inr tt, rw1) ∧
           fs rw1 !! (parts REMOTE_FASTA_DIR ++ [worker.fasta_name ra]) = Some (File data).
Proof.
  intros Hwf Hcwd Hstat ra.
  assert (Hv : valid_name (worker.fasta_name ra) = true).
  { apply (is_file_valid_name lw); [done..|apply parts_Path_simple|].
    apply is_file_stat. by exists data. }
  split; [done|]. split.
  - unfold input_path_of. apply truediv_simple. by apply valid_name_simple.
  - intros rw Hst Hnin. exists (staged ra rw). split; [by apply stage_run|].
    rewrite lookup_staged_below. by rewrite decide_True.
Qed.

Lemma main_forwards_plain_name_witness :
  valid_name (name (Path "protein.fasta")) = true ∧
  ∃ rw1, stage (remote_args Demo.scenario (Path "protein.fasta") (Demo.b ">p1 MKV"))
           Demo.empty_world = (inr tt, rw1) ∧
         fs rw1 !! ["tmp"; "temstapro"; "protein.fasta"] = Some (File (Demo.b ">p1 MKV")).
Proof.
  destruct (main_forwards_plain_name Demo.scenario Demo.local_world (Demo.b ">p1 MKV"))
    as (Hv & _ & Hstage).
  - apply fs_wfb_correct. vm_compute. reflexivity.
  - vm_compute. reflexivity.
  - vm_compute. reflexivity.
  - split; [exact Hv|]. apply (Hstage Demo.empty_world).
    + apply stageableb_correct. vm_compute. reflexivity.
    + rewrite !elem_of_cons, elem_of_nil. intros [H|[H|[]]]; discriminate H.
Defined.
(** ** The worker from start to end *)

(** X14.  The worker returns.  On a machine where it can stage, with a
    [fasta_name] that is a valid file name other than [outputs] and
    [plots], the predictor is run in the staged world; when it exits with
    code 0 and leaves no directory at an assigned output path, the worker
    returns normally: [stdout] and [stderr] are the captured texts,
    [files] maps each of the three identifiers to the content at its path
    ([None] when no path was assigned or nothing is there), and [plots] is
    what [_gather_plot_files] finds in the plots directory when plots are
    requested and the empty list otherwise. *)
Theorem run_temstapro_succeeds tool a w completed m :
  stageable (fs w) → valid_name (worker.fasta_name a) = true →
  worker.fasta_name a ∉ ["outputs"; "plots"] →
  tool (worker_cmd a) (staged a w) = (completed, m) →
  returncode completed = 0%Z →
  (∀ id p, (id, Some p) ∈ outputs a → is_dir (set_fs m (staged a w)) p = false) →
  ∃ r, run_temstapro tool a w = (inr r, set_fs m (staged a w)) ∧
       res_stdout r = cp_stdout completed ∧ res_stderr r = cp_stderr completed ∧
       (∀ id op, (id, op) ∈ outputs a →
          files r !! id = Some (payload_at (set_fs m (staged a w)) op)) ∧
       (∀ id, id ∉ ["mean"; "per_res"; "per_segment"] → files r !! id = None) ∧
       (if worker.include_plots a
        then _gather_plot_files plots_path (set_fs m (staged a w))
             = (inr (plots r), set_fs m (staged a w))
        else plots r = []).
Proof.
  intros Hst Hn Hnin Htool Hrc Hnd.
  rewrite run_temstapro_unfold, (stage_run a w Hst Hn Hnin), Htool.
  rewrite decide_False by (intros ?; done).
  unfold collect, bind. fold (outputs a).
  rewrite (collect_outputs_reads _ _ Hnd).
  destruct (gather_plot_files_reads plots_path (set_fs m (staged a w))) as [entries Hg].
  assert (Hp : ∃ pl, (if worker.include_plots a then _gather_plot_files plots_path
                      else ret []) (set_fs m (staged a w)) = (inr pl, set_fs m (staged a w))
                     ∧ (if worker.include_plots a
                        then _gather_plot_files plots_path (set_fs m (staged a w))
                             = (inr pl, set_fs m (staged a w))
                        else pl = [])).
  { destruct (worker.include_plots a); [by exists entries|by exists []]. }
  destruct Hp as (pl & -> & Hpl). eexists. split; [reflexivity|].
  cbn [res_stdout res_stderr files plots]. split; [done|]. split; [done|].
  split; [|split; [|done]].
  - intros id op Hin. unfold outputs in Hin |- *. cbn [foldl fst snd].
    rewrite !elem_of_cons, elem_of_nil in Hin.
    destruct Hin as [[= -> ->]|[[= -> ->]|[[= -> ->]|[]]]]; by simplify_map_eq.
  - intros id Hid. unfold outputs. cbn [foldl fst snd].
    rewrite !elem_of_cons, elem_of_nil in Hid.
    rewrite !lookup_insert_ne; [done|intros <-; apply Hid; auto..].
Qed.

Lemma run_temstapro_succeeds_witness :
  ∃ r, (run_temstapro Demo.good_tool
          (remote_args Demo.scenario (Path "protein.fasta") (Demo.b ">p1 MKV"))
          Demo.empty_world).1 = inr r ∧
       res_stdout r = "done" ∧
       files r !! "mean" = Some (Some (Demo.b "ID Score")).
Proof.
  set (ra := remote_args Demo.scenario (Path "protein.fasta") (Demo.b ">p1 MKV")).
  destruct (run_temstapro_succeeds Demo.good_tool ra Demo.empty_world
              (Demo.good_tool (worker_cmd ra) (staged ra Demo.empty_world)).1
              (Demo.good_tool (worker_cmd ra) (staged ra Demo.empty_world)).2)
    as (r & Hrun & Hout & _ & Hfiles & _).
  - apply stageableb_correct. vm_compute. reflexivity.
  - vm_compute. reflexivity.
  - rewrite !elem_of_cons, elem_of_nil. intros [H|[H|[]]]; discriminate H.
  - apply surjective_pairing.
  - reflexivity.
  - intros id p Hin. unfold outputs in Hin. rewrite !elem_of_cons, elem_of_nil in Hin.
    destruct Hin as [H|[H|[H|[]]]]; vm_compute in H; [|discriminate H..].
    injection H as _ ->. vm_compute. reflexivity.
  - exists r. split; [by rewrite Hrun|]. split; [exact Hout|].
    rewrite (Hfiles "mean" (mean_output_path ra)) by by left.
    vm_compute. reflexivity.
Defined.

(** ** The scratch path taken by a regular file *)

(** X16.  [_prepare_workdir] when a regular file stands at [/tmp] or at
    [/tmp/temstapro], in a well-formed file system: it raises
    [NotADirectoryError] (errno [ENOTDIR]) for [/tmp/temstapro], from
    [shutil.rmtree] in the second case and from [mkdir] in the first, and
    changes nothing. *)
Theorem prepare_workdir_obstructed fasta_name w pre d :
  fs_wf (fs w) → pre `prefix_of` parts REMOTE_FASTA_DIR →
  fs w !! pre = Some (File d) →
  _prepare_workdir fasta_name w = (inl (OSError ENOTDIR "/tmp/temstapro"), w).
Proof.
  intros Hwf Hpre Hf.
  assert (Hnd : Forall (λ n, n ≠ "..") (parts REMOTE_FASTA_DIR))
    by (repeat constructor; discriminate).
  destruct (wf_ancestors (fs w) [] pre Hwf) as [Hd _]; [simpl; by rewrite Hf|].
  unfold _prepare_workdir. unfold bind at 1. unfold gets. unfold bind at 1.
  unfold exists_, stat, locate. change (start w REMOTE_FASTA_DIR) with (@nil string).
  destruct (decide (pre = parts REMOTE_FASTA_DIR)) as [->|Hne].
  - rewrite (walk_dirs _ _ _ Hnd Hd).
    change ([] ++ parts REMOTE_FASTA_DIR) with (parts REMOTE_FASTA_DIR). rewrite Hf.
    unfold rmtree, locate. change (start w REMOTE_FASTA_DIR) with (@nil string).
    rewrite (walk_dirs _ _ _ Hnd Hd).
    change ([] ++ parts REMOTE_FASTA_DIR) with (parts REMOTE_FASTA_DIR). by rewrite Hf.
  - destruct Hpre as [rest Hrest]. destruct rest as [|c rest].
    { rewrite app_nil_r in Hrest. by destruct Hne. }
    assert (Hndp : Forall (λ n, n ≠ "..") pre).
    { rewrite Hrest in Hnd. by apply Forall_app in Hnd as [? _]. }
    assert (Hwk : walk (fs w) [] (parts REMOTE_FASTA_DIR) = inl ENOTDIR).
    { rewrite Hrest. apply (walk_file _ _ _ _ _ d Hndp Hd Hf). }
    rewrite Hwk. unfold ret at 1. unfold bind at 1.
    rewrite (mkdir_obstructed REMOTE_FASTA_DIR w pre d Hwf Hnd); [| |done].
    + by rewrite decide_False.
    + rewrite Hrest. by exists (c :: rest).
Qed.

Lemma prepare_workdir_obstructed_witness :
  _prepare_workdir "protein.fasta"
    (set_fs (<[ ["tmp"] := File (Demo.b "x") ]> {[ [] := Dir ]}) Demo.empty_world)
  = (inl (OSError ENOTDIR "/tmp/temstapro"),
     set_fs (<[ ["tmp"] := File (Demo.b "x") ]> {[ [] := Dir ]}) Demo.empty_world).
Proof.
  apply (prepare_workdir_obstructed "protein.fasta" _ ["tmp"] (Demo.b "x")).
  - apply fs_wfb_correct. vm_compute. reflexivity.
  - by exists ["temstapro"].
  - vm_compute. reflexivity.
Defined.

(** ** The launcher from start to end *)


Lemma cache_dirs_idem m : cache_dirs (cache_dirs m) = cache_dirs m.
Proof.
  unfold cache_dirs at 1. apply with_dirs_id. intros k Hk.
  unfold cache_dirs. rewrite lookup_with_dirs. by rewrite decide_True.
Qed.

Lemma cache_environ_idem e : cache_environ (cache_environ e) = cache_environ e.
Proof.
  apply map_eq. intros k. rewrite (lookup_cache_environ (cache_environ e)).
  rewrite (lookup_cache_environ e).
  by destruct (list_find (λ kv, kv.1 = k) cache_vars) as [[i kv]|].
Qed.

(** X17.  [_env_prepare] is idempotent: where it returns normally (no
    regular file in the way of the cache directories), a second run
    returns normally as well and changes nothing, neither in the file
    system nor in the environment. *)
Theorem env_prepare_idempotent w :
  fs w !! [] = Some Dir →
  clear_way (fs w) [] (parts PROTTRANS_DIR) →
  clear_way (fs w) [] (parts EMBEDDINGS_CACHE_ROOT) →
  ∃ w', _env_prepare w = (inr tt, w') ∧ _env_prepare w' = (inr tt, w').
Proof.
  intros Hroot Hp He. eexists. split; [by apply env_prepare_run|].
  rewrite env_prepare_run.
  - cbn [environ fs set_environ set_fs]. by rewrite cache_dirs_idem, cache_environ_idem.
  - by apply dirs_le_with_dirs.
  - by apply clear_way_with_dirs.
  - by apply clear_way_with_dirs.
Qed.

Lemma env_prepare_idempotent_witness :
  ∃ w', _env_prepare Demo.empty_world = (inr tt, w') ∧ _env_prepare w' = (inr tt, w').
Proof.
  apply (env_prepare_idempotent Demo.empty_world).
  - vm_compute. reflexivity.
  - apply clear_wayb_correct. vm_compute. reflexivity.
  - apply clear_wayb_correct. vm_compute. reflexivity.
Defined.

(** ** The launcher: several outputs at once *)













(** ** Nothing of an earlier run comes back *)








(** ** What the launcher forwards of the requested paths *)

(** A forwarded output name is empty or a single component. *)
Lemma name_of_simple o n : name_of o = Some n → n ≠ "" → simple_name n = true.
Proof.
  unfold name_of. destruct o as [p|]; [|done].
  destruct (Py.truthy (Some p)); [|done]. intros [= <-] Hne.
  by destruct (name_Path p).
Qed.

(** What the worker returns after a subprocess that exited with code 0,
    when no assigned output path is a directory. *)
Lemma run_temstapro_files tool a w w1 completed m :
  stage a w = (inr tt, w1) →
  tool (worker_cmd a) w1 = (completed, m) →
  returncode completed = 0%Z →
  (∀ id p, (id, Some p) ∈ outputs a → is_dir (set_fs m w1) p = false) →
  ∃ r, run_temstapro tool a w = (inr r, set_fs m w1) ∧
       ∀ id op, (id, op) ∈ outputs a →
         files r !! id = Some (payload_at (set_fs m w1) op).
Proof.
  intros Hstage Htool Hrc Hnd.
  rewrite run_temstapro_unfold, Hstage, Htool.
  rewrite decide_False by (intros ?; done).
  unfold collect, bind. fold (outputs a).
  rewrite (collect_outputs_reads _ _ Hnd).
  destruct (gather_plot_files_reads plots_path (set_fs m w1)) as [entries Hg].
  assert (Hp : ∃ pl, (if worker.include_plots a then _gather_plot_files plots_path
                      else ret []) (set_fs m w1) = (inr pl, set_fs m w1)).
  { destruct (worker.include_plots a); by eexists. }
  destruct Hp as [pl ->]. eexists. split; [reflexivity|].
  cbn [files]. intros id op Hin. unfold outputs in Hin |- *. cbn [foldl fst snd].
  rewrite !elem_of_cons, elem_of_nil in Hin.
  destruct Hin as [[= -> ->]|[[= -> ->]|[[= -> ->]|[]]]].
  - rewrite !lookup_insert_ne by discriminate. apply lookup_insert_eq.
  - rewrite lookup_insert_ne by discriminate. apply lookup_insert_eq.
  - apply lookup_insert_eq.
Qed.

(** C10.  When [fasta_path] names a regular file, [main] makes exactly one
    remote call, the call [run_temstapro] of the worker on the arguments
    [ra], and of the requested paths [ra] carries only this: each output
    name is [Path(p).name] of the requested path (no name when none or an
    empty one was requested), a name without separator, and
    [include_plots] is the truth value of [plot_dir].  Nothing else of
    these paths reaches the worker: launcher arguments that differ only in
    the directories of the output paths, or in a plot directory of the
    same truth value, make the very same call and leave the remote machine
    in the same state.  On the worker every non-empty forwarded name [n]
    becomes the output path [outputs_path / n], whose parent is the outputs
    directory; that path is what the predictor is given after the flag of
    the identifier; and after a predictor that exited with code 0 (no
    assigned output path being a directory), a regular file the worker
    finds for the identifier is the file [n] located directly in
    [/tmp/temstapro/outputs], and its content is what the worker returns
    for the identifier. *)
Theorem launcher_forwards_base_names tool a s data :
  stat (local s) (Path (launcher.fasta_path a)) = inr (File data) →
  let ra := remote_args a (Path (launcher.fasta_path a)) data in
  (calls (main tool a s).2 = calls s ++ [ra] ∧
   remote (main tool a s).2 = (run_temstapro tool ra (remote s)).2) ∧
  (worker.mean_output_name ra = name_of (launcher.output_path a) ∧
   worker.per_res_output_name ra = name_of (launcher.per_res_output a) ∧
   worker.per_segment_output_name ra = name_of (launcher.per_segment_output a) ∧
   worker.include_plots ra = Py.truthy (launcher.plot_dir a)) ∧
  (∀ p, Py.truthy (Some p) = true →
     name_of (Some p) = Some (name (Path p)) ∧
     Py.has_char sep (name (Path p)) = false) ∧
  (∀ d n, simple_name n = true →
     name_of (Some (d +:+ String sep n)) = Some n ∧ name_of (Some n) = Some n) ∧
  (∀ a',
     launcher.fasta_path a' = launcher.fasta_path a →
     name_of (launcher.output_path a') = name_of (launcher.output_path a) →
     name_of (launcher.per_res_output a') = name_of (launcher.per_res_output a) →
     name_of (launcher.per_segment_output a') = name_of (launcher.per_segment_output a) →
     Py.truthy (launcher.plot_dir a') = Py.truthy (launcher.plot_dir a) →
     launcher.more_thresholds a' = launcher.more_thresholds a →
     launcher.portion_size a' = launcher.portion_size a →
     launcher.segment_size a' = launcher.segment_size a →
     launcher.window_size_predictions a' = launcher.window_size_predictions a →
     launcher.curve_smoothening a' = launcher.curve_smoothening a →
     calls (main tool a' s).2 = calls s ++ [ra] ∧
     remote (main tool a' s).2 = remote (main tool a s).2) ∧
  (∀ id flag n,
     (id, flag, Some n) ∈ [ ("mean", "--mean-output", worker.mean_output_name ra);
                            ("per_res", "--per-res-output", worker.per_res_output_name ra);
                            ("per_segment", "--per-segment-output",
                             worker.per_segment_output_name ra) ] →
     n ≠ "" →
     (id, Some (child outputs_path [n])) ∈ outputs ra ∧
     parent (child outputs_path [n]) = outputs_path ∧
     name (child outputs_path [n]) = n ∧
     has_option flag (str (child outputs_path [n])) (worker_cmd ra) ∧
     ∀ w1 completed m,
       stage ra (remote s) = (inr tt, w1) →
       tool (worker_cmd ra) w1 = (completed, m) →
       returncode completed = 0%Z →
       (∀ id' p', (id', Some p') ∈ outputs ra → is_dir (set_fs m w1) p' = false) →
       is_file (set_fs m w1) (child outputs_path [n]) = true →
       ∃ r d, run_temstapro tool ra (remote s) = (inr r, set_fs m w1) ∧
              m !! ["tmp"; "temstapro"; "outputs"; n] = Some (File d) ∧
              files r !! id = Some (Some d)).
Proof.
  intros Hstat ra.
  assert (Hmain : ∀ a', remote_args a' (Path (launcher.fasta_path a')) data = ra →
            launcher.fasta_path a' = launcher.fasta_path a →
            calls (main tool a' s).2 = calls s ++ [ra] ∧
            remote (main tool a' s).2 = (run_temstapro tool ra (remote s)).2).
  { intros a' Hra Hfp. rewrite <- Hfp in Hstat.
    rewrite (main_unfold _ _ _ _ Hstat). cbv zeta. rewrite Hra.
    destruct (run_temstapro tool ra (remote s)) as [[e|results] w]; [done|].
    by destruct (write_back a' results (local s)) as [r l']. }
  split; [by apply Hmain|]. split; [done|]. split; [|split; [|split]].
  - intros p Hp. split; [by apply name_of_truthy|apply name_Path_no_sep].
  - intros d n Hn. split.
    + rewrite name_of_truthy, name_Path_dir; [done..|].
      apply truthy_Some. by destruct d.
    + rewrite name_of_truthy, name_Path_simple; [done..|].
      apply truthy_Some. by apply simple_name_spec in Hn as (_ & ? & _).
  - intros a' Hfp H1 H2 H3 H4 H5 H6 H7 H8 H9.
    destruct (Hmain a) as [_ ->]; [done..|]. apply Hmain; [|done].
    unfold ra, remote_args. by rewrite Hfp, H1, H2, H3, H4, H5, H6, H7, H8, H9.
  - intros id flag n Hin Hne.
    assert (Hcase : ∃ o, name_of o = Some n ∧
              (id, output_path_of outputs_path (Some n)) ∈ outputs ra ∧
              ∀ p, output_path_of outputs_path (Some n) = Some p →
                   has_option flag (str p) (worker_cmd ra)).
    { rewrite !elem_of_cons, elem_of_nil in Hin.
      destruct Hin as [[= -> -> Hn]|[[= -> -> Hn]|[[= -> -> Hn]|[]]]].
      - exists (launcher.output_path a). split; [done|]. split.
        + unfold outputs, mean_output_path.
          change (worker.mean_output_name ra) with (name_of (launcher.output_path a)).
          rewrite <- Hn. by left.
        + intros p Hp. unfold worker_cmd. rewrite build_cmd_app.
          unfold mean_output_path.
          change (worker.mean_output_name ra) with (name_of (launcher.output_path a)).
          rewrite <- Hn, Hp.
          do 3 apply has_option_app_r. apply has_option_valued.
      - exists (launcher.per_res_output a). split; [done|]. split.
        + unfold outputs, per_res_output_path.
          change (worker.per_res_output_name ra) with (name_of (launcher.per_res_output a)).
          rewrite <- Hn. right. by left.
        + intros p Hp. unfold worker_cmd. rewrite build_cmd_app.
          unfold per_res_output_path.
          change (worker.per_res_output_name ra) with (name_of (launcher.per_res_output a)).
          rewrite <- Hn, Hp.
          do 4 apply has_option_app_r. apply has_option_valued.
      - exists (launcher.per_segment_output a). split; [done|]. split.
        + unfold outputs, per_segment_output_path.
          change (worker.per_segment_output_name ra) with (name_of (launcher.per_segment_output a)).
          rewrite <- Hn. do 2 right. by left.
        + intros p Hp. unfold worker_cmd. rewrite build_cmd_app.
          unfold per_segment_output_path.
          change (worker.per_segment_output_name ra) with (name_of (launcher.per_segment_output a)).
          rewrite <- Hn, Hp.
          do 5 apply has_option_app_r. apply has_option_valued. }
    destruct Hcase as (o & Ho & Hout & Hopt).
    pose proof (name_of_simple o n Ho Hne) as Hs.
    rewrite (output_path_of_simple outputs_path n Hs) in Hout, Hopt.
    split; [exact Hout|]. split; [apply parent_child|]. split; [apply name_child|].
    split; [by apply Hopt|].
    intros w1 completed m Hstage Htool Hrc Hnd Hfile.
    destruct (run_temstapro_files tool ra (remote s) w1 completed m Hstage Htool Hrc Hnd)
      as (r & Hrun & Hfiles).
    pose proof (output_file_location _ _ Hfile) as Hloc.
    destruct (is_file_true_stat _ _ Hfile) as [d Hd].
    exists r, d. split; [exact Hrun|]. split.
    + unfold stat in Hd. rewrite Hloc in Hd. cbn [fs set_fs] in Hd.
      by destruct (m !! ["tmp"; "temstapro"; "outputs"; n]) as [[?|]|]; simplify_eq.
    + rewrite (Hfiles id _ Hout). unfold payload_at. by rewrite Hd.
Qed.

Lemma launcher_forwards_base_names_witness :
  ∃ ra, calls (main Demo.good_tool Demo.scenario Demo.sys0).2 = [ra] ∧
        worker.mean_output_name ra = Some "mean.tsv" ∧
        worker.per_res_output_name ra = None ∧
        worker.include_plots ra = true ∧
        has_option "--mean-output" "/tmp/temstapro/outputs/mean.tsv" (worker_cmd ra) ∧
        calls (main Demo.good_tool (set_plot_dir (Some "elsewhere") Demo.scenario)
                 Demo.sys0).2 = [ra] ∧
        ∃ r, (run_temstapro Demo.good_tool ra Demo.empty_world).1 = inr r ∧
             files r !! "mean" = Some (Some (Demo.b "ID Score")).
Proof.
  pose proof (launcher_forwards_base_names Demo.good_tool Demo.scenario Demo.sys0
                (Demo.b ">p1 MKV") eq_refl) as H. cbv zeta in H.
  set (ra := remote_args Demo.scenario (Path (launcher.fasta_path Demo.scenario))
               (Demo.b ">p1 MKV")) in *.
  destruct H as ((Hcalls & _) & (Hmean & Hres & _ & Hplots) & _ & _ & Hsame & Hworker).
  destruct (Hworker "mean" "--mean-output" "mean.tsv") as (_ & _ & _ & Hopt & Hrun);
    [by left|discriminate|].
  exists ra. split; [exact Hcalls|]. split; [exact Hmean|]. split; [exact Hres|].
  split; [exact Hplots|]. split; [exact Hopt|]. split.
  - by apply (Hsame (set_plot_dir (Some "elsewhere") Demo.scenario)).
  - destruct (Hrun (stage ra Demo.empty_world).2
                (Demo.good_tool (worker_cmd ra) (stage ra Demo.empty_world).2).1
                (Demo.good_tool (worker_cmd ra) (stage ra Demo.empty_world).2).2)
      as (r & d & Hr & Hd & Hf).
    + apply outcome_pair. vm_compute. reflexivity.
    + apply surjective_pairing.
    + reflexivity.
    + intros id p Hin. unfold outputs in Hin.
      rewrite !elem_of_cons, elem_of_nil in Hin.
      destruct Hin as [Hin|[Hin|[Hin|[]]]]; injection Hin as -> Hp;
        vm_compute in Hp; try discriminate Hp.
      subst p. vm_compute. reflexivity.
    + vm_compute. reflexivity.
    + change (remote Demo.sys0) with Demo.empty_world in Hr.
      exists r. split; [by rewrite Hr|]. rewrite Hf. f_equal. f_equal.
      vm_compute in Hd. by injection Hd as <-.
Defined.

(** ** An output path that is a directory *)

(** C7, as stated, fails: an assigned output path that exists need not be
    a file.  For the output path ["a/.."] the launcher forwards the name
    [..]; the worker's path [/tmp/temstapro/outputs/..] exists, as a
    directory, and reading it raises [IsADirectoryError] after the
    subprocess exited with code 0.  So the worker returns no mapping at
    all, and the identifier ["mean"], to which no path was assigned, is not
    mapped to [None]. *)
Lemma output_directory_counterexample :
  ¬ (∀ tool a w w1 completed m,
       stage a w = (inr tt, w1) →
       tool (worker_cmd a) w1 = (completed, m) →
       returncode completed = 0%Z →
       ∃ r, run_temstapro tool a w = (inr r, set_fs m w1) ∧
            ∀ id op, (id, op) ∈ outputs a →
              (op = None → files r !! id = Some None) ∧
              (∀ p, op = Some p → exists_ (set_fs m w1) p = false →
                    files r !! id = Some None) ∧
              (∀ p data, op = Some p → stat (set_fs m w1) p = inr (File data) →
                    files r !! id = Some (Some data))).
Proof.
  intros H.
  destruct (H Demo.good_tool parent_name_args Demo.empty_world
              (stage parent_name_args Demo.empty_world).2
              (Demo.good_tool (worker_cmd parent_name_args)
                 (stage parent_name_args Demo.empty_world).2).1
              (Demo.good_tool (worker_cmd parent_name_args)
                 (stage parent_name_args Demo.empty_world).2).2)
    as (r & Hrun & _).
  - apply outcome_pair. vm_compute. reflexivity.
  - apply surjective_pairing.
  - reflexivity.
  - apply (f_equal fst) in Hrun. vm_compute in Hrun. discriminate Hrun.
Qed.

(** ** What the launcher writes *)




